(** * RAMSES frontend field definitions (yt/frontends/ramses/fields.py)

    A shallow embedding of [RAMSESFieldInfo]: the derived-field functions
    it builds, the conditional registration pipeline of
    [setup_fluid_fields] / [setup_particle_fields], and the cooling-table
    reader of [create_cooling_fields].

    Conventions of the embedding.
    - A float64 array of one data chunk is a flat [list R]; float64 values
      are read as real numbers (rounding, NaN and infinities are outside
      the model).  A quantity is held by its magnitude in one coherent
      (cgs) unit system, so [.to(u)], [ds.arr(x, u)] and [apply_units] to a
      cgs unit do not change the magnitude; conversions to a unit that is
      not cgs (Gyr, km/s/Mpc) multiply by an explicit factor.
    - Python exceptions are the [Raise] case of [result].
    - A field function runs in [Eval]: the [warnings.warn] calls it makes,
      in order, and its result.
    - The registration methods run in [Setup]: state passing over the
      mutable part of the field container, with exceptions. *)

From Stdlib Require Import Reals Lra Ascii String.
From stdpp Require Import gmap strings list pretty.

(** ** Python: exceptions, strings, paths *)

Module Py.

Inductive exn :=
  | KeyError (key : string)
  | IndexError
  | ValueError (msg : string)
  | TypeError
  | ZeroDivisionError
  | IOError
  | YTFieldNotFound (ftype fname : string).

Inductive result (A : Type) :=
  | Ok (a : A)
  | Raise (e : exn).
Arguments Ok {A} a.
Arguments Raise {A} e.

#[export] Instance result_ret : MRet result := @Ok.
#[export] Instance result_bind : MBind result := λ A B f m,
  match m with Ok a => f a | Raise e => Raise e end.

(** [s.split(sep)] for a one-character separator: every occurrence
    splits, so the result is never empty. *)
Fixpoint split_from (sep : ascii) (cur s : string) : list string :=
  match s with
  | EmptyString => [cur]
  | String c s' =>
      if decide (c = sep) then cur :: split_from sep EmptyString s'
      else split_from sep (cur +:+ String c EmptyString) s'
  end.

Definition str_split (sep : ascii) (s : string) : list string :=
  split_from sep EmptyString s.

(** [l[i]] for a non-negative constant index. *)
Definition list_index {A} (l : list A) (i : nat) : result A :=
  match l !! i with Some x => Ok x | None => Raise IndexError end.

(** The characters [int()] strips: ASCII white space (9-13, 28-32). *)
Definition is_space (c : ascii) : bool :=
  let n := nat_of_ascii c in
  ((9 <=? n) && (n <=? 13)) || ((28 <=? n) && (n <=? 32)).

Fixpoint lstrip (s : string) : string :=
  match s with
  | String c s' => if is_space c then lstrip s' else s
  | EmptyString => EmptyString
  end.

Definition strip (s : string) : string :=
  String.rev (lstrip (String.rev (lstrip s))).

Definition digit_of (c : ascii) : option Z :=
  let n := nat_of_ascii c in
  if (48 <=? n) && (n <=? 57) then Some (Z.of_nat n - 48)%Z else None.

(** Digits of a decimal literal, most significant first; a single
    underscore is allowed between two digits.  [prev] tells whether the
    previous character was a digit. *)
Fixpoint digits_from (prev : bool) (acc : Z) (s : string) : option Z :=
  match s with
  | EmptyString => if prev then Some acc else None
  | String c s' =>
      match digit_of c with
      | Some d => digits_from true (10 * acc + d)%Z s'
      | None =>
          if decide (c = "_"%char) then
            if prev then digits_from false acc s' else None
          else None
      end
  end.

(** [int(s)] on a string, base 10: white space stripped, an optional
    sign, then digits.  (Non-ASCII digits and spaces, which [int] also
    takes, are a [ValueError] here.) *)
Definition int (s : string) : result Z :=
  let bad := Raise (ValueError "invalid literal for int() with base 10") in
  let body neg t :=
    match digits_from false 0%Z t with
    | Some n => Ok (if neg : bool then (- n)%Z else n)
    | None => bad
    end in
  match strip s with
  | String "-"%char t => body true t
  | String "+"%char t => body false t
  | t => body false t
  end.

Definition zeros (n : nat) : string :=
  string_of_list_ascii (replicate n "0"%char).

(** [f"{num:05}"]: sign-aware zero padding to width 5. *)
Definition format_05 (num : Z) : string :=
  let d := pretty (Z.abs num) in
  if (num <? 0)%Z then "-" +:+ zeros (4 - String.length d) +:+ d
  else zeros (5 - String.length d) +:+ d.

Definition starts_with_slash (s : string) : bool :=
  match s with String "/"%char _ => true | _ => false end.

(** [os.path.join(a, b)] (posixpath). *)
Definition path_join (a b : string) : string :=
  if starts_with_slash b then b
  else if decide (a = EmptyString) then b
  else if starts_with_slash (String.rev a) then a +:+ b
  else a +:+ "/" +:+ b.

End Py.
Export Py.

(** ** numpy: flat float64 arrays *)

Module Np.

Definition arr := list R.

(** Element-wise binary operation with numpy's broadcasting rule for
    one-dimensional operands. *)
Definition broadcast (f : R → R → R) (a b : arr) : result arr :=
  if decide (length a = length b) then Ok (zip_with f a b)
  else match a, b with
       | [x], _ => Ok (map (f x) b)
       | _, [y] => Ok (map (λ x, f x y) a)
       | _, _ => Raise (ValueError "operands could not be broadcast together")
       end.

Definition add := broadcast Rplus.
Definition sub := broadcast Rminus.
Definition mul := broadcast Rmult.
Definition div := broadcast Rdiv.

(** Operations with a Python scalar on one side. *)
Definition scale (a : arr) (c : R) : arr := map (λ x, x * c)%R a.
Definition div_scalar (a : arr) (c : R) : arr := map (λ x, x / c)%R a.
Definition rsub (c : R) (a : arr) : arr := map (λ x, c - x)%R a.
Definition rdiv (c : R) (a : arr) : arr := map (λ x, c / x)%R a.
Definition add_scalar (a : arr) (c : R) : arr := map (λ x, x + c)%R a.
Definition neg (a : arr) : arr := map Ropp a.

Definition log10_R (x : R) : R := (ln x / ln 10)%R.
Definition log10 (a : arr) : arr := map log10_R a.
Definition exp (a : arr) : arr := map Rtrigo_def.exp a.
(** [10 ** a] *)
Definition pow10 (a : arr) : arr := map (Rpower 10) a.
(** [np.maximum(a, c)] with a scalar [c] *)
Definition maximum (a : arr) (c : R) : arr := map (λ x, Rmax x c) a.

Definition zeros_like (a : arr) : arr := map (λ _, 0%R) a.

(** [a.reshape(shape)] where [shape] is the shape of a flat array of
    [n] elements. *)
Definition reshape (n : nat) (a : arr) : result arr :=
  if decide (length a = n) then Ok a
  else Raise (ValueError "cannot reshape array").

Definition radd (c : R) (a : arr) : arr := map (λ x, c + x)%R a.
Definition rmul (c : R) (a : arr) : arr := map (λ x, c * x)%R a.

(** [out += x]: the result keeps the shape of [out]. *)
Definition iadd (out x : arr) : result arr :=
  if decide (length x = length out) then Ok (zip_with Rplus out x)
  else match x with
       | [y] => Ok (map (λ o, o + y)%R out)
       | _ => Raise (ValueError "non-broadcastable output operand")
       end.

(** [a.astype("int64")]: truncation toward zero. *)
Definition trunc (x : R) : Z :=
  if Rle_dec 0 x then Int_part x else (- Int_part (- x))%Z.
Definition astype_int64 (a : arr) : list Z := map trunc a.

(** [a[idx]] for an integer index array: negative indices count from
    the end. *)
Definition take (a : arr) (idx : list Z) : result arr :=
  let n := Z.of_nat (length a) in
  mapM (λ i : Z,
          if ((0 <=? i) && (i <? n))%Z then list_index a (Z.to_nat i)
          else if ((- n <=? i) && (i <? 0))%Z then
            list_index a (Z.to_nat (i + n))
          else Raise IndexError) idx.

(** [np.pad(a, (0, k), constant_values=v)] *)
Definition pad_right (a : arr) (k : Z) (v : R) : arr :=
  a ++ replicate (Z.to_nat k) v.

End Np.
Export Np.

(** ** Datasets, data contexts and field evaluation *)

Inductive axis := ax_x | ax_y | ax_z.

#[export] Instance axis_eq_dec : EqDecision axis.
Proof. solve_decision. Defined.

Definition axis_name (ax : axis) : string :=
  match ax with ax_x => "x" | ax_y => "y" | ax_z => "z" end.

(** Values of the parameter dictionaries ([ds.parameters], the RT
    parameter block): a Python [int], a Python [float], or a Python
    [list] of floats. *)
Inductive pval :=
  | PInt (n : Z)
  | PFloat (x : R)
  | PList (l : list R).

(** The attributes of the dataset that fields.py reads.
    [coordinates.axis_order] is the Cartesian handler's tuple of axis
    names. *)
Record Dataset := {
  basename : string;
  directory : string;
  cosmological_simulation : bool;
  use_conformal_time : bool;
  self_shielding : bool;
  current_time : R;
  hubble_constant : R;
  max_level : Z;
  axis_order : list axis;
  parameters : gmap string pval;
}.

Inductive warning := RuntimeWarning (msg : string).

(** Field evaluation: the warnings issued, in order, and the result. *)
Definition Eval (A : Type) : Type := list warning * result A.

#[export] Instance Eval_ret : MRet Eval := λ A a, ([], Ok a).
#[export] Instance Eval_bind : MBind Eval := λ A B f m,
  match m with
  | (w, Ok a) => let '(w', r) := f a in (w ++ w', r)
  | (w, Raise e) => (w, Raise e)
  end.

Definition warn (w : warning) : Eval unit := ([w], Ok tt).
Definition lift {A} (r : result A) : Eval A := ([], r).

(** A data context: the dataset it belongs to, whether it is the
    [FieldDetector] of the dependency-detection pass, and the field
    arrays it gives for the chunk. *)
Record Data := {
  data_ds : Dataset;
  is_FieldDetector : bool;
  data_fields : gmap (string * string) arr;
}.

(** [data[ftype, fname]] *)
Definition getitem (data : Data) (key : string * string) : Eval arr :=
  match data_fields data !! key with
  | Some a => mret a
  | None => lift (Raise (YTFieldNotFound key.1 key.2))
  end.

(** ** Units and the field container *)

(** Unit expressions, kept symbolic: a unit string, [ds.unit_system[dim]],
    and the quotients and powers fields.py forms of them. *)
Inductive units :=
  | UStr (s : string)
  | USys (dim : string)
  | UInv (u : units)
  | UDiv (u v : units)
  | UPow (u : units) (n : Z).

Inductive sampling := cell | particle.

Record DerivedField := {
  function : Data → Eval arr;
  sampling_type : sampling;
  field_units : option units;
}.

(** The mutable state the registration methods touch: the container's
    entries, [self.field_list], [self.species_names], the records of
    [mylog.warning], and [self.ds.fluid_types]. *)
Record FieldInfo := {
  fields : gmap (string * string) DerivedField;
  field_list : list (string * string);
  species_names : list string;
  mylog : list string;
  fluid_types : list string;
}.

Definition Setup (A : Type) : Type := FieldInfo → result A * FieldInfo.

#[export] Instance Setup_ret : MRet Setup := λ A a fi, (Ok a, fi).
#[export] Instance Setup_bind : MBind Setup := λ A B f m fi,
  match m fi with
  | (Ok a, fi') => f a fi'
  | (Raise e, fi') => (Raise e, fi')
  end.

Definition raise_setup {A} (e : exn) : Setup A := λ fi, (Raise e, fi).
Definition lift_setup {A} (r : result A) : Setup A := λ fi, (r, fi).

(** The container with the entry of [name] set to [fd]. *)
Definition with_entry (name : string * string) (fd : DerivedField)
    (fi : FieldInfo) : FieldInfo :=
  {| fields := <[name := fd]> (fields fi);
     field_list := field_list fi;
     species_names := species_names fi;
     mylog := mylog fi;
     fluid_types := fluid_types fi |}.

(** Modelled from the spec: [FieldInfoContainer.add_field]
    (yt/fields/field_info_container.py is not among the sources).
    Spec 4.3: a later registration of the same key overrides the earlier
    definition (last-write-wins), and it is not an error. *)
Definition add_field (name : string * string) (f : Data → Eval arr)
    (st : sampling) (u : option units) : Setup unit := λ fi,
  (Ok tt,
   with_entry name
     {| function := f; sampling_type := st; field_units := u |} fi).

(** [name in self] *)
Definition contains (name : string * string) : Setup bool := λ fi,
  (Ok (bool_decide (is_Some (fields fi !! name))), fi).

Definition with_log (msg : string) (fi : FieldInfo) : FieldInfo :=
  {| fields := fields fi; field_list := field_list fi;
     species_names := species_names fi;
     mylog := mylog fi ++ [msg];
     fluid_types := fluid_types fi |}.

(** [mylog.warning(msg)] *)
Definition mylog_warning (msg : string) : Setup unit := λ fi,
  (Ok tt, with_log msg fi).

Definition set_species_names (l : list string) : Setup unit := λ fi,
  (Ok tt,
   {| fields := fields fi; field_list := field_list fi;
      species_names := l;
      mylog := mylog fi;
      fluid_types := fluid_types fi |}).

Definition add_fluid_type (t : string) : Setup unit := λ fi,
  (Ok tt,
   {| fields := fields fi; field_list := field_list fi;
      species_names := species_names fi;
      mylog := mylog fi;
      fluid_types := fluid_types fi ++ [t] |}).

Definition get_field_list : Setup (list (string * string)) := λ fi,
  (Ok (field_list fi), fi).

(** [for x in l: body(x)] *)
Fixpoint for_each {A} (l : list A) (body : A → Setup unit) : Setup unit :=
  match l with
  | [] => mret tt
  | x :: l' => body x ;; for_each l' body
  end.

(** ** The world outside: files and the RT parameter block *)

(** A Fortran unformatted file: a sequence of records, each a vector of
    int32 or of float64. *)
Inductive frecord :=
  | IntVec (v : list Z)
  | DoubleVec (v : arr).

Record Env := {
  ds : Dataset;
  (** the files that exist, by path *)
  files : gmap string (list frecord);
  (** [RTFieldFileHandler.any_exist(ds)] *)
  rt_any_exist : bool;
  (** [RTFieldFileHandler.get_rt_parameters(ds)] *)
  rt_parameters : gmap string pval;
}.

(** Python dicts with string keys, in insertion order: assigning to a
    key that is present keeps its position. *)
Fixpoint dict_set {V} (k : string) (v : V) (d : list (string * V))
    : list (string * V) :=
  match d with
  | [] => [(k, v)]
  | (k', v') :: d' =>
      if decide (k = k') then (k, v) :: d' else (k', v') :: dict_set k v d'
  end.

Fixpoint dict_get {V} (k : string) (d : list (string * V)) : result V :=
  match d with
  | [] => Raise (KeyError k)
  | (k', v) :: d' => if decide (k = k') then Ok v else dict_get k d'
  end.

(** ** Lookup-table interpolator *)

Module Interp.

Record BilinearFieldInterpolator := {
  (** [table[i][j]]: [i] runs along [x_bins], [j] along [y_bins] *)
  table : list (list R);
  x_bins : arr;
  y_bins : arr;
  x_name : string;
  y_name : string;
  truncate : bool;
}.

(** Modelled from the spec: the constructor of
    [BilinearFieldInterpolator] (yt/utilities/linear_interpolators.py is
    not among the sources).  Spec 4.2: constructed from two
    sample-coordinate sequences and a value array of shape (n1, n2). *)
Definition make (tbl : list (list R)) (boundaries : arr * arr)
    (field_names : string * string) (trunc : bool)
    : BilinearFieldInterpolator :=
  {| table := tbl; x_bins := boundaries.1; y_bins := boundaries.2;
     x_name := field_names.1; y_name := field_names.2;
     truncate := trunc |}.

(** Modelled from the spec: the out-of-range policy of the interpolator.
    Spec 3: queries outside the sampled range are clamped to the nearest
    edge sample rather than extrapolated. *)
Definition clamp (lo hi x : R) : R := Rmax lo (Rmin x hi).

(** Modelled from the spec: the search for the bracketing grid cell of
    the interpolator.  Spec 4.2: locate the bracketing grid cell along
    each axis over the monotone coordinate sequence.  The result is the
    index [i] of the cell between samples [i] and [i+1]; the scan from the
    left finds the cell a binary search finds on a monotone sequence; the
    last cell takes every coordinate not in an earlier one. *)
Fixpoint locate (bins : arr) (x : R) : nat :=
  match bins with
  | _ :: ((b1 :: rest) as tl) =>
      match rest with
      | [] => 0
      | _ :: _ => if Rlt_dec x b1 then 0 else S (locate tl x)
      end
  | _ => 0
  end.

(** Modelled from the spec: cell and fractional offset along one axis of
    the interpolator.  Spec 4.2: a degenerate axis (n=1) returns the sole
    sample's value, never dividing by zero spacing.  (The spec says
    nothing of an empty axis; it is treated like the degenerate one.) *)
Definition axis_cell (bins : arr) (x : R) : nat * R :=
  match bins with
  | [] | [_] => (0, 0%R)
  | b0 :: _ =>
      let xc := clamp b0 (default b0 (last bins)) x in
      let i := locate bins xc in
      (i, ((xc - nth i bins 0) / (nth (S i) bins 0 - nth i bins 0))%R)
  end.

Definition at_ (tbl : list (list R)) (i j : nat) : R :=
  nth j (nth i tbl []) 0%R.

(** Modelled from the spec: bilinear interpolation at one query point.
    Spec 4.2: compute the four corner weights from the fractional
    offsets, and return the weighted sum. *)
Definition interp_point (I : BilinearFieldInterpolator) (x y : R) : R :=
  let '(i, tx) := axis_cell (x_bins I) x in
  let '(j, ty) := axis_cell (y_bins I) y in
  (at_ (table I) i j * ((1 - tx) * (1 - ty))
   + at_ (table I) (S i) j * (tx * (1 - ty))
   + at_ (table I) i (S j) * ((1 - tx) * ty)
   + at_ (table I) (S i) (S j) * (tx * ty))%R.

(** Modelled from the spec: [BilinearFieldInterpolator.__call__].
    Spec 4.2: vectorized evaluation over arrays of query points, read
    from the data object under the two field names; out-of-range
    coordinates are clamped rather than failing.  (The spec gives one
    out-of-range policy; fields.py always passes [truncate=True].) *)
Definition call (I : BilinearFieldInterpolator) (d : list (string * arr))
    : result arr :=
  xs ← dict_get (x_name I) d;
  ys ← dict_get (y_name I) d;
  if decide (length xs = length ys) then Ok (zip_with (interp_point I) xs ys)
  else Raise (ValueError "query arrays differ in size").

End Interp.

(** ** Constants and collaborators defined outside fields.py *)

Class Externals := {
  (** yt.utilities.physical_constants, cgs magnitudes *)
  mass_hydrogen_cgs : R;
  boltzmann_constant_cgs : R;
  mh : R;
  mp : R;
  (** [units.c], cm/s *)
  speed_of_light : R;
  (** one Gyr in seconds; one km/s/Mpc in 1/s *)
  Gyr : R;
  km_s_Mpc : R;
  (** yt.frontends.ramses.io *)
  convert_ramses_conformal_time_to_physical_time : Dataset → arr → arr;
  (** yt.utilities.lib.cosmology_time *)
  t_frw : Dataset → R → R;
  (** [FieldInfoContainer.setup_particle_fields] *)
  super_setup_particle_fields : string → Setup unit;
}.

(** ** fields.py *)

Definition b_units := "code_magnetic".
Definition cooling_function_units := " erg * cm**3 /s".
Definition cooling_function_prime_units := " erg * cm**3 /s/K".
Definition number_density_unit := "1 / code_length**3".

Definition known_species_names : list (string * string) :=
  [ ("HI", "H_p0"); ("HII", "H_p1"); ("Electron", "El");
    ("HeI", "He_p0"); ("HeII", "He_p1"); ("HeIII", "He_p2");
    ("H2I", "H2_p0"); ("H2II", "H2_p1"); ("HM", "H_m1");
    ("DI", "D_p0"); ("DII", "D_p1"); ("HDI", "HD_p0") ].

Definition _cool_axes : list string := ["lognH"; "logT"].

Definition _cool_arrs : list (string * option string) :=
  [ ("cooling_primordial", Some cooling_function_units);
    ("heating_primordial", Some cooling_function_units);
    ("cooling_compton", Some cooling_function_units);
    ("heating_compton", Some cooling_function_units);
    ("cooling_metal", Some cooling_function_units);
    ("cooling_primordial_prime", Some cooling_function_prime_units);
    ("heating_primordial_prime", Some cooling_function_prime_units);
    ("cooling_compton_prime", Some cooling_function_prime_units);
    ("heating_compton_prime", Some cooling_function_prime_units);
    ("cooling_metal_prime", Some cooling_function_prime_units);
    ("mu", None);
    ("abundances", None) ].

Definition _cool_species : list string :=
  [ "Electron_number_density"; "HI_number_density"; "HII_number_density";
    "HeI_number_density"; "HeII_number_density"; "HeIII_number_density" ].

Definition _X : R := 0.76.
Definition _Y : R := 0.24.

Section RAMSESFieldInfo.
Context `{Externals}.

(** *** setup_particle_fields *)

Definition star_age_from_conformal_cosmo (ptype : string) (data : Data)
    : Eval arr :=
  conformal_age ← getitem data (ptype, "conformal_birth_time");
  let birth_time :=
    convert_ramses_conformal_time_to_physical_time (data_ds data)
      conformal_age in
  mret (rsub (current_time (data_ds data)) birth_time).

Definition star_age_from_physical_cosmo (ptype : string) (data : Data)
    : Eval arr :=
  let H0 := (hubble_constant (data_ds data) * 100 * (km_s_Mpc * Gyr))%R in
  times ← getitem data (ptype, "conformal_birth_time");
  let time_tot := (t_frw (data_ds data) 0 * H0)%R in
  let birth_time := div_scalar (radd time_tot times) H0 in
  let t_out := (current_time (data_ds data) / Gyr)%R in
  mret (scale (rsub t_out birth_time) Gyr).

Definition star_age (ptype : string) (data : Data) : Eval arr :=
  formation_time ← getitem data (ptype, "particle_birth_time");
  mret (rsub (current_time (data_ds data)) formation_time).

Definition setup_particle_fields (self : Env) (ptype : string)
    : Setup unit :=
  super_setup_particle_fields ptype;;
  let fun_ :=
    if cosmological_simulation (ds self) && use_conformal_time (ds self)
    then star_age_from_conformal_cosmo ptype
    else if cosmological_simulation (ds self)
    then star_age_from_physical_cosmo ptype
    else star_age ptype in
  add_field (ptype, "star_age") fun_ particle (Some (USys "time")).

(** *** Temperature *)

Definition _temperature_over_mu (data : Data) : Eval arr :=
  p ← getitem data ("gas", "pressure");
  d ← getitem data ("gas", "density");
  rv ← lift (div p d);
  mret (scale rv (mass_hydrogen_cgs / boltzmann_constant_cgs)).

Definition temperature_warning : warning :=
  RuntimeWarning
    ("Trying to calculate temperature but the cooling tables "
     +:+ "couldn't be found or read. yt will return T/µ instead of "
     +:+ "T — this is equivalent to assuming µ=1.0. To suppress this, "
     +:+ "derive the temperature from temperature_over_mu with "
     +:+ "some values for mu.").

(** The two definitions of [_temperature], chosen by
    [found_cooling_fields]. *)
Definition _temperature (found_cooling_fields : bool) (data : Data)
    : Eval arr :=
  if found_cooling_fields then
    t ← getitem data ("gas", "temperature_over_mu");
    mu ← getitem data ("gas", "mu");
    lift (mul t mu)
  else
    (if negb (is_FieldDetector data) then warn temperature_warning
     else mret tt);;
    getitem data ("gas", "temperature_over_mu").

(** *** create_gravity_fields *)

Definition potential_energy (data : Data) : Eval arr :=
  a ← getitem data ("gas", "potential");
  b ← getitem data ("gas", "cell_mass");
  lift (mul a b).

Definition create_gravity_fields : Setup unit :=
  add_field ("gas", "potential_energy") potential_energy cell
    (Some (USys "energy")).

(** *** create_magnetic_fields *)

Definition _mag_field (ax : axis) (data : Data) : Eval arr :=
  l ← getitem data ("gas", "magnetic_field_" +:+ axis_name ax +:+ "_left");
  r ← getitem data ("gas", "magnetic_field_" +:+ axis_name ax +:+ "_right");
  s ← lift (add l r);
  mret (div_scalar s 2).

(** The loop of [_divB]: [out] after the axes [axes]. *)
Fixpoint _divB_loop (data : Data) (axes : list axis) (out : arr)
    : Eval arr :=
  match axes with
  | [] => mret out
  | ax :: axes' =>
      r ← getitem data
            ("gas", "magnetic_field_" +:+ axis_name ax +:+ "_right");
      l ← getitem data
            ("gas", "magnetic_field_" +:+ axis_name ax +:+ "_left");
      d ← lift (sub r l);
      out' ← lift (iadd out d);
      _divB_loop data axes' out'
  end.

Definition _divB (data : Data) : Eval arr :=
  z ← getitem data ("gas", "magnetic_field_x_right");
  out ← _divB_loop data (axis_order (data_ds data)) (zeros_like z);
  dx ← getitem data ("gas", "dx");
  lift (div out dx).

Definition create_magnetic_fields (self : Env) : Setup unit :=
  for_each (axis_order (ds self)) (λ ax,
    add_field ("gas", "magnetic_field_" +:+ axis_name ax) (_mag_field ax)
      cell (Some (USys "magnetic_field_cgs")));;
  add_field ("gas", "magnetic_field_divergence") _divB cell
    (Some (UDiv (USys "magnetic_field_cgs") (USys "length"))).

(** *** create_rt_fields *)

(** [p[k]] *)
Definition param (p : gmap string pval) (k : string) : result pval :=
  match p !! k with Some v => Ok v | None => Raise (KeyError k) end.

(** The operand of a division between two parameter values: a
    Python [list] has no [/] with a number or with another list. *)
Definition num_of (v : pval) : result R :=
  match v with
  | PInt n => Ok (IZR n)
  | PFloat x => Ok x
  | PList _ => Raise TypeError
  end.

(** The magnitude of a parameter value next to an array or a unit: a
    number stays a scalar, a list becomes an array. *)
Inductive factor :=
  | Scalar (x : R)
  | Array (a : arr).

Definition factor_of (v : pval) : factor :=
  match v with
  | PInt n => Scalar (IZR n)
  | PFloat x => Scalar x
  | PList l => Array l
  end.

(** [v / a] for a parameter value [v] and an array [a], as in
    [p["unit_np"] / rt_c]: numpy divides a scalar by every entry, and
    broadcasts a list against the array. *)
Definition factor_rdiv (v : factor) (a : arr) : result arr :=
  match v with
  | Scalar x => Ok (rdiv x a)
  | Array l => div l a
  end.

(** [a * v] for an array [a], as in [data[...] * flux_conv]. *)
Definition mul_factor (a : arr) (v : factor) : result arr :=
  match v with
  | Scalar x => Ok (scale a x)
  | Array l => mul a l
  end.

(** [a / b] for two parameter values, [p["unit_l"] / p["unit_t"]]. *)
Definition py_div (a b : pval) : result R :=
  x ← num_of a;
  y ← num_of b;
  if Req_dec_T y 0 then Raise ZeroDivisionError else Ok (x / y)%R.

(** [range(n)] *)
Definition range (n : pval) : result (list Z) :=
  match n with
  | PInt n => Ok (seqZ 0 n)
  | PFloat _ | PList _ => Raise TypeError
  end.

(** The padded [rt_c_frac] of [create_rt_fields]. *)
Definition rt_c_frac (p : gmap string pval) (max_level : Z) : result arr :=
  v ← param p "rt_c_frac";
  match v with
  | PList l =>
      pad_value ← (if decide (length l = 1) then list_index l 0
                   else Ok 1%R);
      Ok (pad_right l
            (Z.max 0 (max_level - Z.of_nat (length ["rt_c_frac"]) + 1))
            pad_value)
  | PInt _ | PFloat _ => Raise TypeError
  end.

Definition _temp_IR (data : Data) : Eval arr :=
  p ← getitem data ("gas", "pres_IR");
  d ← getitem data ("gas", "density");
  rv ← lift (div p d);
  mret (scale rv (mass_hydrogen_cgs / boltzmann_constant_cgs)).

Definition _species_density (species : string) (data : Data) : Eval arr :=
  a ← getitem data ("gas", species +:+ "_fraction");
  b ← getitem data ("gas", "density");
  lift (mul a b).

Definition _species_mass (species : string) (data : Data) : Eval arr :=
  a ← getitem data ("gas", species +:+ "_density");
  b ← getitem data ("index", "cell_volume");
  lift (mul a b).

Definition _photon_density (dens_conv : arr) (igroup : Z) (data : Data)
    : Eval arr :=
  lvl ← getitem data ("index", "grid_level");
  let ilvl := astype_int64 lvl in
  dc ← lift (take dens_conv ilvl);
  pd ← getitem data ("ramses-rt", "Photon_density_" +:+ pretty (igroup + 1)%Z);
  lift (mul pd dc).

Definition _photon_flux (flux_conv : factor) (key : string) (igroup : Z)
    (data : Data) : Eval arr :=
  pf ← getitem data
         ("ramses-rt",
          "Photon_flux_" +:+ key +:+ "_" +:+ pretty (igroup + 1)%Z);
  lift (mul_factor pf flux_conv).

Definition create_rt_fields (self : Env) : Setup unit :=
  add_fluid_type "rt";;
  let p := parameters (ds self) ∪ rt_parameters self in
  ngroups ← lift_setup (param p "nGroups");
  rt_c_frac ← lift_setup (rt_c_frac p (max_level (ds self)));
  unit_l ← lift_setup (param p "unit_l");
  unit_t ← lift_setup (param p "unit_t");
  l_over_t ← lift_setup (py_div unit_l unit_t);
  let rt_c := div_scalar (scale rt_c_frac speed_of_light) l_over_t in
  unit_np ← lift_setup (param p "unit_np");
  dens_conv ← lift_setup (factor_rdiv (factor_of unit_np) rt_c);
  add_field ("gas", "temp_IR") _temp_IR cell (Some (USys "temperature"));;
  for_each ["H_p1"; "He_p1"; "He_p2"] (λ species,
    add_field ("gas", species +:+ "_density") (_species_density species)
      cell (Some (USys "density"));;
    add_field ("gas", species +:+ "_mass") (_species_mass species)
      cell (Some (USys "mass")));;
  groups ← lift_setup (range ngroups);
  for_each groups (λ igroup,
    add_field ("rt", "photon_density_" +:+ pretty (igroup + 1)%Z)
      (_photon_density dens_conv igroup) cell
      (Some (USys "number_density")));;
  unit_pf ← lift_setup (param p "unit_pf");
  let flux_conv := factor_of unit_pf in
  let flux_unit := UDiv (UInv (USys "time")) (UPow (USys "length") 2) in
  for_each ["x"; "y"; "z"] (λ key,
    groups ← lift_setup (range ngroups);
    for_each groups (λ igroup,
      add_field
        ("rt", "photon_flux_" +:+ key +:+ "_" +:+ pretty (igroup + 1)%Z)
        (_photon_flux flux_conv key igroup) cell (Some flux_unit))).

(** *** create_cooling_fields: reading the table file *)

(** int32 arithmetic of the header values. *)
Definition wrap32 (z : Z) : Z := ((z + 2 ^ 31) mod 2 ^ 32 - 2 ^ 31)%Z.
Definition mul32 (a b : Z) : Z := wrap32 (a * b).

(** [fd.read_vector("i")], [fd.read_vector("d")]: the next record.  A
    record is typed here; reading one with the other dtype is an
    error. *)
Definition read_vector_i (fd : list frecord)
    : result (list Z * list frecord) :=
  match fd with
  | IntVec v :: fd' => Ok (v, fd')
  | DoubleVec _ :: _ => Raise (ValueError "record is not a vector of int32")
  | [] => Raise IOError
  end.

Definition read_vector_d (fd : list frecord) : result (arr * list frecord) :=
  match fd with
  | DoubleVec v :: fd' => Ok (v, fd')
  | IntVec _ :: _ => Raise (ValueError "record is not a vector of float64")
  | [] => Raise IOError
  end.

Definition prod_dims (dims : list Z) : Z := foldr Z.mul 1%Z dims.

(** The shape [a.reshape(dims)] gives an array of [size] elements: one
    dimension may be -1 and is then inferred. *)
Definition resolve_shape (dims : list Z) (size : Z) : result (list Z) :=
  if existsb (λ d, d <? -1)%Z dims then
    Raise (ValueError "negative dimensions not allowed")
  else
    match length (filter (λ d, d = (-1)%Z) dims) with
    | 0 =>
        if decide (prod_dims dims = size) then Ok dims
        else Raise (ValueError "cannot reshape array")
    | 1 =>
        let p := prod_dims (filter (λ d, d ≠ (-1)%Z) dims) in
        if decide (p = 0 ∨ size `mod` p ≠ 0)%Z then
          Raise (ValueError "cannot reshape array")
        else Ok (map (λ d, if decide (d = (-1)%Z) then (size / p)%Z else d)
                   dims)
    | _ => Raise (ValueError "can only specify one unknown dimension")
    end.

(** The [d1] x [d2] table that starts at offset [off] of [var] in
    Fortran (column-major) order: entry (i, j) is [var[off + i + d1*j]]. *)
Definition table_F (d1 d2 off : nat) (var : arr) : list (list R) :=
  map (λ i, map (λ j, nth (off + i + d1 * j) var 0%R) (seq 0 d2))
    (seq 0 d1).

Definition dim (shape : list Z) (i : nat) : nat := Z.to_nat (nth i shape 0%Z).

Definition tvals_t : Type := list (string * (list (list R) * option string)).

(** [for i in range(var.shape[-1]): tvals[_cool_species[i]] = ...] *)
Fixpoint load_species (d1 d2 : nat) (var : arr) (idx : list nat)
    (tvals : tvals_t) : result tvals_t :=
  match idx with
  | [] => Ok tvals
  | i :: idx' =>
      name ← list_index _cool_species i;
      load_species d1 d2 var idx'
        (dict_set name (table_F d1 d2 (d1 * d2 * i) var, Some "1/cm**3")
           tvals)
  end.

(** The loop over [enumerate(_cool_arrs)], from index [i] on.  [None]
    is the early [return False] of the pre-2010 format. *)
Fixpoint load_arrs (n1 n2 : Z) (i : nat) (names : list (string * option string))
    (fd : list frecord) (tvals : tvals_t) : result (option tvals_t) :=
  match names with
  | [] => Ok (Some tvals)
  | (tname, unit) :: names' =>
      '(var, fd') ← read_vector_d fd;
      let size := Z.of_nat (length var) in
      if bool_decide (size = n1) && bool_decide (i = 0) then Ok None
      else if bool_decide (size = mul32 n1 n2) then
        shape ← resolve_shape [n1; n2] size;
        load_arrs n1 n2 (S i) names' fd'
          (dict_set tname (table_F (dim shape 0) (dim shape 1) 0 var, unit)
             tvals)
      else
        shape ← resolve_shape [n1; n2; (size / mul32 n1 n2)%Z] size;
        tvals' ← load_species (dim shape 0) (dim shape 1) var
                   (seq 0 (dim shape 2)) tvals;
        load_arrs n1 n2 (S i) names' fd' tvals'
  end.

(** [for ax in _cool_axes: avals[ax] = fd.read_vector("d")] *)
Fixpoint load_axes (axes : list string) (fd : list frecord)
    (avals : list (string * arr))
    : result (list (string * arr) * list frecord) :=
  match axes with
  | [] => Ok (avals, fd)
  | ax :: axes' =>
      '(v, fd') ← read_vector_d fd;
      load_axes axes' fd' (dict_set ax v avals)
  end.

(** The body of the [with FortranFile(filename) as fd] block. *)
Definition load_cooling_tables (fd : list frecord)
    : result (option (list (string * arr) * tvals_t)) :=
  '(hdr, fd1) ← read_vector_i fd;
  match hdr with
  | [n1; n2] =>
      '(avals, fd2) ← load_axes _cool_axes fd1 [];
      match load_arrs n1 n2 0 _cool_arrs fd2 [] with
      | Ok (Some tvals) => Ok (Some (avals, tvals))
      | Ok None => Ok None
      | Raise e => Raise e
      end
  | _ => Raise (ValueError "wrong number of values to unpack")
  end.

(** [os.path.join(self.ds.directory, f"cooling_{num:05}.out")] with
    [num = int(self.ds.basename.split(".")[0].split("_")[1])] *)
Definition cooling_filename (d : Dataset) : result string :=
  a ← list_index (str_split "." (basename d)) 0;
  b ← list_index (str_split "_" a) 1;
  num ← int b;
  Ok (path_join (directory d) ("cooling_" +:+ format_05 num +:+ ".out")).

(** *** create_cooling_fields: the fields *)

(** [_func] up to the call of the interpolator: the shape of the chunk
    and the query coordinates [d]. *)
Definition _func_coordinates (data : Data) : Eval (nat * list (string * arr)) :=
  t ← getitem data ("gas", "temperature_over_mu");
  let shape := length t in
  Z ← getitem data ("gas", "metallicity");
  rho ← getitem data ("gas", "density");
  (* ((1 - _Y) * (1 - Z) * data["gas", "density"] / mh).to("cm**-3") *)
  a ← lift (mul (rmul (1 - _Y) (rsub 1 Z)) rho);
  let nH := div_scalar a mh in
  (* nH / boost *)
  q ← (if self_shielding (data_ds data) then
         let boost := maximum (exp (div_scalar (neg nH) 0.01)) 1e-20 in
         lift (div nH boost)
       else
         let boost := 1%R in
         mret (div_scalar nH boost));
  t' ← getitem data ("gas", "temperature_over_mu");
  mret (shape, [("lognH", log10 q); ("logT", log10 t')]).

(** [_func] from the call of the interpolator on: the value looked up
    at the coordinates [d], and its scaling by the name of the field. *)
Definition _func_value (name : string * string)
    (interp_object : Interp.BilinearFieldInterpolator) (unit_ : option string)
    (data : Data) (shape : nat) (d : list (string * arr)) : Eval arr :=
  (* rv = interp_object(d).reshape(shape) *)
  r ← lift (Interp.call interp_object d);
  rv ← lift (reshape shape r);
  (* if name[-1] != "mu": rv = 10 ** interp_object(d).reshape(shape) *)
  rv ← (if decide (name.2 ≠ "mu") then
          r' ← lift (Interp.call interp_object d);
          r'' ← lift (reshape shape r');
          mret (pow10 r'')
        else mret rv);
  (* cool = data.ds.arr(rv, unit) *)
  let cool := rv in
  if decide ("metal" ∈ str_split "_" name.2) then
    Z ← getitem data ("gas", "metallicity");
    c ← lift (mul cool Z);
    mret (div_scalar c 0.02)
  else if decide ("compton" ∈ str_split "_" name.2) then
    (* cool = data.ds.arr(rv, unit + "/cm**3"): the same magnitudes under
       a per-volume unit; None + str is a TypeError *)
    match unit_ with
    | None => lift (Raise TypeError)
    | Some _ =>
        let cool := rv in
        n ← getitem data ("gas", "number_density");
        lift (div cool n)
    end
  else mret cool.

Definition _func (name : string * string)
    (interp_object : Interp.BilinearFieldInterpolator) (unit_ : option string)
    (data : Data) : Eval arr :=
  '(shape, d) ← _func_coordinates data;
  _func_value name interp_object unit_ data shape d.

Definition _create_field (name : string * string)
    (interp_object : Interp.BilinearFieldInterpolator) (unit_ : option string)
    : Setup unit :=
  add_field name (_func name interp_object unit_) cell (UStr <$> unit_).

Definition _number_density (data : Data) : Eval arr :=
  rho ← getitem data ("gas", "density");
  mu ← getitem data ("gas", "mu");
  lift (div (div_scalar rho mp) mu).

Definition _all_cool (data : Data) : Eval arr :=
  a ← getitem data ("gas", "cooling_primordial");
  b ← getitem data ("gas", "cooling_metal");
  ab ← lift (add a b);
  c ← getitem data ("gas", "cooling_compton");
  lift (add ab c).

Definition _all_heat (data : Data) : Eval arr :=
  a ← getitem data ("gas", "heating_primordial");
  b ← getitem data ("gas", "heating_compton");
  lift (add a b).

Definition _net_cool (data : Data) : Eval arr :=
  a ← getitem data ("gas", "cooling_total");
  b ← getitem data ("gas", "heating_total");
  lift (sub a b).

(** The interpolator built for the table of [tvals[key]]. *)
Definition table_interp (avals : list (string * arr))
    (tbl : list (list R)) : result Interp.BilinearFieldInterpolator :=
  lognH ← dict_get "lognH" avals;
  logT ← dict_get "logT" avals;
  Ok (Interp.make tbl (lognH, logT) ("lognH", "logT") true).

(** The part of [create_cooling_fields] after the file is read. *)
Definition register_cooling_fields (avals : list (string * arr))
    (tvals : tvals_t) : Setup bool :=
  mu ← lift_setup (dict_get "mu" tvals);
  interp ← lift_setup (table_interp avals mu.1);
  _create_field ("gas", "mu") interp (Some "dimensionless");;
  add_field ("gas", "number_density") _number_density cell
    (Some (UStr number_density_unit));;
  for_each tvals (λ '(key, (tbl, unit_)),
    if decide (key ≠ "mu") then
      interp ← lift_setup (table_interp avals tbl);
      _create_field ("gas", key) interp unit_
    else mret tt);;
  add_field ("gas", "cooling_total") _all_cool cell
    (Some (UStr cooling_function_units));;
  add_field ("gas", "heating_total") _all_heat cell
    (Some (UStr cooling_function_units));;
  add_field ("gas", "cooling_net") _net_cool cell
    (Some (UStr cooling_function_units));;
  mret true.

Definition create_cooling_fields (self : Env) : Setup bool :=
  filename ← lift_setup (cooling_filename (ds self));
  match files self !! filename with
  | None =>
      mylog_warning "This output has no cooling fields";;
      mret false
  | Some fd =>
      loaded ← lift_setup (load_cooling_tables fd);
      match loaded with
      | None =>
          mylog_warning
            ("This cooling file format is no longer supported. "
             +:+ "Cooling field loading skipped.");;
          mret false
      | Some (avals, tvals) => register_cooling_fields avals tvals
      end
  end.

(** *** setup_fluid_fields *)

Definition setup_fluid_fields (self : Env) : Setup unit :=
  add_field ("gas", "temperature_over_mu") _temperature_over_mu cell
    (Some (USys "temperature"));;
  found_cooling_fields ← create_cooling_fields self;
  add_field ("gas", "temperature") (_temperature found_cooling_fields) cell
    (Some (USys "temperature"));;
  fl ← get_field_list;
  set_species_names
    (omap (λ '(ft, fn), list_to_map (M := gmap string string)
                          known_species_names !! fn) fl);;
  (if rt_any_exist self then create_rt_fields self else mret tt);;
  has_b ← contains ("gas", "magnetic_field_x_left");
  (if has_b : bool then create_magnetic_fields self else mret tt);;
  has_g ← contains ("gravity", "Potential");
  (if has_g : bool then create_gravity_fields else mret tt).

End RAMSESFieldInfo.

(** ** The fields the cooling tables give *)

(** The entries [tvals] can hold: a name of [_cool_arrs] with its unit,
    or a species table. *)
Definition table_entry (e : string * (list (list R) * option string))
    : Prop :=
  (e.1, e.2.2) ∈ _cool_arrs ∨ (e.1 ∈ _cool_species ∧ e.2.2 = Some "1/cm**3").

Definition table_field_names : list string :=
  _cool_arrs.*1 ++ _cool_species.

(** The gas fields [create_cooling_fields] can register. *)
Definition cooling_field_names : list string :=
  [ "mu"; "number_density"; "cooling_total"; "heating_total"; "cooling_net" ]
  ++ table_field_names.

(** The names and units [_create_field] is called with: mu as a
    dimensionless field, every other entry of [tvals] with its unit. *)
Definition cooling_table_field (key : string) (unit_ : option string)
    : Prop :=
  (key = "mu" ∧ unit_ = Some "dimensionless") ∨
  (key ≠ "mu" ∧
   ((key, unit_) ∈ _cool_arrs ∨
    (key ∈ _cool_species ∧ unit_ = Some "1/cm**3"))).

(** The value looked up for the field [key]: the interpolated [r], raised
    to a power of ten for every field but mu. *)
Definition table_value (key : string) (r : arr) : arr :=
  if decide (key ≠ "mu") then pow10 r else r.

(** The fields of [create_cooling_fields] that are not looked up in a
    table. *)
Definition cooling_derived_names : list string :=
  [ "number_density"; "cooling_total"; "heating_total"; "cooling_net" ].

(** The gas fields [setup_fluid_fields] can register after
    [create_cooling_fields] has returned. *)
Definition later_gas_names : list string :=
  [ "temperature"; "temp_IR"; "H_p1_density"; "H_p1_mass"; "He_p1_density";
    "He_p1_mass"; "He_p2_density"; "He_p2_mass"; "magnetic_field_x";
    "magnetic_field_y"; "magnetic_field_z"; "magnetic_field_divergence";
    "potential_energy" ].

(** ** Notions for the registration methods *)

Section Notions.
Context `{Externals}.

(** [m] does not change the entry of [k], whatever it returns. *)
Definition preserves {A} (k : string * string) (m : Setup A) : Prop :=
  ∀ fi, fields (m fi).2 !! k = fields fi !! k.

(** What [m] returns or raises is the same from every container. *)
Definition oblivious {A} (m : Setup A) : Prop :=
  ∀ fi fi', (m fi).1 = (m fi').1.

(** Every entry of the container after [m] was there before or
    satisfies [Q]. *)
Definition adds_only {A} (Q : string * string → DerivedField → Prop)
    (m : Setup A) : Prop :=
  ∀ fi k fd,
    fields (m fi).2 !! k = Some fd → fields fi !! k = Some fd ∨ Q k fd.

(** The gas fields that [create_rt_fields] registers. *)
Definition rt_gas_names : list string :=
  [ "temp_IR"; "H_p1_density"; "H_p1_mass"; "He_p1_density"; "He_p1_mass";
    "He_p2_density"; "He_p2_mass" ].

(** What [create_cooling_fields] registers: four fields derived from
    others, and table fields, each with a [_func] closure. *)
Definition cooling_addition (k : string * string) (fd : DerivedField)
    : Prop :=
  (k.1 = "gas" ∧ k.2 ∈ cooling_derived_names) ∨
  ∃ key interp unit_,
    k = ("gas", key) ∧ cooling_table_field key unit_ ∧
    function fd = _func k interp unit_.

End Notions.

(** The table of the scenario: lognH = [0, 1], logT = [4, 5],
    mu = [[1.0, 1.0], [1.2, 1.2]], truncation enabled. *)
Definition scenario_interp : Interp.BilinearFieldInterpolator :=
  Interp.make [[1.0; 1.0]; [1.2; 1.2]]%R ([0; 1]%R, [4; 5]%R)
    ("lognH", "logT") true.

(** ** Sums over axes *)

(** The sum of [f ax] over the axes of [axes]. *)
Definition sum_over (axes : list axis) (f : axis → R) : R :=
  foldr (λ ax s, f ax + s)%R 0%R axes.

(** The context [data] gives the left and right face arrays [l] and [r]
    of axis [ax], of [n] cells each. *)
Definition faces (data : Data) (n : nat) (ax : axis) (l r : arr) : Prop :=
  data_fields data
    !! ("gas", "magnetic_field_" +:+ axis_name ax +:+ "_left") = Some l ∧
  data_fields data
    !! ("gas", "magnetic_field_" +:+ axis_name ax +:+ "_right") = Some r ∧
  length l = n ∧ length r = n.

(** ** Example inputs *)

(** Constants in cgs magnitudes and trivial collaborators, for the
    concrete evaluations below. *)
Definition example_externals : Externals := {|
  mass_hydrogen_cgs := 1.6735575e-24;
  boltzmann_constant_cgs := 1.380649e-16;
  mh := 1.6735575e-24;
  mp := 1.67262192369e-24;
  speed_of_light := 29979245800;
  Gyr := 3.15576e16;
  km_s_Mpc := 3.24077929e-20;
  convert_ramses_conformal_time_to_physical_time := λ _ a, a;
  t_frw := λ _ _, 0%R;
  super_setup_particle_fields := λ _, mret tt;
|}.

Definition example_ds : Dataset := {|
  basename := "info_00080.txt";
  directory := "/data/output_00080";
  cosmological_simulation := false;
  use_conformal_time := false;
  self_shielding := false;
  current_time := 10;
  hubble_constant := 0.7;
  max_level := 3;
  axis_order := [ax_x; ax_y; ax_z];
  parameters := ∅;
|}.

(** An output directory without cooling table and without RT files. *)
Definition example_env : Env := {|
  ds := example_ds;
  files := ∅;
  rt_any_exist := false;
  rt_parameters := ∅;
|}.

(** A cooling table in the current format: n1 = n2 = 2, lognH = [0, 1],
    logT = [4, 5]; the ten cooling and heating tables hold log10 values;
    the mu table is [[1.0, 1.0], [1.2, 1.2]], stored column-major; the
    last record stacks the six species tables. *)
Definition example_cooling_file : list frecord :=
  [ IntVec [2; 2]%Z; DoubleVec [0; 1]%R; DoubleVec [4; 5]%R ]
  ++ replicate 10 (DoubleVec [-23; -22; -23; -22]%R)
  ++ [ DoubleVec [1.0; 1.2; 1.0; 1.2]%R;
       DoubleVec (replicate 24 (-3)%R) ].

(** The same output directory with the cooling table in place. *)
Definition example_cooling_env : Env := {|
  ds := example_ds;
  files := {[ "/data/output_00080/cooling_00080.out" := example_cooling_file ]};
  rt_any_exist := false;
  rt_parameters := ∅;
|}.

(** A cooling table in the pre-2010 format: the value arrays hold n1
    entries. *)
Definition example_legacy_file : list frecord :=
  [ IntVec [2; 2]%Z; DoubleVec [0; 1]%R; DoubleVec [4; 5]%R;
    DoubleVec [-23; -22]%R; DoubleVec [-24; -23]%R ].

Definition example_legacy_env : Env := {|
  ds := example_ds;
  files := {[ "/data/output_00080/cooling_00080.out" := example_legacy_file ]};
  rt_any_exist := false;
  rt_parameters := ∅;
|}.

Definition legacy_warning : string :=
  "This cooling file format is no longer supported. "
  +:+ "Cooling field loading skipped.".

(** A container in which the on-disk face field B_x_left already has
    its gas alias, as after the setup of the known fields. *)
Definition example_mhd_container : FieldInfo := {|
  fields := {[ ("gas", "magnetic_field_x_left") :=
                 {| function := λ data, getitem data ("ramses", "B_x_left");
                    sampling_type := cell;
                    field_units := Some (UStr b_units) |} ]};
  field_list := [ ("ramses", "B_x_left") ];
  species_names := [];
  mylog := [];
  fluid_types := [];
|}.

(** One cell with faces 1 and 3 along x and a vanishing jump along y
    and z; cell size 0.5. *)
Definition example_mhd_data : Data := {|
  data_ds := example_ds;
  is_FieldDetector := false;
  data_fields :=
    {[ ("gas", "magnetic_field_x_left") := [1%R];
       ("gas", "magnetic_field_x_right") := [3%R];
       ("gas", "magnetic_field_y_left") := [5%R];
       ("gas", "magnetic_field_y_right") := [5%R];
       ("gas", "magnetic_field_z_left") := [0%R];
       ("gas", "magnetic_field_z_right") := [0%R];
       ("gas", "dx") := [0.5%R] ]};
|}.

(** One cell of primordial gas (metallicity 0) at T/mu = 10^4 K with the
    hydrogen number density [nH] per cm^3. *)
Definition example_gas_data (nH : R) : Data := {|
  data_ds := example_ds;
  is_FieldDetector := false;
  data_fields :=
    {[ ("gas", "temperature_over_mu") := [10000%R];
       ("gas", "metallicity") := [0%R];
       ("gas", "density") := [(nH * 1.6735575e-24 / 0.76)%R] ]};
|}.

Definition empty_container : FieldInfo := {|
  fields := ∅;
  field_list := [];
  species_names := [];
  mylog := [];
  fluid_types := [];
|}.

(** One cell with T/mu = 5000 K, seen by a real data object and by the
    [FieldDetector]. *)
Definition example_data (detector : bool) : Data := {|
  data_ds := example_ds;
  is_FieldDetector := detector;
  data_fields := {[ ("gas", "temperature_over_mu") := [5000%R] ]};
|}.

(** ** Notions for the further properties *)

(** [m] leaves the observation [g] of the container as it was, whatever
    it returns. *)
Definition stable {A B} (g : FieldInfo → B) (m : Setup A) : Prop :=
  ∀ fi, g (m fi).2 = g fi.

(** [m] never returns [False]: it returns [True] or raises. *)
Definition never_false (m : Setup bool) : Prop :=
  ∀ fi, (m fi).1 ≠ Ok false.

(** The names of the magnetic fields [create_magnetic_fields] can
    register. *)
Definition magnetic_names : list string :=
  [ "magnetic_field_x"; "magnetic_field_y"; "magnetic_field_z";
    "magnetic_field_divergence" ].

(** From a container that satisfies [P], [m] ends with a result and a
    container that satisfy [Q]. *)
Definition hoare {A} (P : FieldInfo → Prop) (m : Setup A)
    (Q : result A → FieldInfo → Prop) : Prop :=
  ∀ fi, P fi → Q (m fi).1 (m fi).2.

(** [m] keeps the invariant [I] of the container, whatever it returns. *)
Definition keeps {A} (I : FieldInfo → Prop) (m : Setup A) : Prop :=
  hoare I m (λ _, I).

(** The container [fi] has the entries of [fi0] under the keys [K]. *)
Definition agree (K : list (string * string)) (fi0 fi : FieldInfo) : Prop :=
  ∀ k, k ∈ K → fields fi !! k = fields fi0 !! k.

(** [m] completes from every container. *)
Definition total (m : Setup unit) : Prop :=
  ∀ fi, (m fi).1 = Ok tt.

(** [m] leaves [fd] under [k], whatever it returns. *)
Definition sets {A} (k : string * string) (fd : DerivedField)
    (m : Setup A) : Prop :=
  ∀ fi, fields (m fi).2 !! k = Some fd.

(** Every character of [s] satisfies [P]. *)
Fixpoint all_chars (P : ascii → Prop) (s : string) : Prop :=
  match s with
  | EmptyString => True
  | String c s' => P c ∧ all_chars P s'
  end.

(** The value of a string of decimal digits, continuing from [acc]. *)
Fixpoint dval (acc : Z) (s : string) : option Z :=
  match s with
  | EmptyString => Some acc
  | String c s' =>
      match digit_of c with
      | Some d => dval (10 * acc + d) s'
      | None => None
      end
  end.

(** ** Example inputs for the further properties *)

(** An RT run: three photon groups, a constant reduced speed of light,
    cgs unit factors. *)
Definition example_rt_env : Env := {|
  ds := example_ds;
  files := ∅;
  rt_any_exist := true;
  rt_parameters :=
    {[ "nGroups" := PInt 3;
       "rt_c_frac" := PList [0.01%R];
       "unit_l" := PFloat 2;
       "unit_t" := PFloat 4;
       "unit_np" := PFloat 1;
       "unit_pf" := PFloat 8 ]};
|}.

(** The same RT run with no [unit_pf] in the parameter block. *)
Definition example_rt_env_no_pf : Env := {|
  ds := example_ds;
  files := ∅;
  rt_any_exist := true;
  rt_parameters :=
    {[ "nGroups" := PInt 3;
       "rt_c_frac" := PList [0.01%R];
       "unit_l" := PFloat 2;
       "unit_t" := PFloat 4;
       "unit_np" := PFloat 1 ]};
|}.

(** A container in which the on-disk potential is known. *)
Definition example_gravity_container : FieldInfo := {|
  fields := {[ ("gravity", "Potential") :=
                 {| function := λ data, getitem data ("gravity", "Potential");
                    sampling_type := cell;
                    field_units := None |} ]};
  field_list := [ ("gravity", "Potential") ];
  species_names := [];
  mylog := [];
  fluid_types := [];
|}.

(** The container of a run whose hydro files hold two ionization
    fractions besides the density. *)
Definition example_species_container : FieldInfo := {|
  fields := ∅;
  field_list := [ ("ramses", "Density"); ("ramses", "HII");
                  ("ramses", "HeII") ];
  species_names := [];
  mylog := [];
  fluid_types := [];
|}.

(** An output whose info file carries no number. *)
Definition example_unnumbered_env : Env := {|
  ds := {| basename := "info.txt"; directory := "/data";
           cosmological_simulation := false; use_conformal_time := false;
           self_shielding := false; current_time := 0;
           hubble_constant := 0; max_level := 0; axis_order := [];
           parameters := ∅ |};
  files := ∅;
  rt_any_exist := false;
  rt_parameters := ∅;
|}.

(** One cell of a uniform field: equal faces along every axis; cell
    size 0.5. *)
Definition example_uniform_data : Data := {|
  data_ds := example_ds;
  is_FieldDetector := false;
  data_fields :=
    {[ ("gas", "magnetic_field_x_left") := [2%R];
       ("gas", "magnetic_field_x_right") := [2%R];
       ("gas", "magnetic_field_y_left") := [5%R];
       ("gas", "magnetic_field_y_right") := [5%R];
       ("gas", "magnetic_field_z_left") := [0%R];
       ("gas", "magnetic_field_z_right") := [0%R];
       ("gas", "dx") := [0.5%R] ]};
|}.

(** One cell of primordial gas of density 1 at T/mu = 10^4 K, in a
    dataset with self-shielding. *)
Definition example_shielded_data : Data := {|
  data_ds :=
    {| basename := "info_00080.txt"; directory := "/data/output_00080";
       cosmological_simulation := false; use_conformal_time := false;
       self_shielding := true; current_time := 10;
       hubble_constant := 0.7; max_level := 3;
       axis_order := [ax_x; ax_y; ax_z]; parameters := ∅ |};
  is_FieldDetector := false;
  data_fields :=
    {[ ("gas", "temperature_over_mu") := [10000%R];
       ("gas", "metallicity") := [0%R];
       ("gas", "density") := [1%R] ]};
|}.

(** One star particle with birth time -1 in the units of the
    physical-cosmology formula. *)
Definition example_star_data : Data := {|
  data_ds := example_ds;
  is_FieldDetector := false;
  data_fields := {[ ("io", "conformal_birth_time") := [(-1)%R] ]};
|}.

(** * Properties *)

(** ** Registration: which entries a method leaves alone *)

Section Preservation.
Context `{Externals}.

Lemma preserves_ret {A} k (a : A) : preserves k (mret a : Setup A).
Proof. intros fi. reflexivity. Qed.

Lemma preserves_bind {A B} k (m : Setup A) (f : A → Setup B) :
  preserves k m → (∀ a, preserves k (f a)) → preserves k (m ≫= f).
Proof.
  intros Hm Hf fi. unfold mbind, Setup_bind.
  specialize (Hm fi). destruct (m fi) as [[a|e] fi']; simpl in *.
  - rewrite Hf. exact Hm.
  - exact Hm.
Qed.

Lemma preserves_lift_setup {A} k (r : result A) : preserves k (lift_setup r).
Proof. intros fi. reflexivity. Qed.

Lemma preserves_add_field k name f st u :
  name ≠ k → preserves k (add_field name f st u).
Proof. intros Hne fi. simpl. apply lookup_insert_ne, Hne. Qed.

Lemma preserves_mylog_warning k msg : preserves k (mylog_warning msg).
Proof. intros fi. reflexivity. Qed.

Lemma preserves_set_species_names k l : preserves k (set_species_names l).
Proof. intros fi. reflexivity. Qed.

Lemma preserves_add_fluid_type k t : preserves k (add_fluid_type t).
Proof. intros fi. reflexivity. Qed.

Lemma preserves_get_field_list k : preserves k get_field_list.
Proof. intros fi. reflexivity. Qed.

Lemma preserves_contains k name : preserves k (contains name).
Proof. intros fi. reflexivity. Qed.

Lemma preserves_for_each {A} k (l : list A) (body : A → Setup unit) :
  (∀ x, x ∈ l → preserves k (body x)) → preserves k (for_each l body).
Proof.
  induction l as [|x l IH]; intros Hb; simpl.
  - apply preserves_ret.
  - apply preserves_bind.
    + apply Hb. left.
    + intros _. apply IH. intros y Hy. apply Hb. right. exact Hy.
Qed.

Lemma preserves_if {A} k (b : bool) (m1 m2 : Setup A) :
  preserves k m1 → preserves k m2 → preserves k (if b then m1 else m2).
Proof. destruct b; auto. Qed.

End Preservation.

Create HintDb preserves.

#[local] Hint Resolve preserves_ret preserves_lift_setup
  preserves_mylog_warning preserves_set_species_names
  preserves_add_fluid_type preserves_get_field_list preserves_contains
  : preserves.

(** Splits a goal [preserves k m] along the binds of [m]. *)
Ltac preserves_step :=
  first
    [ apply preserves_for_each; intros ? ?
    | apply preserves_bind; [ | intros ? ]
    | apply preserves_if
    | apply preserves_add_field
    | solve [ auto with preserves ] ].

Section PreservationOfFamilies.
Context `{Externals}.

Lemma preserves_create_gravity_fields k :
  k ≠ ("gas", "potential_energy") → preserves k create_gravity_fields.
Proof. intros Hk. apply preserves_add_field. congruence. Qed.

Lemma preserves_create_magnetic_fields k self :
  (∀ ax, k ≠ ("gas", "magnetic_field_" +:+ axis_name ax)) →
  k ≠ ("gas", "magnetic_field_divergence") →
  preserves k (create_magnetic_fields self).
Proof.
  intros Hax Hdiv. unfold create_magnetic_fields.
  apply preserves_bind.
  - apply preserves_for_each. intros ax _.
    apply preserves_add_field. intros E. exact (Hax ax (eq_sym E)).
  - intros _. apply preserves_add_field. congruence.
Qed.

Lemma preserves_create_rt_fields name self :
  name ∉ rt_gas_names → preserves ("gas", name) (create_rt_fields self).
Proof.
  intros Hn. unfold create_rt_fields.
  repeat preserves_step.
  all: try discriminate.
  all: intros E; apply (f_equal snd) in E; simpl in E; apply Hn;
    rewrite <- E; clear E.
  all: repeat match goal with
         | Hx : _ ∈ _ :: _ |- _ => apply elem_of_cons in Hx as [-> | Hx]
         | Hx : _ ∈ [] |- _ => apply elem_of_nil in Hx; contradiction
         end.
  all: apply list_elem_of_In; simpl; tauto.
Qed.

End PreservationOfFamilies.

(** As [preserves_step], with the optional families kept whole. *)
Ltac family_step :=
  first
    [ apply preserves_create_rt_fields
    | apply preserves_create_magnetic_fields
    | apply preserves_create_gravity_fields
    | apply preserves_add_field
    | apply preserves_if
    | apply preserves_bind; [ | intros ? ]
    | solve [ auto with preserves ] ].

(** ** Registration: results that do not depend on the container *)

Section Oblivious.
Context `{Externals}.

Lemma bind_run {A B} (m : Setup A) (f : A → Setup B) fi :
  (m ≫= f) fi =
  match m fi with
  | (Ok a, fi') => f a fi'
  | (Raise e, fi') => (Raise e, fi')
  end.
Proof. reflexivity. Qed.

Lemma add_field_run name f st u fi :
  add_field name f st u fi =
  (Ok tt,
   with_entry name
     {| function := f; sampling_type := st; field_units := u |} fi).
Proof. reflexivity. Qed.

Lemma oblivious_ret {A} (a : A) : oblivious (mret a : Setup A).
Proof. intros fi fi'. reflexivity. Qed.

Lemma oblivious_lift_setup {A} (r : result A) : oblivious (lift_setup r).
Proof. intros fi fi'. reflexivity. Qed.

Lemma oblivious_add_field name f st u : oblivious (add_field name f st u).
Proof. intros fi fi'. reflexivity. Qed.

Lemma oblivious_mylog_warning msg : oblivious (mylog_warning msg).
Proof. intros fi fi'. reflexivity. Qed.

Lemma oblivious_bind {A B} (m : Setup A) (f : A → Setup B) :
  oblivious m → (∀ a, oblivious (f a)) → oblivious (m ≫= f).
Proof.
  intros Hm Hf fi fi'. rewrite !bind_run.
  specialize (Hm fi fi').
  destruct (m fi) as [[a|e] s], (m fi') as [[a'|e'] s']; simpl in Hm;
    try discriminate; simplify_eq; [apply Hf | reflexivity].
Qed.

Lemma oblivious_for_each {A} (l : list A) (body : A → Setup unit) :
  (∀ x, oblivious (body x)) → oblivious (for_each l body).
Proof.
  intros Hb. induction l as [|x l IH]; simpl.
  - apply oblivious_ret.
  - apply oblivious_bind; [apply Hb | intros _; exact IH].
Qed.

Lemma oblivious_register_cooling_fields avals tvals :
  oblivious (register_cooling_fields avals tvals).
Proof.
  unfold register_cooling_fields, _create_field.
  repeat first
    [ apply oblivious_bind; [ | intros ? ]
    | apply oblivious_for_each; intros [? [? ?]]
    | case_decide
    | apply oblivious_ret
    | apply oblivious_lift_setup
    | apply oblivious_add_field ].
Qed.

Lemma oblivious_create_cooling_fields self :
  oblivious (create_cooling_fields self).
Proof.
  unfold create_cooling_fields.
  apply oblivious_bind; [apply oblivious_lift_setup | intros filename].
  destruct (files self !! filename) as [fd|].
  - apply oblivious_bind; [apply oblivious_lift_setup | intros [[avals tvals]|]].
    + apply oblivious_register_cooling_fields.
    + apply oblivious_bind;
        [apply oblivious_mylog_warning | intros _; apply oblivious_ret].
  - apply oblivious_bind;
      [apply oblivious_mylog_warning | intros _; apply oblivious_ret].
Qed.

(** [setup_fluid_fields] leaves under [("gas", "temperature")] the
    [_temperature] that the outcome of [create_cooling_fields] selects,
    also when a later family fails. *)
Lemma setup_fluid_fields_temperature self fi0 fi found :
  (create_cooling_fields self fi0).1 = Ok found →
  fields (setup_fluid_fields self fi).2 !! ("gas", "temperature") =
  Some {| function := _temperature found; sampling_type := cell;
          field_units := Some (USys "temperature") |}.
Proof.
  intros Hfound. unfold setup_fluid_fields.
  rewrite bind_run, add_field_run, bind_run.
  match goal with |- context [create_cooling_fields self ?s] =>
    rewrite (oblivious_create_cooling_fields self fi0 s) in Hfound;
    destruct (create_cooling_fields self s) as [r fi2] end.
  simpl in Hfound. subst r.
  rewrite bind_run, add_field_run.
  match goal with |- fields (?rest ?s).2 !! ?k = _ =>
    assert (Hp : preserves k rest); [ | rewrite Hp ] end.
  - repeat family_step;
      lazymatch goal with
      | |- _ ∉ rt_gas_names =>
          intros Hin; apply list_elem_of_In in Hin; simpl in Hin;
          intuition discriminate
      | |- ∀ ax : axis, _ => intros []; discriminate
      | |- _ => discriminate
      end.
  - simpl. apply lookup_insert_eq.
Qed.

End Oblivious.

(** ** Temperature with and without cooling tables *)

Section Temperature.
Context `{Externals}.

Lemma getitem_found data key a :
  data_fields data !! key = Some a → getitem data key = ([], Ok a).
Proof. intros E. unfold getitem. rewrite E. reflexivity. Qed.

Lemma eval_bind_ok {A B} (a : A) (f : A → Eval B) :
  (([], Ok a) : Eval A) ≫= f = f a.
Proof. unfold mbind, Eval_bind. destruct (f a). reflexivity. Qed.

Lemma lift_bind_ok {A B} (a : A) (f : A → Eval B) : lift (Ok a) ≫= f = f a.
Proof. apply eval_bind_ok. Qed.

Lemma mret_bind_ok {A B} (a : A) (f : A → Eval B) :
  (mret a : Eval A) ≫= f = f a.
Proof. apply eval_bind_ok. Qed.

Lemma getitem_no_warning data key : (getitem data key).1 = [].
Proof. unfold getitem. destruct (data_fields data !! key); reflexivity. Qed.

Lemma create_cooling_fields_missing_file self path fi :
  cooling_filename (ds self) = Ok path →
  files self !! path = None →
  create_cooling_fields self fi =
  (Ok false, with_log "This output has no cooling fields" fi).
Proof.
  intros Hname Hfile. unfold create_cooling_fields.
  rewrite bind_run. unfold lift_setup. rewrite Hname, Hfile.
  reflexivity.
Qed.

Lemma _temperature_fallback data :
  _temperature false data =
  (if is_FieldDetector data then [] else [temperature_warning],
   (getitem data ("gas", "temperature_over_mu")).2).
Proof.
  unfold _temperature, getitem.
  destruct (is_FieldDetector data),
    (data_fields data !! ("gas", "temperature_over_mu")); reflexivity.
Qed.

End Temperature.

Section TemperatureClaims.
Context `{Externals}.

(** C1.  When the cooling-table file of the dataset does not exist,
    [create_cooling_fields] returns [False] without raising (it only
    logs), and the field registered as ("gas", "temperature") evaluates to
    exactly the value of ("gas", "temperature_over_mu"); the evaluation of
    that field on a data context hands the RuntimeWarning about the
    missing cooling tables to [warnings.warn] exactly once.  (The
    [FieldDetector] of the dependency-detection pass is no data context
    in this sense; the code sets it apart, see C9.) *)
Theorem C1_missing_cooling_file self path :
  cooling_filename (ds self) = Ok path →
  files self !! path = None →
  (∀ fi, create_cooling_fields self fi =
         (Ok false, with_log "This output has no cooling fields" fi)) ∧
  (∀ fi, ∃ fd,
     fields (setup_fluid_fields self fi).2 !! ("gas", "temperature")
       = Some fd ∧
     ∀ data,
       (function fd data).2 =
         (getitem data ("gas", "temperature_over_mu")).2 ∧
       (is_FieldDetector data = false →
        (function fd data).1 = [temperature_warning])).
Proof.
  intros Hname Hfile. split.
  - intros fi. apply (create_cooling_fields_missing_file self path);
      assumption.
  - intros fi. eexists. split.
    + apply (setup_fluid_fields_temperature self fi fi false).
      rewrite (create_cooling_fields_missing_file self path); [reflexivity|done..].
    + intros data. cbn [function]. rewrite _temperature_fallback. simpl.
      split; [reflexivity|]. intros ->. reflexivity.
Qed.

(** C9.  The [_temperature] registered when [create_cooling_fields]
    returned [False] issues no warning on a [FieldDetector], and still
    returns ("gas", "temperature_over_mu"). *)
Theorem C9_no_warning_on_FieldDetector self fi0 fi data :
  (create_cooling_fields self fi0).1 = Ok false →
  is_FieldDetector data = true →
  ∃ fd,
    fields (setup_fluid_fields self fi).2 !! ("gas", "temperature")
      = Some fd ∧
    function fd = _temperature false ∧
    (function fd data).1 = [] ∧
    function fd data = getitem data ("gas", "temperature_over_mu").
Proof.
  intros Hfalse Hdet. eexists. split.
  { apply (setup_fluid_fields_temperature self fi0 fi false Hfalse). }
  split; [reflexivity|].
  cbn [function]. rewrite _temperature_fallback, Hdet.
  split; [reflexivity|].
  { pose proof (getitem_no_warning data ("gas", "temperature_over_mu")) as Hw.
    destruct (getitem data ("gas", "temperature_over_mu")) as [w r].
    simpl in *. subst w. reflexivity. }
Qed.

(** C2.  When [create_cooling_fields] returns [True], the field
    registered as ("gas", "temperature") evaluates, on every data
    context, to the product of ("gas", "temperature_over_mu") and
    ("gas", "mu"): cell by cell where the context gives both arrays with
    one shape. *)
Theorem C2_temperature_is_T_over_mu_times_mu self fi0 fi :
  (create_cooling_fields self fi0).1 = Ok true →
  ∃ fd,
    fields (setup_fluid_fields self fi).2 !! ("gas", "temperature")
      = Some fd ∧
    (∀ data,
       function fd data =
         (t ← getitem data ("gas", "temperature_over_mu");
          mu ← getitem data ("gas", "mu");
          lift (mul t mu))) ∧
    (∀ data t mu,
       data_fields data !! ("gas", "temperature_over_mu") = Some t →
       data_fields data !! ("gas", "mu") = Some mu →
       length t = length mu →
       function fd data = ([], Ok (zip_with Rmult t mu))).
Proof.
  intros Htrue. eexists. split.
  { apply (setup_fluid_fields_temperature self fi0 fi true Htrue). }
  split; [reflexivity|].
  intros data t mu Ht Hmu Hlen. cbn [function]. unfold _temperature.
  rewrite (getitem_found _ _ _ Ht), (getitem_found _ _ _ Hmu).
  unfold mul, broadcast. simpl. rewrite decide_True by exact Hlen.
  reflexivity.
Qed.

End TemperatureClaims.

Lemma C1_witness :
  cooling_filename (ds example_env)
    = Ok "/data/output_00080/cooling_00080.out" ∧
  files example_env !! "/data/output_00080/cooling_00080.out" = None ∧
  ∃ fd,
    fields (setup_fluid_fields (H := example_externals) example_env
              empty_container).2 !! ("gas", "temperature") = Some fd ∧
    (function fd (example_data false)).2 = Ok [5000%R] ∧
    (function fd (example_data false)).1 = [temperature_warning].
Proof.
  split; [reflexivity|]. split; [reflexivity|].
  destruct (C1_missing_cooling_file (H := example_externals) example_env
              "/data/output_00080/cooling_00080.out" eq_refl eq_refl)
    as [_ Hreg].
  destruct (Hreg empty_container) as (fd & Hfd & Hval).
  exists fd. split; [exact Hfd|].
  destruct (Hval (example_data false)) as [Hv Hw].
  split; [rewrite Hv; reflexivity | apply Hw; reflexivity].
Defined.

Lemma C9_witness :
  (create_cooling_fields (H := example_externals) example_env
     empty_container).1 = Ok false ∧
  is_FieldDetector (example_data true) = true ∧
  ∃ fd,
    fields (setup_fluid_fields (H := example_externals) example_env
              empty_container).2 !! ("gas", "temperature") = Some fd ∧
    function fd (example_data true) = ([], Ok [5000%R]).
Proof.
  split; [reflexivity|]. split; [reflexivity|].
  destruct (C9_no_warning_on_FieldDetector (H := example_externals)
              example_env empty_container empty_container
              (example_data true) eq_refl eq_refl)
    as (fd & Hfd & _ & _ & Hval).
  exists fd. split; [exact Hfd|]. rewrite Hval. reflexivity.
Defined.

Lemma example_cooling_file_is_read :
  (create_cooling_fields (H := example_externals) example_cooling_env
     empty_container).1 = Ok true.
Proof. vm_compute. reflexivity. Qed.

Lemma C2_witness :
  (create_cooling_fields (H := example_externals) example_cooling_env
     empty_container).1 = Ok true ∧
  ∃ fd,
    fields (setup_fluid_fields (H := example_externals) example_cooling_env
              empty_container).2 !! ("gas", "temperature") = Some fd ∧
    function fd
      {| data_ds := example_ds; is_FieldDetector := false;
         data_fields := {[ ("gas", "temperature_over_mu") := [5000%R];
                           ("gas", "mu") := [1.2%R] ]} |}
    = ([], Ok [(5000 * 1.2)%R]).
Proof.
  split; [exact example_cooling_file_is_read|].
  destruct (C2_temperature_is_T_over_mu_times_mu (H := example_externals)
              example_cooling_env empty_container empty_container
              example_cooling_file_is_read)
    as (fd & Hfd & _ & Hval).
  exists fd. split; [exact Hfd|].
  apply (Hval _ [5000%R] [1.2%R]); reflexivity.
Defined.

(** ** Stellar ages *)

Section StarAge.
Context `{Externals}.

Lemma star_age_formula ptype data birth :
  data_fields data !! (ptype, "particle_birth_time") = Some birth →
  star_age ptype data =
  ([], Ok (map (λ b, current_time (data_ds data) - b)%R birth)).
Proof.
  intros E. unfold star_age. rewrite (getitem_found _ _ _ E). reflexivity.
Qed.

Lemma star_age_from_conformal_cosmo_formula ptype data conformal :
  data_fields data !! (ptype, "conformal_birth_time") = Some conformal →
  star_age_from_conformal_cosmo ptype data =
  ([], Ok (map (λ b, current_time (data_ds data) - b)%R
             (convert_ramses_conformal_time_to_physical_time (data_ds data)
                conformal))).
Proof.
  intros E. unfold star_age_from_conformal_cosmo.
  rewrite (getitem_found _ _ _ E). reflexivity.
Qed.

Lemma star_age_from_physical_cosmo_formula ptype data times :
  data_fields data !! (ptype, "conformal_birth_time") = Some times →
  let H0 := (hubble_constant (data_ds data) * 100 * (km_s_Mpc * Gyr))%R in
  star_age_from_physical_cosmo ptype data =
  ([], Ok (map (λ t, (current_time (data_ds data) / Gyr
                      - (t_frw (data_ds data) 0 * H0 + t) / H0) * Gyr)%R
             times)).
Proof.
  intros E H0. unfold star_age_from_physical_cosmo.
  rewrite (getitem_found _ _ _ E). cbn.
  unfold scale, rsub, div_scalar, radd. rewrite !map_map. reflexivity.
Qed.

(** C3.  [setup_particle_fields] registers under (ptype, "star_age"), as
    a particle field in the unit system's time unit, exactly one of three
    functions chosen by the two dataset flags: the conformal-cosmological
    one (birth time converted from conformal to physical time, subtracted
    from the current time) when [cosmological_simulation] and
    [use_conformal_time] both hold, the physical-cosmological one (closed
    form from the Hubble constant and [t_frw]) when only
    [cosmological_simulation] holds, the non-cosmological one otherwise;
    the last is current_time - particle_birth_time, so current_time = 10
    and particle_birth_time = 3 give 7. *)
Theorem C3_star_age_selection self ptype fi :
  (super_setup_particle_fields ptype fi).1 = Ok tt →
  ∃ f,
    fields (setup_particle_fields self ptype fi).2 !! (ptype, "star_age")
      = Some {| function := f; sampling_type := particle;
                field_units := Some (USys "time") |} ∧
    (cosmological_simulation (ds self) = true →
     use_conformal_time (ds self) = true →
     f = star_age_from_conformal_cosmo ptype ∧
     ∀ data conformal,
       data_fields data !! (ptype, "conformal_birth_time") = Some conformal →
       f data =
       ([], Ok (map (λ b, current_time (data_ds data) - b)%R
                  (convert_ramses_conformal_time_to_physical_time
                     (data_ds data) conformal)))) ∧
    (cosmological_simulation (ds self) = true →
     use_conformal_time (ds self) = false →
     f = star_age_from_physical_cosmo ptype ∧
     ∀ data times,
       data_fields data !! (ptype, "conformal_birth_time") = Some times →
       let H0 :=
         (hubble_constant (data_ds data) * 100 * (km_s_Mpc * Gyr))%R in
       f data =
       ([], Ok (map (λ t, (current_time (data_ds data) / Gyr
                           - (t_frw (data_ds data) 0 * H0 + t) / H0)
                          * Gyr)%R times))) ∧
    (cosmological_simulation (ds self) = false →
     f = star_age ptype ∧
     (∀ data birth,
        data_fields data !! (ptype, "particle_birth_time") = Some birth →
        f data =
        ([], Ok (map (λ b, current_time (data_ds data) - b)%R birth))) ∧
     (∀ data,
        current_time (data_ds data) = 10%R →
        data_fields data !! (ptype, "particle_birth_time") = Some [3%R] →
        f data = ([], Ok [7%R]))).
Proof.
  intros Hsuper. unfold setup_particle_fields.
  eexists. split.
  { rewrite bind_run.
    destruct (super_setup_particle_fields ptype fi) as [r fi1].
    simpl in Hsuper. subst r. rewrite add_field_run.
    apply lookup_insert_eq. }
  split; [|split].
  - intros -> ->. split; [reflexivity|].
    intros data conformal E.
    apply star_age_from_conformal_cosmo_formula, E.
  - intros -> ->. split; [reflexivity|].
    intros data times E.
    apply star_age_from_physical_cosmo_formula, E.
  - intros ->. split; [reflexivity|]. split.
    + intros data birth E. apply star_age_formula, E.
    + intros data Hnow E. cbn [andb].
      rewrite (star_age_formula _ _ _ E), Hnow. simpl.
      do 3 f_equal. lra.
Qed.

End StarAge.

Lemma C3_witness :
  (super_setup_particle_fields (Externals := example_externals) "io"
     empty_container).1 = Ok tt ∧
  ∃ fd,
    fields (setup_particle_fields (H := example_externals) example_env "io"
              empty_container).2 !! ("io", "star_age") = Some fd ∧
    field_units fd = Some (USys "time") ∧
    function fd
      {| data_ds := example_ds; is_FieldDetector := false;
         data_fields := {[ ("io", "particle_birth_time") := [3%R] ]} |}
    = ([], Ok [7%R]).
Proof.
  split; [reflexivity|].
  destruct (C3_star_age_selection (H := example_externals) example_env "io"
              empty_container eq_refl)
    as (f & Hf & _ & _ & Hplain).
  eexists. split; [exact Hf|]. split; [reflexivity|].
  destruct (Hplain eq_refl) as (_ & _ & Hscenario).
  apply Hscenario; reflexivity.
Defined.

(** ** Radiative transfer: the padded rt_c_frac *)

(** What the padding of [create_rt_fields] computes: [max_level] more
    entries (none if [max_level] is negative), whatever the length of the
    input; the pad value is the sole element of a one-element array and 1
    otherwise. *)
Lemma rt_c_frac_pads p max_level l :
  p !! "rt_c_frac" = Some (PList l) →
  rt_c_frac p max_level =
  Ok (l ++ replicate (Z.to_nat (Z.max 0 max_level))
             (match l with [x] => x | _ => 1%R end)).
Proof.
  intros E. unfold rt_c_frac, param. rewrite E.
  change (Z.of_nat (length ["rt_c_frac"])) with 1%Z.
  replace (max_level - 1 + 1)%Z with max_level by lia.
  destruct l as [|x [|y l]]; reflexivity.
Qed.

(** On a non-empty array the padded length reaches [max_level + 1]. *)
Lemma rt_c_frac_long_enough p max_level l padded :
  p !! "rt_c_frac" = Some (PList l) →
  l ≠ [] →
  rt_c_frac p max_level = Ok padded →
  (max_level + 1 ≤ Z.of_nat (length padded))%Z.
Proof.
  intros E Hne. rewrite (rt_c_frac_pads _ _ _ E). intros [= <-].
  rewrite length_app, length_replicate.
  destruct l; [done|]. simpl length. lia.
Qed.

(** C8 (the code at the failing input).  With an empty [rt_c_frac] and
    [max_level = 3] the padded array is [1, 1, 1]: three entries, short
    of the four levels 0..3, because the pad width is computed from
    [len(["rt_c_frac"])], the length of a one-element list literal, and
    not from the length of the array. *)
Theorem C8_rt_c_frac_short_when_empty :
  rt_c_frac {[ "rt_c_frac" := PList [] ]} 3 = Ok [1%R; 1%R; 1%R] ∧
  ¬ (3 + 1 ≤ Z.of_nat (length [1%R; 1%R; 1%R]))%Z.
Proof. split; [reflexivity | simpl; lia]. Qed.

(** ** The pre-2010 cooling-table format *)

Section LegacyFormat.
Context `{Externals}.

(** From the second value array on, the loop never takes the early
    [return False]. *)
Lemma load_arrs_later_not_legacy names :
  ∀ n1 n2 i fd tvals,
    i ≠ 0 → load_arrs n1 n2 i names fd tvals ≠ Ok None.
Proof.
  induction names as [|[tname u] names IH]; intros n1 n2 i fd tvals Hi;
    simpl; [discriminate|].
  destruct (read_vector_d fd) as [[var fd']|e]; simpl; [|discriminate].
  rewrite (bool_decide_eq_false_2 (i = 0) Hi), andb_false_r.
  destruct (bool_decide _).
  - destruct (resolve_shape _ _) as [shape|e]; simpl; [|discriminate].
    apply IH. lia.
  - destruct (resolve_shape _ _) as [shape|e]; simpl; [|discriminate].
    destruct (load_species _ _ _ _ _) as [tv|e]; simpl; [|discriminate].
    apply IH. lia.
Qed.

Lemma load_arrs_cons n1 n2 i tname u names fd tvals :
  load_arrs n1 n2 i ((tname, u) :: names) fd tvals =
  ('(var, fd') ← read_vector_d fd;
   let size := Z.of_nat (length var) in
   if bool_decide (size = n1) && bool_decide (i = 0) then Ok None
   else if bool_decide (size = mul32 n1 n2) then
     shape ← resolve_shape [n1; n2] size;
     load_arrs n1 n2 (S i) names fd'
       (dict_set tname (table_F (dim shape 0) (dim shape 1) 0 var, u) tvals)
   else
     shape ← resolve_shape [n1; n2; (size / mul32 n1 n2)%Z] size;
     tvals' ← load_species (dim shape 0) (dim shape 1) var
                (seq 0 (dim shape 2)) tvals;
     load_arrs n1 n2 (S i) names fd' tvals').
Proof. reflexivity. Qed.

Lemma load_arrs_first_legacy n1 n2 nm names var rest tvals :
  Z.of_nat (length var) = n1 →
  load_arrs n1 n2 0 (nm :: names) (DoubleVec var :: rest) tvals = Ok None.
Proof.
  intros Hsize. destruct nm as [tname u]. rewrite load_arrs_cons.
  cbn [read_vector_d mbind result_bind].
  rewrite (bool_decide_eq_true_2 _ Hsize). reflexivity.
Qed.

Lemma load_arrs_first_legacy_inv n1 n2 nm names fd tvals :
  load_arrs n1 n2 0 (nm :: names) fd tvals = Ok None →
  ∃ var rest, fd = DoubleVec var :: rest ∧ Z.of_nat (length var) = n1.
Proof.
  destruct nm as [tname u]. rewrite load_arrs_cons.
  destruct fd as [|[?|var] rest]; cbn [read_vector_d mbind result_bind];
    try discriminate.
  rewrite andb_true_r.
  destruct (bool_decide (Z.of_nat (length var) = n1)) eqn:Hsize.
  - intros _. apply bool_decide_eq_true_1 in Hsize. eauto.
  - intros Hload. exfalso.
    destruct (bool_decide _) in Hload.
    + destruct (resolve_shape _ _) as [shape|e] in Hload;
        cbn [mbind result_bind] in Hload; [|discriminate].
      by apply load_arrs_later_not_legacy in Hload.
    + destruct (resolve_shape _ _) as [shape|e] in Hload;
        cbn [mbind result_bind] in Hload; [|discriminate].
      destruct (load_species _ _ _ _ _) as [tv0|e] in Hload;
        cbn [mbind result_bind] in Hload; [|discriminate].
      by apply load_arrs_later_not_legacy in Hload.
Qed.

Lemma load_axes_two a b fd avals :
  load_axes [a; b] fd avals =
  match fd with
  | DoubleVec v1 :: DoubleVec v2 :: fd' =>
      Ok (dict_set b v2 (dict_set a v1 avals), fd')
  | DoubleVec _ :: IntVec _ :: _ | IntVec _ :: _ =>
      Raise (ValueError "record is not a vector of float64")
  | _ => Raise IOError
  end.
Proof. destruct fd as [|[?|?] [|[?|?] ?]]; reflexivity. Qed.

Lemma load_cooling_tables_legacy n1 n2 lognH logT var rest :
  Z.of_nat (length var) = n1 →
  load_cooling_tables
    (IntVec [n1; n2] :: DoubleVec lognH :: DoubleVec logT
       :: DoubleVec var :: rest) = Ok None.
Proof.
  intros Hsize. unfold load_cooling_tables, _cool_axes, _cool_arrs.
  cbn [read_vector_i mbind result_bind]. rewrite load_axes_two.
  cbn [mbind result_bind].
  rewrite (load_arrs_first_legacy _ _ _ _ _ _ _ Hsize). reflexivity.
Qed.

(** The reader gives up on the format only for the size of the first
    value array. *)
Lemma load_cooling_tables_legacy_inv fd :
  load_cooling_tables fd = Ok None →
  ∃ n1 n2 lognH logT var rest,
    fd = IntVec [n1; n2] :: DoubleVec lognH :: DoubleVec logT
           :: DoubleVec var :: rest ∧
    Z.of_nat (length var) = n1.
Proof.
  unfold load_cooling_tables, _cool_axes, _cool_arrs.
  destruct fd as [|[hdr|?] fd1]; cbn [read_vector_i mbind result_bind];
    try discriminate.
  destruct hdr as [|n1 [|n2 [|? ?]]]; try discriminate.
  rewrite load_axes_two.
  destruct fd1 as [|[?|lognH] [|[?|logT] fd3]]; cbn [mbind result_bind];
    try discriminate.
  destruct (load_arrs _ _ _ _ _ _) as [[tv|]|e] eqn:Hload; try discriminate.
  intros _. apply load_arrs_first_legacy_inv in Hload as (var & rest & -> & ?).
  by repeat eexists.
Qed.

Lemma create_cooling_fields_legacy self path fd fi :
  cooling_filename (ds self) = Ok path →
  files self !! path = Some fd →
  load_cooling_tables fd = Ok None →
  create_cooling_fields self fi = (Ok false, with_log legacy_warning fi).
Proof.
  intros Hname Hfile Hload. unfold create_cooling_fields.
  rewrite bind_run. unfold lift_setup at 1. rewrite Hname, Hfile.
  rewrite bind_run. unfold lift_setup. rewrite Hload. reflexivity.
Qed.

(** C5.  When the first value array of the cooling-table file holds n1
    entries, [create_cooling_fields] logs a warning and returns [False]
    without raising and without registering a field, as it does when the
    file is absent, so ("gas", "temperature") is the fallback; and the
    size test is made on the first value array only: the reader returns
    [False] for no other reason, and never from a later array. *)
Theorem C5_legacy_format_returns_False self path n1 n2 lognH logT var rest :
  cooling_filename (ds self) = Ok path →
  files self !! path =
    Some (IntVec [n1; n2] :: DoubleVec lognH :: DoubleVec logT
            :: DoubleVec var :: rest) →
  Z.of_nat (length var) = n1 →
  (∀ fi, create_cooling_fields self fi
         = (Ok false, with_log legacy_warning fi)) ∧
  (∀ fi, fields (setup_fluid_fields self fi).2 !! ("gas", "temperature")
         = Some {| function := _temperature false; sampling_type := cell;
                   field_units := Some (USys "temperature") |}) ∧
  (∀ fd, load_cooling_tables fd = Ok None →
         ∃ m1 m2 a1 a2 first rest',
           fd = IntVec [m1; m2] :: DoubleVec a1 :: DoubleVec a2
                  :: DoubleVec first :: rest' ∧
           Z.of_nat (length first) = m1) ∧
  (∀ m1 m2 i names fd tvals,
     i ≠ 0 → load_arrs m1 m2 i names fd tvals ≠ Ok None).
Proof.
  intros Hname Hfile Hsize.
  assert (Hret : ∀ fi, create_cooling_fields self fi
                       = (Ok false, with_log legacy_warning fi)).
  { intros fi. apply (create_cooling_fields_legacy self path _ fi Hname Hfile).
    apply load_cooling_tables_legacy, Hsize. }
  split; [exact Hret|]. split; [|split].
  - intros fi. apply (setup_fluid_fields_temperature self fi fi false).
    rewrite Hret. reflexivity.
  - apply load_cooling_tables_legacy_inv.
  - intros m1 m2 i names. apply load_arrs_later_not_legacy.
Qed.

End LegacyFormat.

Lemma C5_witness :
  cooling_filename (ds example_legacy_env)
    = Ok "/data/output_00080/cooling_00080.out" ∧
  files example_legacy_env !! "/data/output_00080/cooling_00080.out"
    = Some example_legacy_file ∧
  Z.of_nat (length [-23; -22]%R) = 2%Z ∧
  create_cooling_fields (H := example_externals) example_legacy_env
    empty_container
  = (Ok false, with_log legacy_warning empty_container).
Proof.
  split; [reflexivity|]. split; [reflexivity|]. split; [reflexivity|].
  apply (C5_legacy_format_returns_False (H := example_externals)
           example_legacy_env "/data/output_00080/cooling_00080.out"
           2%Z 2%Z [0; 1]%R [4; 5]%R [-23; -22]%R [DoubleVec [-24; -23]%R]
           eq_refl eq_refl eq_refl).
Defined.

(** ** The entries of the cooling tables *)

Section CoolingEntries.
Context `{Externals}.

Lemma dict_set_Forall {V} (P : string * V → Prop) k v d :
  P (k, v) → Forall P d → Forall P (dict_set k v d).
Proof.
  intros Hk Hd. induction Hd as [|[k' v'] d Hx Hd IH]; simpl.
  - by constructor.
  - case_decide; constructor; auto.
Qed.

Lemma load_species_entries d1 d2 var idx :
  ∀ tvals tvals',
    Forall table_entry tvals →
    load_species d1 d2 var idx tvals = Ok tvals' →
    Forall table_entry tvals'.
Proof.
  induction idx as [|i idx IH]; intros tvals tvals' Htv; simpl.
  - by intros [= <-].
  - unfold list_index. destruct (_cool_species !! i) as [name|] eqn:Hi;
      simpl; [|discriminate].
    apply IH. apply dict_set_Forall; [|exact Htv].
    right. split; [|reflexivity]. simpl.
    apply list_elem_of_lookup. eauto.
Qed.

Lemma load_arrs_entries names :
  ∀ n1 n2 i fd tvals tvals',
    names ⊆ _cool_arrs →
    Forall table_entry tvals →
    load_arrs n1 n2 i names fd tvals = Ok (Some tvals') →
    Forall table_entry tvals'.
Proof.
  induction names as [|[tname u] names IH];
    intros n1 n2 i fd tvals tvals' Hsub Htv.
  - simpl. by intros [= <-].
  - rewrite load_arrs_cons.
    destruct (read_vector_d fd) as [[var fd']|e];
      cbn [mbind result_bind]; [|discriminate].
    assert (Hsub' : names ⊆ _cool_arrs) by set_solver.
    destruct (_ && _); [discriminate|].
    destruct (bool_decide _).
    + destruct (resolve_shape _ _) as [shape|e];
        cbn [mbind result_bind]; [|discriminate].
      apply IH; [exact Hsub'|].
      apply dict_set_Forall; [|exact Htv]. left. simpl. set_solver.
    + destruct (resolve_shape _ _) as [shape|e];
        cbn [mbind result_bind]; [|discriminate].
      destruct (load_species _ _ _ _ _) as [tv0|e] eqn:Hsp;
        cbn [mbind result_bind]; [|discriminate].
      apply IH; [exact Hsub'|].
      eapply load_species_entries; [exact Htv | exact Hsp].
Qed.

Lemma load_cooling_tables_entries fd avals tvals :
  load_cooling_tables fd = Ok (Some (avals, tvals)) →
  Forall table_entry tvals.
Proof.
  unfold load_cooling_tables.
  destruct (read_vector_i fd) as [[hdr fd1]|e];
    cbn [mbind result_bind]; [|discriminate].
  destruct hdr as [|n1 [|n2 [|? ?]]]; try discriminate.
  destruct (load_axes _ _ _) as [[av fd2]|e];
    cbn [mbind result_bind]; [|discriminate].
  destruct (load_arrs _ _ _ _ _ _) as [[tv|]|e] eqn:Hload; try discriminate.
  intros [= <- <-].
  eapply load_arrs_entries; [|constructor|exact Hload]. done.
Qed.

Lemma table_entry_name key tbl unit_ :
  table_entry (key, (tbl, unit_)) → key ∈ table_field_names.
Proof.
  unfold table_field_names. intros [Harr|[Hsp _]]; cbn [fst snd] in *.
  - apply elem_of_app. left. apply list_elem_of_fmap.
    exists (key, unit_). split; [reflexivity|exact Harr].
  - apply elem_of_app. by right.
Qed.

Lemma preserves_register_cooling_fields name avals tvals :
  Forall table_entry tvals →
  name ∉ cooling_field_names →
  preserves ("gas", name) (register_cooling_fields avals tvals).
Proof.
  intros Htv Hname. unfold register_cooling_fields, _create_field.
  assert (Hfixed : ∀ n, n ∈ ["mu"; "number_density"; "cooling_total";
                             "heating_total"; "cooling_net"] →
                        ("gas", n) ≠ ("gas", name)).
  { intros n Hn [= ->]. apply Hname. unfold cooling_field_names.
    apply elem_of_app. by left. }
  repeat first
    [ apply preserves_bind; [ | intros ? ]
    | apply preserves_add_field; [ apply Hfixed; set_solver ]
    | solve [ auto with preserves ] ].
  apply preserves_for_each. intros [key [tbl unit_]] Hin.
  case_decide; [|apply preserves_ret].
  apply preserves_bind; [apply preserves_lift_setup | intros interp].
  apply preserves_add_field. intros [= ->]. apply Hname.
  unfold cooling_field_names. apply elem_of_app. right.
  apply (table_entry_name _ tbl unit_).
  rewrite Forall_forall in Htv. by apply Htv.
Qed.

Lemma preserves_create_cooling_fields name self :
  name ∉ cooling_field_names →
  preserves ("gas", name) (create_cooling_fields self).
Proof.
  intros Hname. unfold create_cooling_fields.
  apply preserves_bind; [apply preserves_lift_setup | intros filename].
  destruct (files self !! filename) as [fd|].
  - destruct (load_cooling_tables fd) as [[[avals tvals]|]|e] eqn:Hload;
      intros fi; rewrite bind_run; unfold lift_setup.
    + apply preserves_register_cooling_fields; [|exact Hname].
      by eapply load_cooling_tables_entries.
    + reflexivity.
    + reflexivity.
  - repeat preserves_step.
Qed.

End CoolingEntries.

(** ** Arrays of one chunk, cell by cell *)

Section Cells.

Lemma nth_map_seq (g : nat → R) n i d :
  i < n → nth i (map g (seq 0 n)) d = g i.
Proof.
  intros Hi. rewrite (nth_indep _ d (g 0)) by (rewrite length_map, length_seq; lia).
  rewrite map_nth, seq_nth by lia. reflexivity.
Qed.

Lemma nth_zip_with (f : R → R → R) a :
  ∀ b i d, i < length a → i < length b →
    nth i (zip_with f a b) d = f (nth i a d) (nth i b d).
Proof.
  induction a as [|x a IH]; intros [|y b] [|i] d Ha Hb; simpl in *;
    try lia; [reflexivity|]. apply IH; lia.
Qed.

Lemma zip_with_cells (f : R → R → R) a b n :
  length a = n → length b = n →
  zip_with f a b = map (λ i, f (nth i a 0%R) (nth i b 0%R)) (seq 0 n).
Proof.
  intros Ha Hb. apply (nth_ext _ _ 0%R 0%R).
  - rewrite length_zip_with, length_map, length_seq. lia.
  - intros i Hi. rewrite length_zip_with in Hi.
    rewrite nth_zip_with, nth_map_seq by lia. reflexivity.
Qed.

Lemma zeros_like_cells a n :
  length a = n → zeros_like a = map (λ _, 0%R) (seq 0 n).
Proof.
  intros Ha. apply (nth_ext _ _ 0%R 0%R).
  - unfold zeros_like. rewrite !length_map, length_seq. exact Ha.
  - intros i Hi. unfold zeros_like in *. rewrite length_map in Hi.
    rewrite nth_map_seq by lia.
    exact (map_nth (λ _ : R, 0%R) a 0%R i).
Qed.

Lemma map_seq_ext (g h : nat → R) n :
  (∀ i, i < n → g i = h i) → map g (seq 0 n) = map h (seq 0 n).
Proof.
  intros E. apply map_ext_in. intros i Hi. apply in_seq in Hi.
  apply E. lia.
Qed.

End Cells.

(** ** Magnetic fields *)

Section Magnetic.
Context `{Externals}.

Lemma _mag_field_cells ax data l r :
  data_fields data
    !! ("gas", "magnetic_field_" +:+ axis_name ax +:+ "_left") = Some l →
  data_fields data
    !! ("gas", "magnetic_field_" +:+ axis_name ax +:+ "_right") = Some r →
  length l = length r →
  _mag_field ax data = ([], Ok (zip_with (λ a b, (a + b) / 2)%R l r)).
Proof.
  intros Hl Hr Hlen. unfold _mag_field.
  rewrite (getitem_found _ _ _ Hl), eval_bind_ok.
  rewrite (getitem_found _ _ _ Hr), eval_bind_ok.
  unfold add, broadcast. rewrite decide_True by exact Hlen.
  rewrite lift_bind_ok. unfold mret, Eval_ret, div_scalar.
  do 2 f_equal. clear Hl Hr.
  revert r Hlen. induction l as [|a l IH]; intros [|b r] Hlen;
    simpl in *; try reflexivity; try discriminate.
  f_equal. apply IH. lia.
Qed.

Lemma _divB_loop_cells data n (Bl Br : axis → arr) axes :
  (∀ ax, ax ∈ axes → faces data n ax (Bl ax) (Br ax)) →
  ∀ g : nat → R,
    _divB_loop data axes (map g (seq 0 n)) =
    ([], Ok (map (λ i, g i + sum_over axes
                               (λ ax, nth i (Br ax) 0 - nth i (Bl ax) 0))%R
               (seq 0 n))).
Proof.
  induction axes as [|ax axes IH]; intros Hfaces g.
  - simpl. unfold mret, Eval_ret. do 2 f_equal.
    apply map_seq_ext. intros i _. lra.
  - destruct (Hfaces ax) as (Hl & Hr & Hnl & Hnr); [left|].
    cbn [_divB_loop].
    rewrite (getitem_found _ _ _ Hr), eval_bind_ok.
    rewrite (getitem_found _ _ _ Hl), eval_bind_ok.
    unfold sub, broadcast. rewrite decide_True by lia.
    rewrite lift_bind_ok. unfold iadd.
    rewrite decide_True
      by (rewrite length_zip_with, length_map, length_seq; lia).
    rewrite lift_bind_ok.
    rewrite (zip_with_cells Rplus _ _ n)
      by (rewrite ?length_zip_with, ?length_map, ?length_seq; lia).
    rewrite IH by (intros ax' Hax'; apply Hfaces; by right).
    do 2 f_equal. apply map_seq_ext. intros i Hi.
    rewrite !nth_map_seq, nth_zip_with by lia. simpl. lra.
Qed.

Lemma _divB_cells data n (Bl Br : axis → arr) xr dx :
  (∀ ax, ax ∈ axis_order (data_ds data) → faces data n ax (Bl ax) (Br ax)) →
  data_fields data !! ("gas", "magnetic_field_x_right") = Some xr →
  length xr = n →
  data_fields data !! ("gas", "dx") = Some dx →
  length dx = n →
  _divB data =
  ([], Ok (map (λ i, sum_over (axis_order (data_ds data))
                       (λ ax, nth i (Br ax) 0 - nth i (Bl ax) 0)
                     / nth i dx 0)%R
             (seq 0 n))).
Proof.
  intros Hfaces Hxr Hnx Hdx Hnd. unfold _divB.
  rewrite (getitem_found _ _ _ Hxr), eval_bind_ok.
  rewrite (zeros_like_cells _ n Hnx).
  rewrite (_divB_loop_cells data n Bl Br _ Hfaces), eval_bind_ok.
  rewrite (getitem_found _ _ _ Hdx), eval_bind_ok.
  unfold div, broadcast, lift.
  rewrite decide_True by (rewrite length_map, length_seq; lia).
  rewrite (zip_with_cells Rdiv _ _ n)
    by (rewrite ?length_map, ?length_seq; lia).
  do 2 f_equal. apply map_seq_ext. intros i Hi.
  rewrite nth_map_seq by lia. f_equal. lra.
Qed.

Lemma magnetic_key_inj a b :
  ("gas", "magnetic_field_" +:+ axis_name a)
    = ("gas", "magnetic_field_" +:+ axis_name b) → a = b.
Proof. destruct a, b; simpl; intros E; try reflexivity; discriminate. Qed.

(** After the loop of [create_magnetic_fields] over [axes]. *)
Lemma for_each_magnetic axes :
  ∀ fi ax,
    let m := for_each axes (λ ax,
               add_field ("gas", "magnetic_field_" +:+ axis_name ax)
                 (_mag_field ax) cell (Some (USys "magnetic_field_cgs"))) in
    (m fi).1 = Ok tt ∧
    fields (m fi).2 !! ("gas", "magnetic_field_" +:+ axis_name ax) =
    if decide (ax ∈ axes) then
      Some {| function := _mag_field ax; sampling_type := cell;
              field_units := Some (USys "magnetic_field_cgs") |}
    else fields fi !! ("gas", "magnetic_field_" +:+ axis_name ax).
Proof.
  induction axes as [|a axes IH]; intros fi ax; cbn zeta.
  - split; [reflexivity|]. rewrite decide_False by apply not_elem_of_nil.
    reflexivity.
  - cbn [for_each]. rewrite bind_run, add_field_run.
    destruct (IH (with_entry ("gas", "magnetic_field_" +:+ axis_name a)
                    {| function := _mag_field a; sampling_type := cell;
                       field_units := Some (USys "magnetic_field_cgs") |} fi)
                 ax) as [Hok Hlook].
    split; [exact Hok|]. cbn zeta in Hlook. rewrite Hlook.
    destruct (decide (ax ∈ axes)) as [Hin|Hnin].
    + rewrite decide_True by (by right). reflexivity.
    + destruct (decide (a = ax)) as [->|Hne].
      * rewrite decide_True by left. cbn [fields with_entry].
        apply lookup_insert_eq.
      * rewrite decide_False
          by (intros [E|E]%elem_of_cons; [by apply Hne | by apply Hnin]).
        cbn [fields with_entry]. apply lookup_insert_ne.
        intros E. apply Hne. exact (magnetic_key_inj _ _ E).
Qed.

Lemma create_magnetic_fields_registers self fi :
  (create_magnetic_fields self fi).1 = Ok tt ∧
  (∀ ax, ax ∈ axis_order (ds self) →
     fields (create_magnetic_fields self fi).2
       !! ("gas", "magnetic_field_" +:+ axis_name ax) =
     Some {| function := _mag_field ax; sampling_type := cell;
             field_units := Some (USys "magnetic_field_cgs") |}) ∧
  fields (create_magnetic_fields self fi).2
    !! ("gas", "magnetic_field_divergence") =
  Some {| function := _divB; sampling_type := cell;
          field_units :=
            Some (UDiv (USys "magnetic_field_cgs") (USys "length")) |}.
Proof.
  unfold create_magnetic_fields. rewrite bind_run.
  pose proof (for_each_magnetic (axis_order (ds self)) fi) as Hloop.
  cbn zeta in Hloop.
  destruct (for_each _ _ fi) as [r fi1] eqn:Hrun.
  assert (r = Ok tt) as -> by (destruct (Hloop ax_x) as [E _]; exact E).
  rewrite add_field_run. split; [reflexivity|]. split.
  - intros ax Hax. cbn [snd fields with_entry].
    rewrite lookup_insert_ne by (destruct ax; discriminate).
    destruct (Hloop ax) as [_ E]. cbn [snd] in E. rewrite E.
    rewrite decide_True by exact Hax. reflexivity.
  - cbn [snd fields with_entry]. apply lookup_insert_eq.
Qed.

End Magnetic.

Section MagneticPipeline.
Context `{Externals}.

Lemma not_cooling_field name :
  (∀ n, n ∈ cooling_field_names → n ≠ name) → name ∉ cooling_field_names.
Proof. intros Hne Hin. exact (Hne name Hin eq_refl). Qed.

Lemma face_field_not_cooling : "magnetic_field_x_left" ∉ cooling_field_names.
Proof.
  intros Hin. apply list_elem_of_In in Hin. vm_compute in Hin.
  intuition discriminate.
Qed.

Lemma face_field_not_rt : "magnetic_field_x_left" ∉ rt_gas_names.
Proof.
  intros Hin. apply list_elem_of_In in Hin. vm_compute in Hin.
  intuition discriminate.
Qed.

(** The steps of [setup_fluid_fields] before the test for the face
    fields leave the entry of ("gas", "magnetic_field_x_left") alone. *)
Lemma setup_fluid_fields_magnetic self fi :
  is_Some (fields fi !! ("gas", "magnetic_field_x_left")) →
  (setup_fluid_fields self fi).1 = Ok tt →
  (∀ ax, ax ∈ axis_order (ds self) →
     fields (setup_fluid_fields self fi).2
       !! ("gas", "magnetic_field_" +:+ axis_name ax) =
     Some {| function := _mag_field ax; sampling_type := cell;
             field_units := Some (USys "magnetic_field_cgs") |}) ∧
  fields (setup_fluid_fields self fi).2
    !! ("gas", "magnetic_field_divergence") =
  Some {| function := _divB; sampling_type := cell;
          field_units :=
            Some (UDiv (USys "magnetic_field_cgs") (USys "length")) |}.
Proof.
  intros Hface Hok.
  destruct (setup_fluid_fields self fi) as [r0 fi'] eqn:Hrun.
  cbn [fst snd] in *. subst r0. revert Hrun. unfold setup_fluid_fields.
  rewrite bind_run, add_field_run, bind_run.
  match goal with |- context [create_cooling_fields self ?s] =>
    pose proof (preserves_create_cooling_fields _ self
                  face_field_not_cooling s) as Hcool;
    destruct (create_cooling_fields self s) as [[found|e] fi2] end;
    [|discriminate].
  cbn [snd fields with_entry] in Hcool.
  rewrite lookup_insert_ne in Hcool by discriminate.
  rewrite bind_run, add_field_run, bind_run.
  cbn [get_field_list]. rewrite bind_run. cbn [set_species_names].
  rewrite bind_run.
  match goal with |- context [(if rt_any_exist self then _ else _) ?s] =>
    assert (Hrt : fields ((if rt_any_exist self then create_rt_fields self
                           else mret tt) s).2
                    !! ("gas", "magnetic_field_x_left")
                  = fields s !! ("gas", "magnetic_field_x_left"));
    [ apply (preserves_if _ (rt_any_exist self));
      [ apply preserves_create_rt_fields, face_field_not_rt
      | apply preserves_ret ]
    | destruct ((if rt_any_exist self then create_rt_fields self
                 else mret tt) s) as [[[]|e] fi5] ] end;
    [|discriminate].
  cbn [snd fields with_entry] in Hrt.
  rewrite lookup_insert_ne in Hrt by discriminate.
  rewrite bind_run. unfold contains at 1.
  rewrite bool_decide_eq_true_2 by (rewrite Hrt, Hcool; exact Hface).
  rewrite bind_run.
  destruct (create_magnetic_fields_registers self fi5) as (Hok & Hax & Hdiv).
  destruct (create_magnetic_fields self fi5) as [r fi6].
  cbn [fst snd] in Hok, Hax, Hdiv. subst r.
  rewrite bind_run. unfold contains at 1.
  match goal with |- context [(if ?b then create_gravity_fields else _) fi6] =>
    assert (Hgrav : ∀ k, k ≠ ("gas", "potential_energy") →
              fields ((if b then create_gravity_fields else mret tt) fi6).2
                !! k = fields fi6 !! k)
      by (intros k Hk; apply (preserves_if k b);
          [ apply preserves_create_gravity_fields, Hk
          | apply preserves_ret ]);
    destruct ((if b then create_gravity_fields else mret tt) fi6)
      as [r fi7] end.
  cbn [fst snd] in *. intros [= -> ->]. split.
  - intros ax Hin. rewrite Hgrav by (destruct ax; discriminate).
    apply Hax, Hin.
  - rewrite Hgrav by discriminate. exact Hdiv.
Qed.

End MagneticPipeline.

Section MagneticClaim.
Context `{Externals}.

(** C4.  When the face field ("gas", "magnetic_field_x_left") is in the
    container and [setup_fluid_fields] completes, then for every axis of
    the dataset the field registered as ("gas", "magnetic_field_<ax>") is,
    cell by cell, (left + right) / 2, and
    ("gas", "magnetic_field_divergence") is the sum over all axes of
    (right - left), divided by the cell size dx.  With left = 1 and
    right = 3 along x the centred value is 2 and the x term of the
    divergence is (3 - 1) / dx. *)
Theorem C4_magnetic_fields self fi :
  is_Some (fields fi !! ("gas", "magnetic_field_x_left")) →
  (setup_fluid_fields self fi).1 = Ok tt →
  ∃ centred divB,
    (∀ ax, ax ∈ axis_order (ds self) →
       fields (setup_fluid_fields self fi).2
         !! ("gas", "magnetic_field_" +:+ axis_name ax) =
       Some {| function := centred ax; sampling_type := cell;
               field_units := Some (USys "magnetic_field_cgs") |}) ∧
    fields (setup_fluid_fields self fi).2
      !! ("gas", "magnetic_field_divergence") =
    Some {| function := divB; sampling_type := cell;
            field_units :=
              Some (UDiv (USys "magnetic_field_cgs") (USys "length")) |} ∧
    (∀ ax data n l r,
       faces data n ax l r →
       centred ax data = ([], Ok (zip_with (λ a b, (a + b) / 2)%R l r))) ∧
    (∀ data n (Bl Br : axis → arr) xr dx,
       (∀ ax, ax ∈ axis_order (data_ds data) →
              faces data n ax (Bl ax) (Br ax)) →
       data_fields data !! ("gas", "magnetic_field_x_right") = Some xr →
       length xr = n →
       data_fields data !! ("gas", "dx") = Some dx →
       length dx = n →
       divB data =
       ([], Ok (map (λ i, sum_over (axis_order (data_ds data))
                            (λ ax, nth i (Br ax) 0 - nth i (Bl ax) 0)
                          / nth i dx 0)%R
                  (seq 0 n)))) ∧
    (∀ data,
       faces data 1 ax_x [1%R] [3%R] →
       centred ax_x data = ([], Ok [2%R])) ∧
    (∀ data ly ry lz rz dx,
       axis_order (data_ds data) = [ax_x; ax_y; ax_z] →
       faces data 1 ax_x [1%R] [3%R] →
       faces data 1 ax_y [ly] [ry] →
       faces data 1 ax_z [lz] [rz] →
       data_fields data !! ("gas", "dx") = Some [dx] →
       divB data =
       ([], Ok [((3 - 1) / dx + (ry - ly) / dx + (rz - lz) / dx)%R])).
Proof.
  intros Hface Hok. exists _mag_field, _divB.
  destruct (setup_fluid_fields_magnetic self fi Hface Hok) as [Hax Hdiv].
  split; [exact Hax|]. split; [exact Hdiv|].
  assert (Hcentred : ∀ ax data n l r,
            faces data n ax l r →
            _mag_field ax data
            = ([], Ok (zip_with (λ a b, (a + b) / 2)%R l r))).
  { intros ax data n l r (Hl & Hr & Hnl & Hnr).
    apply _mag_field_cells; [exact Hl | exact Hr | lia]. }
  split; [exact Hcentred|]. split; [|split].
  - intros data n Bl Br xr dx. apply _divB_cells.
  - intros data Hx. rewrite (Hcentred _ _ _ _ _ Hx). simpl.
    do 3 f_equal. lra.
  - intros data ly ry lz rz dx Horder Hx Hy Hz Hdx.
    pose (Bl := λ ax, match ax with
                      | ax_x => [1%R] | ax_y => [ly] | ax_z => [lz] end).
    pose (Br := λ ax, match ax with
                      | ax_x => [3%R] | ax_y => [ry] | ax_z => [rz] end).
    rewrite (_divB_cells data 1 Bl Br [3%R] [dx]);
      [ | intros []; intros _; assumption
        | apply Hx | reflexivity | exact Hdx | reflexivity ].
    rewrite Horder. simpl. do 3 f_equal. lra.
Qed.

End MagneticClaim.

Lemma C4_witness :
  is_Some (fields example_mhd_container !! ("gas", "magnetic_field_x_left")) ∧
  (setup_fluid_fields (H := example_externals) example_env
     example_mhd_container).1 = Ok tt ∧
  ∃ fx fdiv,
    fields (setup_fluid_fields (H := example_externals) example_env
              example_mhd_container).2 !! ("gas", "magnetic_field_x")
      = Some fx ∧
    fields (setup_fluid_fields (H := example_externals) example_env
              example_mhd_container).2 !! ("gas", "magnetic_field_divergence")
      = Some fdiv ∧
    function fx example_mhd_data = ([], Ok [2%R]) ∧
    function fdiv example_mhd_data
    = ([], Ok [((3 - 1) / 0.5 + (5 - 5) / 0.5 + (0 - 0) / 0.5)%R]).
Proof.
  assert (Hface : is_Some (fields example_mhd_container
                             !! ("gas", "magnetic_field_x_left")))
    by (eexists; reflexivity).
  assert (Hok : (setup_fluid_fields (H := example_externals) example_env
                   example_mhd_container).1 = Ok tt)
    by (vm_compute; reflexivity).
  split; [exact Hface|]. split; [exact Hok|].
  destruct (C4_magnetic_fields (H := example_externals) example_env
              example_mhd_container Hface Hok)
    as (centred & divB & Hax & Hdiv & _ & _ & Hx & Hscen).
  eexists _, _. split; [apply (Hax ax_x); left|]. split; [exact Hdiv|].
  split.
  - apply Hx. repeat split; reflexivity.
  - apply Hscen; [reflexivity|repeat split; reflexivity..|reflexivity].
Defined.

(** ** Cooling fields: the query coordinates *)

Section Coordinates.
Context `{Externals}.

Lemma zip_with_map_r (f : R → R → R) (g : R → R) l :
  zip_with f l (map g l) = map (λ x, f x (g x)) l.
Proof. induction l as [|x l IH]; simpl; [reflexivity|]. by rewrite IH. Qed.

Lemma nH_cells Z rho :
  length Z = length rho →
  mul (rmul (1 - _Y) (rsub 1 Z)) rho ≫= (λ a, Ok (div_scalar a mh)) =
  Ok (zip_with (λ z r, (1 - 0.24) * (1 - z) * r / mh)%R Z rho).
Proof.
  intros Hlen. unfold mul, broadcast, rmul, rsub.
  rewrite decide_True by (rewrite !length_map; exact Hlen).
  cbn [mbind result_bind]. f_equal. unfold div_scalar, _Y.
  revert rho Hlen. induction Z as [|z Z IH]; intros [|r rho] Hlen;
    simpl in *; try reflexivity; try discriminate.
  f_equal. apply IH. lia.
Qed.

(** The coordinates [_func] computes on a chunk that gives T/mu,
    metallicity and density. *)
Lemma _func_coordinates_cells data t Z rho :
  data_fields data !! ("gas", "temperature_over_mu") = Some t →
  data_fields data !! ("gas", "metallicity") = Some Z →
  data_fields data !! ("gas", "density") = Some rho →
  length Z = length rho →
  let nH := zip_with (λ z r, (1 - 0.24) * (1 - z) * r / mh)%R Z rho in
  let boost x :=
    if self_shielding (data_ds data)
    then Rmax (Rtrigo_def.exp (- x / 0.01)) 1e-20 else 1%R in
  _func_coordinates data =
  ([], Ok (length t,
           [ ("lognH", map (λ x, log10_R (x / boost x)) nH);
             ("logT", map log10_R t) ])).
Proof.
  intros Ht HZ Hrho Hlen nH boost. unfold _func_coordinates.
  rewrite (getitem_found _ _ _ Ht), eval_bind_ok.
  rewrite (getitem_found _ _ _ HZ), eval_bind_ok.
  rewrite (getitem_found _ _ _ Hrho), eval_bind_ok.
  pose proof (nH_cells Z rho Hlen) as HnH.
  destruct (mul _ rho) as [a|e]; [|discriminate].
  cbn [mbind result_bind] in HnH. injection HnH as HnH.
  rewrite lift_bind_ok, HnH. fold nH.
  unfold boost. destruct (self_shielding (data_ds data)).
  - unfold div, broadcast, maximum, exp, div_scalar, neg.
    rewrite !map_map.
    rewrite decide_True by (rewrite length_map; reflexivity).
    rewrite lift_bind_ok, eval_bind_ok. unfold mret, Eval_ret, log10.
    rewrite zip_with_map_r, map_map. reflexivity.
  - rewrite mret_bind_ok, eval_bind_ok. unfold mret, Eval_ret, log10.
    unfold div_scalar. rewrite map_map. reflexivity.
Qed.

End Coordinates.

(** ** Registration: what a method adds *)

Section Additions.
Context `{Externals}.

Lemma adds_only_ret {A} Q (a : A) : adds_only Q (mret a : Setup A).
Proof. intros fi k fd E. by left. Qed.

Lemma adds_only_lift_setup {A} Q (r : result A) : adds_only Q (lift_setup r).
Proof. intros fi k fd E. by left. Qed.

Lemma adds_only_mylog_warning Q msg : adds_only Q (mylog_warning msg).
Proof. intros fi k fd E. by left. Qed.

Lemma adds_only_bind {A B} Q (m : Setup A) (f : A → Setup B) :
  adds_only Q m → (∀ a, adds_only Q (f a)) → adds_only Q (m ≫= f).
Proof.
  intros Hm Hf fi k fd. rewrite bind_run. specialize (Hm fi k fd).
  destruct (m fi) as [[a|e] fi1]; cbn [snd] in *; [|exact Hm].
  intros E. destruct (Hf a fi1 k fd E) as [E1|HQ]; [exact (Hm E1)|by right].
Qed.

Lemma adds_only_add_field Q name f st u :
  Q name {| function := f; sampling_type := st; field_units := u |} →
  adds_only Q (add_field name f st u).
Proof.
  intros HQ fi k fd. rewrite add_field_run. cbn [snd fields with_entry].
  destruct (decide (name = k)) as [<-|Hne].
  - rewrite lookup_insert_eq. intros [= <-]. by right.
  - rewrite lookup_insert_ne by exact Hne. by left.
Qed.

Lemma adds_only_for_each {A} Q (l : list A) (body : A → Setup unit) :
  (∀ x, x ∈ l → adds_only Q (body x)) → adds_only Q (for_each l body).
Proof.
  induction l as [|x l IH]; intros Hb; simpl.
  - apply adds_only_ret.
  - apply adds_only_bind; [apply Hb; left|].
    intros _. apply IH. intros y Hy. apply Hb. by right.
Qed.

Lemma table_entry_field key tbl unit_ :
  table_entry (key, (tbl, unit_)) → key ≠ "mu" →
  cooling_table_field key unit_.
Proof. intros Hentry Hkey. right. split; [exact Hkey|exact Hentry]. Qed.

Lemma adds_only_register_cooling_fields avals tvals :
  Forall table_entry tvals →
  adds_only cooling_addition (register_cooling_fields avals tvals).
Proof.
  intros Htv. unfold register_cooling_fields, _create_field.
  repeat first
    [ apply adds_only_bind; [ | intros ? ]
    | apply adds_only_lift_setup
    | apply adds_only_ret
    | apply adds_only_for_each; intros [key [tbl unit_]] Hin ].
  - apply adds_only_add_field. right. eexists "mu", _, _.
    split; [reflexivity|]. split; [|reflexivity]. left. done.
  - apply adds_only_add_field. left. split; [reflexivity|].
    unfold cooling_derived_names. set_solver.
  - case_decide; [|apply adds_only_ret].
    apply adds_only_bind; [apply adds_only_lift_setup|intros interp].
    apply adds_only_add_field. right. eexists key, _, _.
    split; [reflexivity|]. split; [|reflexivity].
    apply (table_entry_field _ tbl); [|assumption].
    rewrite Forall_forall in Htv. by apply Htv.
  - apply adds_only_add_field. left. split; [reflexivity|].
    unfold cooling_derived_names. set_solver.
  - apply adds_only_add_field. left. split; [reflexivity|].
    unfold cooling_derived_names. set_solver.
  - apply adds_only_add_field. left. split; [reflexivity|].
    unfold cooling_derived_names. set_solver.
Qed.

Lemma adds_only_create_cooling_fields self :
  adds_only cooling_addition (create_cooling_fields self).
Proof.
  unfold create_cooling_fields.
  apply adds_only_bind; [apply adds_only_lift_setup | intros filename].
  destruct (files self !! filename) as [fd|].
  - destruct (load_cooling_tables fd) as [[[avals tvals]|]|e] eqn:Hload;
      intros fi; rewrite bind_run; unfold lift_setup.
    + apply adds_only_register_cooling_fields.
      by eapply load_cooling_tables_entries.
    + intros k fd' E. by left.
    + intros k fd' E. by left.
  - apply adds_only_bind; [apply adds_only_mylog_warning|].
    intros _. apply adds_only_ret.
Qed.

End Additions.

(** ** Cooling fields: the scaling of the table value *)

Section Scaling.
Context `{Externals}.

Lemma length_table_value key r : length (table_value key r) = length r.
Proof.
  unfold table_value, pow10. case_decide; [apply length_map|reflexivity].
Qed.

Lemma _func_value_lookup key interp unit_ data n d r :
  Interp.call interp d = Ok r →
  length r = n →
  _func_value ("gas", key) interp unit_ data n d =
  let cool := table_value key r in
  if decide ("metal" ∈ str_split "_" key) then
    Z ← getitem data ("gas", "metallicity");
    c ← lift (mul cool Z);
    mret (div_scalar c 0.02)
  else if decide ("compton" ∈ str_split "_" key) then
    match unit_ with
    | None => lift (Raise TypeError)
    | Some _ =>
        nd ← getitem data ("gas", "number_density");
        lift (div cool nd)
    end
  else mret cool.
Proof.
  intros Hcall Hlen. unfold _func_value, table_value. cbn [snd].
  rewrite Hcall, lift_bind_ok. unfold reshape.
  rewrite decide_True by exact Hlen. rewrite lift_bind_ok.
  destruct (decide (key ≠ "mu")).
  - rewrite lift_bind_ok. rewrite decide_True by exact Hlen.
    rewrite ?lift_bind_ok, ?mret_bind_ok. reflexivity.
  - rewrite ?mret_bind_ok. reflexivity.
Qed.

Lemma scaled_by_metallicity cool Z :
  length cool = length Z →
  mul cool Z ≫= (λ c, Ok (div_scalar c 0.02)) =
  Ok (zip_with (λ v z, v * (z / 0.02))%R cool Z).
Proof.
  intros Hlen. unfold mul, broadcast. rewrite decide_True by exact Hlen.
  cbn [mbind result_bind]. f_equal. unfold div_scalar.
  revert Z Hlen. induction cool as [|v cool IH]; intros [|z Z] Hlen;
    simpl in *; try reflexivity; try discriminate.
  f_equal; [lra|]. apply IH. lia.
Qed.

Lemma _func_value_metal key interp unit_ data n d r Z :
  Interp.call interp d = Ok r →
  length r = n →
  "metal" ∈ str_split "_" key →
  data_fields data !! ("gas", "metallicity") = Some Z →
  length Z = n →
  _func_value ("gas", key) interp unit_ data n d =
  ([], Ok (zip_with (λ v z, v * (z / 0.02))%R (table_value key r) Z)).
Proof.
  intros Hcall Hlen Hmetal HZ HlenZ.
  rewrite (_func_value_lookup _ _ _ _ _ _ _ Hcall Hlen). cbn zeta.
  rewrite decide_True by exact Hmetal.
  rewrite (getitem_found _ _ _ HZ), eval_bind_ok.
  pose proof (scaled_by_metallicity (table_value key r) Z) as Hs.
  rewrite length_table_value in Hs. specialize (Hs ltac:(lia)).
  destruct (mul _ Z) as [c|e]; [|discriminate].
  cbn [mbind result_bind] in Hs. injection Hs as Hs.
  rewrite lift_bind_ok, Hs. reflexivity.
Qed.

Lemma _func_value_compton key interp u data n d r nd :
  Interp.call interp d = Ok r →
  length r = n →
  "metal" ∉ str_split "_" key →
  "compton" ∈ str_split "_" key →
  data_fields data !! ("gas", "number_density") = Some nd →
  length nd = n →
  _func_value ("gas", key) interp (Some u) data n d =
  ([], Ok (zip_with Rdiv (table_value key r) nd)).
Proof.
  intros Hcall Hlen Hmetal Hcompton Hnd Hlennd.
  rewrite (_func_value_lookup _ _ _ _ _ _ _ Hcall Hlen). cbn zeta.
  rewrite decide_False by exact Hmetal.
  rewrite decide_True by exact Hcompton.
  rewrite (getitem_found _ _ _ Hnd), eval_bind_ok.
  unfold div, broadcast.
  rewrite decide_True by (rewrite length_table_value; lia). reflexivity.
Qed.

Lemma _func_value_plain key interp unit_ data n d r :
  Interp.call interp d = Ok r →
  length r = n →
  "metal" ∉ str_split "_" key →
  "compton" ∉ str_split "_" key →
  _func_value ("gas", key) interp unit_ data n d
  = ([], Ok (table_value key r)).
Proof.
  intros Hcall Hlen Hmetal Hcompton.
  rewrite (_func_value_lookup _ _ _ _ _ _ _ Hcall Hlen). cbn zeta.
  rewrite decide_False by exact Hmetal.
  rewrite decide_False by exact Hcompton. reflexivity.
Qed.

(** No table field is both a metal and a Compton term, and the Compton
    terms all carry a unit. *)
Lemma compton_field_unit key unit_ :
  cooling_table_field key unit_ →
  "compton" ∈ str_split "_" key →
  ("metal" ∉ str_split "_" key) ∧ (∃ u, unit_ = Some u).
Proof.
  intros [[-> ->]|[_ [Harr|[Hsp ->]]]] Hcompton.
  - exfalso. apply list_elem_of_In in Hcompton. vm_compute in Hcompton.
    intuition discriminate.
  - apply list_elem_of_In in Harr. unfold _cool_arrs in Harr.
    simpl in Harr.
    repeat destruct Harr as [[= <- <-]|Harr]; try contradiction;
      (split; [|eauto]);
      first
        [ intros Hm; apply list_elem_of_In in Hm; vm_compute in Hm;
          intuition discriminate
        | exfalso; apply list_elem_of_In in Hcompton;
          vm_compute in Hcompton; intuition discriminate ].
  - split; [|eauto]. apply list_elem_of_In in Hsp. simpl in Hsp.
    repeat destruct Hsp as [<-|Hsp]; try contradiction;
      intros Hm; apply list_elem_of_In in Hm; vm_compute in Hm;
      intuition discriminate.
Qed.

End Scaling.

Section ScalingClaim.
Context `{Externals}.

(** C6.  Every field that [create_cooling_fields] registers from a
    table is a [_func] closure, and on a chunk of cells it returns the
    value looked up in its table (the interpolation, raised to a power of
    ten for every field but mu): multiplied by metallicity / 0.02 when the
    name has the component "metal"; divided by ("gas", "number_density")
    when the name has the component "compton"; as it is otherwise. *)
Theorem C6_cooling_field_scaling self fi k fd :
  fields (create_cooling_fields self fi).2 !! k = Some fd →
  fields fi !! k ≠ Some fd →
  k.2 ∉ cooling_derived_names →
  ∃ key interp unit_,
    k = ("gas", key) ∧
    function fd = _func k interp unit_ ∧
    ∀ data n d r,
      _func_coordinates data = ([], Ok (n, d)) →
      Interp.call interp d = Ok r →
      length r = n →
      ("metal" ∈ str_split "_" key →
       ∀ Z, data_fields data !! ("gas", "metallicity") = Some Z →
            length Z = n →
            function fd data =
            ([], Ok (zip_with (λ v z, v * (z / 0.02))%R
                       (table_value key r) Z))) ∧
      ("compton" ∈ str_split "_" key →
       ∀ nd, data_fields data !! ("gas", "number_density") = Some nd →
             length nd = n →
             function fd data =
             ([], Ok (zip_with Rdiv (table_value key r) nd))) ∧
      ("metal" ∉ str_split "_" key →
       "compton" ∉ str_split "_" key →
       function fd data = ([], Ok (table_value key r))).
Proof.
  intros Hfd Hnew Hderived.
  destruct (adds_only_create_cooling_fields self fi k fd Hfd)
    as [Hold|[[_ Hin]|(key & interp & unit_ & -> & Hfield & Hfun)]];
    [contradiction..|].
  exists key, interp, unit_. split; [reflexivity|]. split; [exact Hfun|].
  intros data n d r Hcoord Hcall Hlen. rewrite Hfun. unfold _func.
  rewrite Hcoord, eval_bind_ok. split; [|split].
  - intros Hmetal Z HZ HlenZ. by apply _func_value_metal.
  - intros Hcompton nd Hnd Hlennd.
    destruct (compton_field_unit key unit_ Hfield Hcompton)
      as [Hmetal [u ->]].
    by apply _func_value_compton.
  - intros Hmetal Hcompton. by apply _func_value_plain.
Qed.

End ScalingClaim.

Lemma C6_witness :
  ∃ fd,
    fields (create_cooling_fields (H := example_externals)
              example_cooling_env empty_container).2
      !! ("gas", "cooling_metal") = Some fd ∧
    fields empty_container !! ("gas", "cooling_metal") ≠ Some fd ∧
    ("cooling_metal" ∉ cooling_derived_names) ∧
    ∃ key interp unit_,
      ("gas", "cooling_metal") = ("gas", key) ∧
      function fd
      = _func (H := example_externals) ("gas", "cooling_metal") interp unit_.
Proof.
  assert (Hsome : is_Some
            (fields (create_cooling_fields (H := example_externals)
                       example_cooling_env empty_container).2
               !! ("gas", "cooling_metal"))).
  { apply (bool_decide_unpack _). vm_compute. exact I. }
  destruct Hsome as [fd Hfd]. exists fd.
  assert (Hnew : fields empty_container !! ("gas", "cooling_metal")
                 ≠ Some fd) by discriminate.
  assert (Hname : "cooling_metal" ∉ cooling_derived_names).
  { intros Hin. apply list_elem_of_In in Hin. vm_compute in Hin.
    intuition discriminate. }
  split; [exact Hfd|]. split; [exact Hnew|]. split; [exact Hname|].
  destruct (C6_cooling_field_scaling (H := example_externals)
              example_cooling_env empty_container ("gas", "cooling_metal")
              fd Hfd Hnew Hname)
    as (key & interp & unit_ & Hk & Hfun & _).
  exists key, interp, unit_. split; [exact Hk|exact Hfun].
Defined.

(** ** The mu table *)

Section MuTable.
Context `{Externals}.

Lemma register_cooling_fields_mu avals tvals mu interp fi :
  dict_get "mu" tvals = Ok mu →
  table_interp avals mu.1 = Ok interp →
  fields (register_cooling_fields avals tvals fi).2 !! ("gas", "mu") =
  Some {| function := _func ("gas", "mu") interp (Some "dimensionless");
          sampling_type := cell;
          field_units := Some (UStr "dimensionless") |}.
Proof.
  intros Hmu Hinterp. unfold register_cooling_fields.
  rewrite bind_run. unfold lift_setup at 1. rewrite Hmu.
  rewrite bind_run. unfold lift_setup at 1. rewrite Hinterp.
  rewrite bind_run. unfold _create_field at 1. rewrite add_field_run.
  match goal with |- fields (?rest ?s).2 !! ?k = _ =>
    assert (Hp : preserves k rest); [ | rewrite Hp ] end.
  - repeat first
      [ apply preserves_bind; [ | intros ? ]
      | apply preserves_add_field; [ discriminate ]
      | apply preserves_ret ].
    apply preserves_for_each. intros [key [tbl unit_]] _.
    case_decide; [|apply preserves_ret].
    apply preserves_bind; [apply preserves_lift_setup|intros i].
    apply preserves_add_field. congruence.
  - cbn [fields with_entry]. apply lookup_insert_eq.
Qed.

Lemma create_cooling_fields_loaded self path fd avals tvals fi :
  cooling_filename (ds self) = Ok path →
  files self !! path = Some fd →
  load_cooling_tables fd = Ok (Some (avals, tvals)) →
  create_cooling_fields self fi = register_cooling_fields avals tvals fi.
Proof.
  intros Hname Hfile Hload. unfold create_cooling_fields.
  rewrite bind_run. unfold lift_setup at 1. rewrite Hname, Hfile.
  rewrite bind_run. unfold lift_setup at 1. rewrite Hload. reflexivity.
Qed.

(** A field of [create_cooling_fields] is not overridden later in
    [setup_fluid_fields]. *)
Lemma setup_fluid_fields_keeps_cooling_field self fi name :
  name ∉ later_gas_names →
  fields (setup_fluid_fields self fi).2 !! ("gas", name) =
  fields (create_cooling_fields self
            (with_entry ("gas", "temperature_over_mu")
               {| function := _temperature_over_mu; sampling_type := cell;
                  field_units := Some (USys "temperature") |} fi)).2
    !! ("gas", name).
Proof.
  intros Hname. unfold setup_fluid_fields.
  rewrite bind_run, add_field_run, bind_run.
  destruct (create_cooling_fields self _) as [[found|e] fi2];
    [|reflexivity].
  cbn [snd].
  match goal with |- fields (?rest fi2).2 !! ?k = _ =>
    assert (Hp : preserves k rest); [ | apply Hp ] end.
  assert (Hlater : ∀ n, n ∈ later_gas_names → ("gas", n) ≠ ("gas", name))
    by (intros n Hn [= ->]; exact (Hname Hn)).
  assert (Hlist : ∀ n, In n later_gas_names → n ∈ later_gas_names)
    by (intros n; apply list_elem_of_In).
  repeat family_step;
    lazymatch goal with
    | |- _ ∉ rt_gas_names =>
        intros Hin; apply Hname, Hlist; apply list_elem_of_In in Hin;
        simpl in Hin; simpl; tauto
    | |- ∀ ax : axis, _ =>
        intros ax; apply not_eq_sym, Hlater, Hlist; destruct ax; simpl; tauto
    | |- _ ≠ _ =>
        first [ apply Hlater | apply not_eq_sym, Hlater ];
        apply Hlist; simpl; tauto
    end.
Qed.

End MuTable.

(** ** The coordinates handed to the interpolator *)

Section Lookup.
Context `{Externals}.

(** C10.  On every chunk of cells, for every field name, table and unit,
    [_func] calls the interpolator on the coordinates [d] with
    lognH = log10(nH / boost), nH = (1 - 0.24) (1 - Z) density / mh, where
    boost = max(exp(-nH / 0.01), 1e-20) when the dataset has
    [self_shielding] and boost = 1 otherwise, and logT = log10(T/mu):
    what the interpolator raises on [d] is what [_func] raises, and what
    it returns on [d] is the value of the field (raised to a power of ten
    for every field but mu) when the name is neither a metal nor a
    Compton term.  Without self-shielding the coordinate is log10(nH). *)
Theorem C10_lognH_coordinate data t Z rho :
  data_fields data !! ("gas", "temperature_over_mu") = Some t →
  data_fields data !! ("gas", "metallicity") = Some Z →
  data_fields data !! ("gas", "density") = Some rho →
  length Z = length rho →
  let nH := zip_with (λ z r, (1 - 0.24) * (1 - z) * r / mh)%R Z rho in
  let boost x :=
    if self_shielding (data_ds data)
    then Rmax (Rtrigo_def.exp (- x / 0.01)) 1e-20 else 1%R in
  let lognH := map (λ x, log10_R (x / boost x)) nH in
  let d := [ ("lognH", lognH); ("logT", map log10_R t) ] in
  (∀ name interp_object unit_,
     _func name interp_object unit_ data =
     _func_value name interp_object unit_ data (length t) d) ∧
  (∀ name interp_object unit_ e,
     Interp.call interp_object d = Raise e →
     _func name interp_object unit_ data = ([], Raise e)) ∧
  (∀ key interp_object unit_ r,
     Interp.call interp_object d = Ok r →
     length r = length t →
     "metal" ∉ str_split "_" key →
     "compton" ∉ str_split "_" key →
     _func ("gas", key) interp_object unit_ data
     = ([], Ok (table_value key r))) ∧
  (self_shielding (data_ds data) = false → lognH = map log10_R nH).
Proof.
  intros Ht HZ Hrho Hlen nH boost lognH d.
  assert (Hfed : ∀ name interp_object unit_,
            _func name interp_object unit_ data =
            _func_value name interp_object unit_ data (length t) d).
  { intros name interp_object unit_. unfold _func.
    rewrite (_func_coordinates_cells data t Z rho Ht HZ Hrho Hlen).
    rewrite eval_bind_ok. reflexivity. }
  split; [exact Hfed|]. split; [|split].
  - intros name interp_object unit_ e Hcall. rewrite Hfed.
    unfold _func_value. rewrite Hcall. reflexivity.
  - intros key interp_object unit_ r Hcall Hr Hmetal Hcompton.
    rewrite Hfed. by apply _func_value_plain.
  - intros Hoff. unfold lognH, boost. rewrite Hoff.
    apply map_ext. intros x. f_equal. lra.
Qed.

End Lookup.

(** ** Interpolation in the mu table of the scenario *)

Section MuScenario.
Context `{Externals}.

Lemma clamp_inside lo hi x :
  (lo <= x)%R → (x <= hi)%R → Interp.clamp lo hi x = x.
Proof.
  intros Hlo Hhi. unfold Interp.clamp.
  rewrite Rmin_left by exact Hhi. apply Rmax_right, Hlo.
Qed.

Lemma clamp_above lo hi x :
  (lo <= hi)%R → (hi <= x)%R → Interp.clamp lo hi x = hi.
Proof.
  intros Hlo Hhi. unfold Interp.clamp.
  rewrite Rmin_right by exact Hhi. apply Rmax_right, Hlo.
Qed.

Lemma clamp_below lo hi x :
  (lo <= hi)%R → (x <= lo)%R → Interp.clamp lo hi x = lo.
Proof.
  intros Hlo Hhi. unfold Interp.clamp.
  rewrite Rmin_left by lra. apply Rmax_left, Hhi.
Qed.

(** On an axis of two samples the cell is the only one, and the offset
    is that of the clamped coordinate. *)
Lemma axis_cell_two b0 b1 x :
  Interp.axis_cell [b0; b1] x
  = (0, ((Interp.clamp b0 b1 x - b0) / (b1 - b0))%R).
Proof. reflexivity. Qed.

Lemma scenario_point x y v :
  (let tx := (Interp.clamp 0 1 x - 0) / (1 - 0) in
   let ty := (Interp.clamp 4 5 y - 4) / (5 - 4) in
   1.0 * ((1 - tx) * (1 - ty)) + 1.2 * (tx * (1 - ty))
   + 1.0 * ((1 - tx) * ty) + 1.2 * (tx * ty) = v)%R →
  Interp.call scenario_interp [("lognH", [x]); ("logT", [y])] = Ok [v].
Proof.
  cbn zeta. intros <-. reflexivity.
Qed.

Lemma scenario_call_at_sample :
  Interp.call scenario_interp [("lognH", [0%R]); ("logT", [4%R])]
  = Ok [1.0%R].
Proof.
  apply scenario_point. cbn zeta.
  rewrite !clamp_inside by lra. lra.
Qed.

Lemma scenario_call_out_of_range :
  Interp.call scenario_interp [("lognH", [2%R]); ("logT", [4%R])]
  = Ok [1.2%R].
Proof.
  apply scenario_point. cbn zeta.
  rewrite (clamp_above 0 1 2), (clamp_inside 4 5 4) by lra. lra.
Qed.

Lemma _func_mu_value interp unit_ data d r :
  _func_coordinates data = ([], Ok (length r, d)) →
  Interp.call interp d = Ok r →
  _func ("gas", "mu") interp unit_ data = ([], Ok r).
Proof.
  intros Hcoord Hcall. unfold _func. rewrite Hcoord, eval_bind_ok.
  rewrite (_func_value_plain "mu" _ _ _ _ _ r Hcall eq_refl).
  - reflexivity.
  - intros Hin. apply list_elem_of_In in Hin. vm_compute in Hin.
    intuition discriminate.
  - intros Hin. apply list_elem_of_In in Hin. vm_compute in Hin.
    intuition discriminate.
Qed.

End MuScenario.

Lemma log10_R_pow (k : nat) : log10_R (10 ^ k) = INR k.
Proof.
  unfold log10_R. rewrite ln_pow by lra.
  assert (ln 10 ≠ 0%R) by (apply ln_neq_0; lra).
  field. assumption.
Qed.

(** The coordinates of the example cell with nH = 10^k per cm^3:
    lognH = k and logT = 4. *)
Lemma example_gas_coordinates (k : nat) :
  _func_coordinates (H := example_externals) (example_gas_data (10 ^ k))
  = ([], Ok (1, [("lognH", [INR k]); ("logT", [4%R])])).
Proof.
  rewrite (_func_coordinates_cells (H := example_externals) _
             [10000%R] [0%R] [(10 ^ k * 1.6735575e-24 / 0.76)%R]);
    try reflexivity.
  cbn [self_shielding data_ds example_gas_data example_ds zip_with map length
       mh example_externals].
  assert (HnH : ((1 - 0.24) * (1 - 0) * (10 ^ k * 1.6735575e-24 / 0.76)
                 / 1.6735575e-24 / 1 = 10 ^ k)%R) by lra.
  assert (HT : (10000 = 10 ^ 4)%R) by lra.
  rewrite HnH, HT, !log10_R_pow.
  do 8 f_equal. simpl. lra.
Qed.

Section MuClaim.
Context `{Externals}.

(** C7.  For a cooling table with lognH = [0, 1], logT = [4, 5] and the
    mu table [[1.0, 1.0], [1.2, 1.2]], the field registered as
    ("gas", "mu") looks the table up with truncation enabled; at
    (lognH, logT) = (0, 4) it returns 1.0, the stored sample itself (no
    power of ten is taken for mu), and at the out-of-range point (2, 4) it
    returns 1.2, the value of the boundary row lognH = 1. *)
Theorem C7_mu_table_lookup self path fd avals tvals u fi data_in data_out :
  cooling_filename (ds self) = Ok path →
  files self !! path = Some fd →
  load_cooling_tables fd = Ok (Some (avals, tvals)) →
  dict_get "lognH" avals = Ok [0; 1]%R →
  dict_get "logT" avals = Ok [4; 5]%R →
  dict_get "mu" tvals = Ok ([[1.0; 1.0]; [1.2; 1.2]]%R, u) →
  _func_coordinates data_in
    = ([], Ok (1, [("lognH", [0%R]); ("logT", [4%R])])) →
  _func_coordinates data_out
    = ([], Ok (1, [("lognH", [2%R]); ("logT", [4%R])])) →
  ∃ mu_field,
    fields (setup_fluid_fields self fi).2 !! ("gas", "mu") = Some mu_field ∧
    function mu_field
    = _func ("gas", "mu") scenario_interp (Some "dimensionless") ∧
    Interp.truncate scenario_interp = true ∧
    function mu_field data_in = ([], Ok [1.0%R]) ∧
    function mu_field data_out = ([], Ok [1.2%R]).
Proof.
  intros Hname Hfile Hload HlognH HlogT Hmu Hin Hout.
  eexists. split.
  { rewrite setup_fluid_fields_keeps_cooling_field.
    - rewrite (create_cooling_fields_loaded self path fd avals tvals)
        by assumption.
      apply (register_cooling_fields_mu avals tvals _ scenario_interp _ Hmu).
      unfold table_interp. rewrite HlognH, HlogT. reflexivity.
    - intros Hlater. apply list_elem_of_In in Hlater.
      vm_compute in Hlater. intuition discriminate. }
  cbn [function]. split; [reflexivity|]. split; [reflexivity|]. split.
  - apply (_func_mu_value _ _ _ _ [1.0%R] Hin scenario_call_at_sample).
  - apply (_func_mu_value _ _ _ _ [1.2%R] Hout scenario_call_out_of_range).
Qed.

End MuClaim.

Lemma C7_witness :
  ∃ avals tvals u,
    cooling_filename (ds example_cooling_env)
      = Ok "/data/output_00080/cooling_00080.out" ∧
    files example_cooling_env !! "/data/output_00080/cooling_00080.out"
      = Some example_cooling_file ∧
    load_cooling_tables example_cooling_file = Ok (Some (avals, tvals)) ∧
    dict_get "lognH" avals = Ok [0; 1]%R ∧
    dict_get "logT" avals = Ok [4; 5]%R ∧
    dict_get "mu" tvals = Ok ([[1.0; 1.0]; [1.2; 1.2]]%R, u) ∧
    _func_coordinates (H := example_externals) (example_gas_data (10 ^ 0))
      = ([], Ok (1, [("lognH", [0%R]); ("logT", [4%R])])) ∧
    _func_coordinates (H := example_externals) (example_gas_data (10 ^ 2))
      = ([], Ok (1, [("lognH", [2%R]); ("logT", [4%R])])) ∧
    ∃ mu_field,
      fields (setup_fluid_fields (H := example_externals)
                example_cooling_env empty_container).2 !! ("gas", "mu")
        = Some mu_field ∧
      function mu_field (example_gas_data (10 ^ 0)) = ([], Ok [1.0%R]) ∧
      function mu_field (example_gas_data (10 ^ 2)) = ([], Ok [1.2%R]).
Proof.
  assert (Hin : _func_coordinates (H := example_externals)
                  (example_gas_data (10 ^ 0))
                = ([], Ok (1, [("lognH", [0%R]); ("logT", [4%R])])))
    by exact (example_gas_coordinates 0).
  assert (Hout : _func_coordinates (H := example_externals)
                   (example_gas_data (10 ^ 2))
                 = ([], Ok (1, [("lognH", [2%R]); ("logT", [4%R])])))
    by exact (example_gas_coordinates 2).
  destruct (load_cooling_tables example_cooling_file)
    as [[[avals tvals]|]|e] eqn:Hload; try discriminate Hload.
  exists avals, tvals, None.
  assert (Haxes : dict_get "lognH" avals = Ok [0; 1]%R
                  ∧ dict_get "logT" avals = Ok [4; 5]%R
                  ∧ dict_get "mu" tvals
                    = Ok ([[1.0; 1.0]; [1.2; 1.2]]%R, None)).
  { injection Hload as <- <-. repeat split; reflexivity. }
  destruct Haxes as (HlognH & HlogT & Hmu).
  repeat (split; [first [reflexivity | assumption]|]).
  destruct (C7_mu_table_lookup (H := example_externals) example_cooling_env
              "/data/output_00080/cooling_00080.out" example_cooling_file
              avals tvals None empty_container
              (example_gas_data (10 ^ 0)) (example_gas_data (10 ^ 2))
              eq_refl eq_refl Hload HlognH HlogT Hmu Hin Hout)
    as (mu_field & Hreg & _ & _ & Hv1 & Hv2).
  exists mu_field. repeat split; assumption.
Defined.

Lemma C10_witness :
  let data := example_gas_data (10 ^ 2) in
  let nH :=
    zip_with (λ z r, (1 - 0.24) * (1 - z) * r / 1.6735575e-24)%R
      [0%R] [(10 ^ 2 * 1.6735575e-24 / 0.76)%R] in
  data_fields data !! ("gas", "temperature_over_mu") = Some [10000%R] ∧
  data_fields data !! ("gas", "metallicity") = Some [0%R] ∧
  data_fields data !! ("gas", "density")
    = Some [(10 ^ 2 * 1.6735575e-24 / 0.76)%R] ∧
  length [0%R] = length [(10 ^ 2 * 1.6735575e-24 / 0.76)%R] ∧
  _func (H := example_externals) ("gas", "mu") scenario_interp
    (Some "dimensionless") data
  = _func_value ("gas", "mu") scenario_interp
      (Some "dimensionless") data 1
      [ ("lognH", map log10_R nH); ("logT", map log10_R [10000%R]) ] ∧
  _func (H := example_externals) ("gas", "mu") scenario_interp
    (Some "dimensionless") data = ([], Ok [1.2%R]).
Proof.
  cbn zeta. repeat (split; [reflexivity|]).
  destruct (C10_lognH_coordinate (H := example_externals)
              (example_gas_data (10 ^ 2)) [10000%R] [0%R]
              [(10 ^ 2 * 1.6735575e-24 / 0.76)%R]
              eq_refl eq_refl eq_refl eq_refl) as (Hfed & _ & Hval & Hoff).
  split.
  - rewrite Hfed. cbn zeta in Hoff. rewrite (Hoff eq_refl). reflexivity.
  - pose proof (example_gas_coordinates 2) as Hc.
    rewrite (_func_coordinates_cells (H := example_externals)
               (example_gas_data (10 ^ 2))
               [10000%R] [0%R] [(10 ^ 2 * 1.6735575e-24 / 0.76)%R]
               eq_refl eq_refl eq_refl eq_refl) in Hc.
    apply (Hval "mu" scenario_interp (Some "dimensionless") [1.2%R]).
    + refine (eq_trans (f_equal (Interp.call scenario_interp) _)
                scenario_call_out_of_range).
      exact (f_equal (λ x : Eval (nat * list (string * arr)),
                        match x.2 with Ok p => p.2 | Raise _ => [] end)
               Hc).
    + reflexivity.
    + intros Hin. apply list_elem_of_In in Hin. vm_compute in Hin.
      intuition discriminate.
    + intros Hin. apply list_elem_of_In in Hin. vm_compute in Hin.
      intuition discriminate.
Defined.

(** ** Concrete evaluations *)

Example cooling_filename_example :
  cooling_filename example_ds = Ok "/data/output_00080/cooling_00080.out".
Proof. reflexivity. Qed.

Example cooling_filename_without_number :
  cooling_filename
    {| basename := "info.txt"; directory := "/data";
       cosmological_simulation := false; use_conformal_time := false;
       self_shielding := false; current_time := 0; hubble_constant := 0;
       max_level := 0; axis_order := []; parameters := ∅ |}
  = Raise IndexError.
Proof. reflexivity. Qed.

Example int_examples :
  int "00080" = Ok 80%Z ∧ int " -1_0 " = Ok (-10)%Z ∧
  int "8__0" = Raise (ValueError "invalid literal for int() with base 10").
Proof. repeat split; reflexivity. Qed.

Example format_05_examples :
  format_05 80 = "00080" ∧ format_05 (-80) = "-0080" ∧
  format_05 123456 = "123456".
Proof. repeat split; reflexivity. Qed.

(** The flat column-major mu record of the example file is the table
    [[1.0, 1.0], [1.2, 1.2]]. *)
Example example_mu_table :
  table_F 2 2 0 [1.0; 1.2; 1.0; 1.2]%R = [[1.0; 1.0]; [1.2; 1.2]]%R.
Proof. reflexivity. Qed.

(** A value array of n1 entries after a first one of n1 x n2 entries is
    not taken for the old format: the reshape to (n1, n2, 0) fails. *)
Example later_short_array_raises :
  load_cooling_tables
    [ IntVec [2; 2]%Z; DoubleVec [0; 1]%R; DoubleVec [4; 5]%R;
      DoubleVec [-23; -22; -23; -22]%R; DoubleVec [-24; -23]%R ]
  = Raise (ValueError "cannot reshape array").
Proof. reflexivity. Qed.

(** With one entry the pad value is that entry; with [max_level = 3]
    three entries are appended. *)
Example rt_c_frac_constant :
  rt_c_frac {[ "rt_c_frac" := PList [0.01%R] ]} 3
  = Ok [0.01; 0.01; 0.01; 0.01]%R.
Proof. reflexivity. Qed.

Example rt_c_frac_per_level :
  rt_c_frac {[ "rt_c_frac" := PList [0.01; 0.02]%R ]} 3
  = Ok [0.01; 0.02; 1; 1; 1]%R.
Proof. reflexivity. Qed.

(** * Further properties of fields.py *)

(** ** What the registration methods leave alone *)

Section Stable.
Context `{Externals}.

Lemma stable_ret {A B} (g : FieldInfo → B) (a : A) :
  stable g (mret a : Setup A).
Proof. intros fi. reflexivity. Qed.

Lemma stable_lift_setup {A B} (g : FieldInfo → B) (r : result A) :
  stable g (lift_setup r).
Proof. intros fi. reflexivity. Qed.

Lemma stable_bind {A B C} (g : FieldInfo → C) (m : Setup A)
    (f : A → Setup B) :
  stable g m → (∀ a, stable g (f a)) → stable g (m ≫= f).
Proof.
  intros Hm Hf fi. rewrite bind_run. specialize (Hm fi).
  destruct (m fi) as [[a|e] fi']; cbn [snd] in *; [|exact Hm].
  rewrite Hf. exact Hm.
Qed.

Lemma stable_for_each {A B} (g : FieldInfo → B) (l : list A)
    (body : A → Setup unit) :
  (∀ x, stable g (body x)) → stable g (for_each l body).
Proof.
  intros Hb. induction l as [|x l IH]; simpl.
  - apply stable_ret.
  - apply stable_bind; [apply Hb | intros _; exact IH].
Qed.

Lemma stable_if {A B} (g : FieldInfo → B) (b : bool) (m1 m2 : Setup A) :
  stable g m1 → stable g m2 → stable g (if b then m1 else m2).
Proof. destruct b; auto. Qed.

Lemma stable_add_field {B} (g : FieldInfo → B) name f st u :
  (∀ fd fi, g (with_entry name fd fi) = g fi) →
  stable g (add_field name f st u).
Proof. intros Hg fi. rewrite add_field_run. apply Hg. Qed.

Lemma stable_mylog_warning {B} (g : FieldInfo → B) msg :
  (∀ fi, g (with_log msg fi) = g fi) → stable g (mylog_warning msg).
Proof. intros Hg fi. apply Hg. Qed.

Lemma stable_get_field_list {B} (g : FieldInfo → B) :
  stable g get_field_list.
Proof. intros fi. reflexivity. Qed.

Lemma stable_contains {B} (g : FieldInfo → B) name :
  stable g (contains name).
Proof. intros fi. reflexivity. Qed.

Lemma preserves_stable {A} k (m : Setup A) :
  preserves k m → stable (λ fi, fields fi !! k) m.
Proof. intros Hp fi. apply Hp. Qed.

End Stable.

(** One step of a proof that a registration method leaves an
    observation of the container alone; the observation must be one that
    [add_field] and [mylog.warning] do not touch. *)
Ltac stable_step :=
  first
    [ apply stable_ret
    | apply stable_lift_setup
    | apply stable_get_field_list
    | apply stable_contains
    | apply stable_add_field; intros; reflexivity
    | apply stable_mylog_warning; intros; reflexivity
    | apply stable_for_each; intros ?
    | apply stable_if
    | apply stable_bind; [ | intros ? ]
    | match goal with
      | |- stable _ (match ?x with _ => _ end) => destruct x
      | |- stable _ (let '(_, _) := ?x in _) => destruct x
      end ].

Section Invariants.
Context `{Externals}.

Lemma stable_field_list_create_cooling_fields self :
  stable field_list (create_cooling_fields self).
Proof.
  unfold create_cooling_fields, register_cooling_fields, _create_field.
  repeat stable_step.
Qed.

Lemma stable_field_list_create_rt_fields self :
  stable field_list (create_rt_fields self).
Proof.
  unfold create_rt_fields.
  repeat first [ stable_step | intros fi; reflexivity ].
Qed.

Lemma stable_field_list_create_magnetic_fields self :
  stable field_list (create_magnetic_fields self).
Proof. unfold create_magnetic_fields. repeat stable_step. Qed.

End Invariants.

(** ** The log and the frame of setup_fluid_fields *)

Ltac fin :=
  split; [reflexivity | split; intros Hr; first
    [ discriminate Hr | reflexivity | exfalso; apply Hr; reflexivity ]].

Ltac stable_step' :=
  first [ stable_step | intros ?; reflexivity ].

Section FluidFrame.
Context `{Externals}.

Lemma never_false_bind {A} (m : Setup A) (f : A → Setup bool) :
  (∀ a, never_false (f a)) → never_false (m ≫= f).
Proof.
  intros Hf fi. rewrite bind_run.
  destruct (m fi) as [[a|e] fi']; [apply Hf|discriminate].
Qed.

Lemma never_false_register_cooling_fields avals tvals :
  never_false (register_cooling_fields avals tvals).
Proof.
  unfold register_cooling_fields.
  repeat (apply never_false_bind; intros ?).
  intros fi. discriminate.
Qed.

Lemma create_cooling_fields_log self fi r fi' :
  create_cooling_fields self fi = (r, fi') →
  ∃ l, mylog fi' = mylog fi ++ l ∧
       (r = Ok false → length l = 1) ∧ (r ≠ Ok false → l = []).
Proof.
  unfold create_cooling_fields. rewrite bind_run. unfold lift_setup at 1.
  destruct (cooling_filename (ds self)) as [path|e].
  2:{ intros [= <- <-]. exists []. rewrite app_nil_r. fin. }
  destruct (files self !! path) as [fd|].
  2:{ intros [= <- <-]. eexists [_]. fin. }
  rewrite bind_run. unfold lift_setup at 1.
  destruct (load_cooling_tables fd) as [[[avals tvals]|]|e].
  - intros Hrun. exists []. rewrite app_nil_r. split; [|split].
    + assert (Hs : stable mylog (register_cooling_fields avals tvals)).
      { unfold register_cooling_fields, _create_field. repeat stable_step. }
      rewrite <- (Hs fi), Hrun. reflexivity.
    + intros ->. exfalso.
      apply (never_false_register_cooling_fields avals tvals fi).
      by rewrite Hrun.
    + done.
  - intros [= <- <-]. eexists [_]. fin.
  - intros [= <- <-]. exists []. rewrite app_nil_r. fin.
Qed.

(** X2.  [setup_fluid_fields] never changes [self.field_list], and it
    logs at most one record through [mylog.warning], after the records
    that were there. *)
Theorem setup_fluid_fields_frame self fi :
  field_list (setup_fluid_fields self fi).2 = field_list fi ∧
  ∃ l, mylog (setup_fluid_fields self fi).2 = mylog fi ++ l ∧ length l ≤ 1.
Proof.
  split.
  - assert (Hs : stable field_list (setup_fluid_fields self)); [|apply Hs].
    unfold setup_fluid_fields.
    repeat first
      [ apply stable_field_list_create_cooling_fields
      | apply stable_field_list_create_rt_fields
      | apply stable_field_list_create_magnetic_fields
      | stable_step' ].
  - unfold setup_fluid_fields. rewrite bind_run, add_field_run, bind_run.
    match goal with |- context [create_cooling_fields self ?s] =>
      destruct (create_cooling_fields self s) as [r fi2] eqn:Hrun;
      destruct (create_cooling_fields_log self s r fi2 Hrun)
        as (l & Hl & Hone & Hnone) end.
    cbn [fst snd mylog with_entry] in *.
    exists l. split.
    + destruct r as [found|e]; [|exact Hl].
      match goal with |- mylog (?rest fi2).2 = _ =>
        assert (Hs : stable mylog rest); [|rewrite Hs; exact Hl] end.
      assert (stable mylog (create_rt_fields self))
        by (unfold create_rt_fields; repeat stable_step').
      assert (stable mylog (create_magnetic_fields self))
        by (unfold create_magnetic_fields; repeat stable_step').
      repeat first [ assumption | stable_step' ].
    + destruct r as [[|]|e];
        [ rewrite Hnone by done | rewrite Hone by done
        | rewrite Hnone by done ]; simpl; lia.
Qed.
End FluidFrame.


(** ** The stages of setup_fluid_fields *)

Section Run.
Context `{Externals}.

Lemma contains_run name fi :
  contains name fi = (Ok (bool_decide (is_Some (fields fi !! name))), fi).
Proof. reflexivity. Qed.

(** The stages of [setup_fluid_fields], one after the other. *)
Lemma setup_fluid_fields_run self fi :
  let fi1 :=
    with_entry ("gas", "temperature_over_mu")
      {| function := _temperature_over_mu; sampling_type := cell;
         field_units := Some (USys "temperature") |} fi in
  match create_cooling_fields self fi1 with
  | (Raise e, fi2) => setup_fluid_fields self fi = (Raise e, fi2)
  | (Ok found, fi2) =>
      let fi3 :=
        with_entry ("gas", "temperature")
          {| function := _temperature found; sampling_type := cell;
             field_units := Some (USys "temperature") |} fi2 in
      let fi4 :=
        {| fields := fields fi3; field_list := field_list fi3;
           species_names :=
             omap (λ '(ft, fn), list_to_map (M := gmap string string)
                                  known_species_names !! fn)
               (field_list fi3);
           mylog := mylog fi3; fluid_types := fluid_types fi3 |} in
      match (if rt_any_exist self then create_rt_fields self else mret tt)
              fi4 with
      | (Raise e, fi5) => setup_fluid_fields self fi = (Raise e, fi5)
      | (Ok _, fi5) =>
          match (if bool_decide
                      (is_Some (fields fi5 !! ("gas", "magnetic_field_x_left")))
                 then create_magnetic_fields self else mret tt) fi5 with
          | (Raise e, fi6) => setup_fluid_fields self fi = (Raise e, fi6)
          | (Ok _, fi6) =>
              setup_fluid_fields self fi =
              (if bool_decide (is_Some (fields fi6 !! ("gravity", "Potential")))
               then create_gravity_fields else mret tt) fi6
          end
      end
  end.
Proof.
  cbn zeta. unfold setup_fluid_fields.
  rewrite bind_run, add_field_run, bind_run.
  destruct (create_cooling_fields self _) as [[found|e] fi2]; [|reflexivity].
  rewrite bind_run, add_field_run, bind_run.
  cbn [get_field_list]. rewrite bind_run. cbn [set_species_names].
  rewrite bind_run.
  match goal with |- context [(if rt_any_exist self then ?a else ?b) ?s] =>
    destruct ((if rt_any_exist self then a else b) s) as [[[]|e] fi5] end;
    [|reflexivity].
  rewrite bind_run, contains_run, bind_run.
  match goal with |- context [(if bool_decide ?P then ?a else ?b) fi5] =>
    destruct ((if bool_decide P then a else b) fi5) as [[[]|e] fi6] end;
    [|reflexivity].
  rewrite bind_run, contains_run. reflexivity.
Qed.

End Run.

(** ** Invariants along the stages *)

Section Hoare.
Context `{Externals}.

Lemma hoare_bind {A B} (P : FieldInfo → Prop) (m : Setup A)
    (R : result A → FieldInfo → Prop) (f : A → Setup B) Q :
  hoare P m R →
  (∀ a, hoare (R (Ok a)) (f a) Q) →
  (∀ e fi, R (Raise e) fi → Q (Raise e) fi) →
  hoare P (m ≫= f) Q.
Proof.
  intros Hm Hf He fi HP. rewrite bind_run. specialize (Hm fi HP).
  destruct (m fi) as [[a|e] fi']; cbn [fst snd] in *.
  - apply Hf, Hm.
  - apply He, Hm.
Qed.

Lemma keeps_bind {A B} I (m : Setup A) (f : A → Setup B) :
  keeps I m → (∀ a, keeps I (f a)) → keeps I (m ≫= f).
Proof. intros Hm Hf. apply (hoare_bind I m (λ _, I)); auto. Qed.

(** A prefix that keeps the invariant, then a suffix with its own
    postcondition. *)
Lemma hoare_after {A B} I (m : Setup A) (f : A → Setup B) Q :
  keeps I m →
  (∀ a, hoare I (f a) Q) →
  (∀ e fi, I fi → Q (Raise e) fi) →
  hoare I (m ≫= f) Q.
Proof. intros Hm Hf He. by apply (hoare_bind I m (λ _, I)). Qed.

Lemma keeps_ret {A} I (a : A) : keeps I (mret a : Setup A).
Proof. intros fi HI. exact HI. Qed.

Lemma keeps_lift_setup {A} I (r : result A) : keeps I (lift_setup r).
Proof. intros fi HI. exact HI. Qed.

Lemma keeps_if {A} I (b : bool) (m1 m2 : Setup A) :
  keeps I m1 → keeps I m2 → keeps I (if b then m1 else m2).
Proof. destruct b; auto. Qed.

Lemma keeps_for_each {A} I (l : list A) (body : A → Setup unit) :
  (∀ x, x ∈ l → keeps I (body x)) → keeps I (for_each l body).
Proof.
  induction l as [|x l IH]; intros Hb; simpl.
  - apply keeps_ret.
  - apply keeps_bind; [apply Hb; left|].
    intros _. apply IH. intros y Hy. apply Hb. by right.
Qed.

Lemma keeps_agree_preserves {A} K fi0 (m : Setup A) :
  (∀ k, k ∈ K → preserves k m) → keeps (agree K fi0) m.
Proof.
  intros Hp fi Hagree k Hk. cbn [snd]. rewrite (Hp k Hk). by apply Hagree.
Qed.

Lemma keeps_agree_stable {A} K fi0 (m : Setup A) :
  stable fields m → keeps (agree K fi0) m.
Proof. intros Hs fi Hagree k Hk. cbn [snd]. rewrite Hs. by apply Hagree. Qed.

(** The test [name in self] when the invariant settles it. *)
Lemma hoare_contains {B} (I : FieldInfo → Prop) name (b : bool)
    (f : bool → Setup B) Q :
  (∀ fi, I fi → bool_decide (is_Some (fields fi !! name)) = b) →
  hoare I (f b) Q →
  hoare I (contains name ≫= f) Q.
Proof.
  intros Hb Hf fi HI. rewrite bind_run. unfold contains.
  rewrite (Hb fi HI). apply Hf, HI.
Qed.

Lemma preserves_register_cooling_fields_other k avals tvals :
  k.1 ≠ "gas" → preserves k (register_cooling_fields avals tvals).
Proof.
  intros Hk. unfold register_cooling_fields, _create_field.
  assert (Hne : ∀ n, ("gas", n) ≠ k) by (intros n <-; by apply Hk).
  repeat first
    [ apply preserves_for_each; intros [? [? ?]] ?
    | apply preserves_bind; [ | intros ? ]
    | apply preserves_add_field; [ apply Hne ]
    | case_decide
    | solve [ auto with preserves ] ].
Qed.

Lemma preserves_create_cooling_fields_other k self :
  k.1 ≠ "gas" → preserves k (create_cooling_fields self).
Proof.
  intros Hk. unfold create_cooling_fields.
  apply preserves_bind; [apply preserves_lift_setup | intros filename].
  destruct (files self !! filename) as [fd|].
  - apply preserves_bind; [apply preserves_lift_setup|].
    intros [[avals tvals]|].
    + by apply preserves_register_cooling_fields_other.
    + repeat preserves_step.
  - repeat preserves_step.
Qed.

Lemma preserves_create_rt_fields_other k self :
  k.1 ≠ "gas" → k.1 ≠ "rt" → preserves k (create_rt_fields self).
Proof.
  intros Hgas Hrt. unfold create_rt_fields.
  assert (Hne1 : ∀ n, ("gas", n) ≠ k) by (intros n <-; by apply Hgas).
  assert (Hne2 : ∀ n, ("rt", n) ≠ k) by (intros n <-; by apply Hrt).
  repeat first
    [ apply preserves_for_each; intros ? ?
    | apply preserves_bind; [ | intros ? ]
    | apply preserves_add_field; first [ apply Hne1 | apply Hne2 ]
    | solve [ auto with preserves ] ].
Qed.

End Hoare.


(** ** The conditional stages of setup_fluid_fields *)

Ltac pipeline_step :=
  first
    [ apply preserves_create_cooling_fields
    | apply preserves_create_cooling_fields_other
    | apply preserves_create_rt_fields
    | apply preserves_create_rt_fields_other
    | family_step ].

(** Closes a goal [name ∉ names] for a list of literal names. *)
Ltac not_listed :=
  let Hin := fresh "Hin" in
  intros Hin; apply list_elem_of_In in Hin; vm_compute in Hin;
  intuition discriminate.

Ltac side :=
  lazymatch goal with
  | |- _ ∉ _ => not_listed
  | |- ∀ ax : axis, _ => intros []; discriminate
  | |- _ => cbn [fst snd]; discriminate
  end.

(** A stage that preserves each key of the agreement. *)
Ltac agree_stage :=
  apply keeps_agree_preserves;
  let k := fresh "k" in
  let Hk := fresh "Hk" in
  intros k Hk;
  repeat (apply elem_of_cons in Hk as [->|Hk]);
  [ .. | by apply elem_of_nil in Hk ];
  repeat pipeline_step; side.

Ltac stage := apply keeps_bind; [ agree_stage | intros ? ].

Section Conditions.
Context `{Externals}.

Lemma _temperature_over_mu_cells data p d :
  data_fields data !! ("gas", "pressure") = Some p →
  data_fields data !! ("gas", "density") = Some d →
  length p = length d →
  _temperature_over_mu data =
  ([], Ok (zip_with (λ x y, x / y * (mass_hydrogen_cgs / boltzmann_constant_cgs))%R
             p d)).
Proof.
  intros Hp Hd Hlen. unfold _temperature_over_mu.
  rewrite (getitem_found _ _ _ Hp), eval_bind_ok.
  rewrite (getitem_found _ _ _ Hd), eval_bind_ok.
  unfold div, broadcast. rewrite decide_True by exact Hlen.
  rewrite lift_bind_ok. unfold mret, Eval_ret, scale. do 2 f_equal.
  clear Hp Hd. revert d Hlen.
  induction p as [|x p IH]; intros [|y d] Hlen; simpl in *;
    try reflexivity; try discriminate.
  f_equal. apply IH. lia.
Qed.

(** X1.  Whatever [create_cooling_fields] and the later families do
    (return, raise, register), the container [setup_fluid_fields] leaves
    holds under ("gas", "temperature_over_mu") the cell field in the
    temperature unit that is registered first, and no later stage
    overrides it; on arrays of one length that field is, cell by cell,
    pressure / density * (mass_hydrogen_cgs / boltzmann_constant_cgs). *)
Theorem temperature_over_mu_always_registered self fi :
  fields (setup_fluid_fields self fi).2 !! ("gas", "temperature_over_mu") =
    Some {| function := _temperature_over_mu; sampling_type := cell;
            field_units := Some (USys "temperature") |} ∧
  ∀ data p d,
    data_fields data !! ("gas", "pressure") = Some p →
    data_fields data !! ("gas", "density") = Some d →
    length p = length d →
    _temperature_over_mu data =
    ([], Ok (zip_with
               (λ x y, x / y * (mass_hydrogen_cgs / boltzmann_constant_cgs))%R
               p d)).
Proof.
  split; [|apply _temperature_over_mu_cells].
  unfold setup_fluid_fields. rewrite bind_run, add_field_run.
  match goal with |- fields (?rest ?s).2 !! ?k = _ =>
    assert (Hp : preserves k rest); [ | rewrite Hp ] end.
  - repeat pipeline_step;
      lazymatch goal with
      | |- _ ∉ _ => not_listed
      | |- ∀ ax : axis, _ => intros []; discriminate
      | |- _ => discriminate
      end.
  - cbn [fields with_entry]. apply lookup_insert_eq.
Qed.


(** X9.  When ("gas", "magnetic_field_x_left") is not in the
    container, [setup_fluid_fields] registers no magnetic field: the
    entries of the three centred fields and of the divergence are as they
    were. *)
Theorem without_face_field_no_magnetic_field self fi name :
  fields fi !! ("gas", "magnetic_field_x_left") = None →
  name ∈ magnetic_names →
  fields (setup_fluid_fields self fi).2 !! ("gas", name)
  = fields fi !! ("gas", name).
Proof.
  intros Hnone Hname.
  assert (Hkeeps : keeps (agree [("gas", "magnetic_field_x_left");
                                 ("gas", name)] fi)
                     (setup_fluid_fields self)).
  { unfold magnetic_names in Hname.
    repeat (apply elem_of_cons in Hname as [->|Hname]);
      [..|by apply elem_of_nil in Hname];
      unfold setup_fluid_fields;
      do 6 stage;
      (apply (hoare_contains _ _ false);
       [ intros fi' Hfi'; rewrite (Hfi' ("gas", "magnetic_field_x_left"))
           by left; by rewrite Hnone | ]);
      (apply keeps_bind; [apply keeps_ret | intros _]);
      stage; agree_stage. }
  apply (Hkeeps fi); [done|]. right. left.
Qed.


Lemma potential_energy_cells data a b :
  data_fields data !! ("gas", "potential") = Some a →
  data_fields data !! ("gas", "cell_mass") = Some b →
  length a = length b →
  potential_energy data = ([], Ok (zip_with Rmult a b)).
Proof.
  intros Ha Hb Hlen. unfold potential_energy.
  rewrite (getitem_found _ _ _ Ha), eval_bind_ok.
  rewrite (getitem_found _ _ _ Hb), eval_bind_ok.
  unfold mul, broadcast. rewrite decide_True by exact Hlen. reflexivity.
Qed.

(** X10.  When ("gravity", "Potential") is not in the container,
    [setup_fluid_fields] leaves the entry of ("gas", "potential_energy")
    as it was. *)
Theorem without_potential_no_potential_energy self fi :
  fields fi !! ("gravity", "Potential") = None →
  fields (setup_fluid_fields self fi).2 !! ("gas", "potential_energy")
  = fields fi !! ("gas", "potential_energy").
Proof.
  intros Hnone.
  assert (Hkeeps : keeps (agree [("gravity", "Potential");
                                 ("gas", "potential_energy")] fi)
                     (setup_fluid_fields self)).
  { unfold setup_fluid_fields. do 6 stage.
    apply keeps_bind; [agree_stage | intros has_b].
    apply keeps_bind; [agree_stage | intros _].
    apply (hoare_contains _ _ false); [|apply keeps_ret].
    intros fi' Hfi'. rewrite (Hfi' ("gravity", "Potential")) by left.
    by rewrite Hnone. }
  apply (Hkeeps fi); [done|]. right. left.
Qed.

(** X11.  When ("gravity", "Potential") is in the container and
    [setup_fluid_fields] completes, ("gas", "potential_energy") is
    registered as a cell field in the energy unit, and on arrays of one
    length it is, cell by cell, potential * cell_mass. *)
Theorem with_potential_potential_energy self fi :
  is_Some (fields fi !! ("gravity", "Potential")) →
  (setup_fluid_fields self fi).1 = Ok tt →
  fields (setup_fluid_fields self fi).2 !! ("gas", "potential_energy") =
    Some {| function := potential_energy; sampling_type := cell;
            field_units := Some (USys "energy") |} ∧
  ∀ data a b,
    data_fields data !! ("gas", "potential") = Some a →
    data_fields data !! ("gas", "cell_mass") = Some b →
    length a = length b →
    potential_energy data = ([], Ok (zip_with Rmult a b)).
Proof.
  intros Hsome Hok. split; [|apply potential_energy_cells].
  assert (Hh : hoare (agree [("gravity", "Potential")] fi)
                 (setup_fluid_fields self)
                 (λ r fi', r = Ok tt →
                    fields fi' !! ("gas", "potential_energy") =
                    Some {| function := potential_energy;
                            sampling_type := cell;
                            field_units := Some (USys "energy") |})).
  { unfold setup_fluid_fields.
    do 8 (apply hoare_after; [agree_stage | intros ? | discriminate]).
    apply (hoare_contains _ _ true).
    - intros fi' Hfi'. rewrite (Hfi' ("gravity", "Potential")) by left.
      by apply bool_decide_eq_true_2.
    - intros fi' _ _. unfold create_gravity_fields.
      rewrite add_field_run. apply lookup_insert_eq. }
  apply (Hh fi); done.
Qed.

(** X8.  Without RT files ([RTFieldFileHandler.any_exist] is false),
    [setup_fluid_fields] leaves [ds.fluid_types] as it was and touches no
    entry of the "rt" field type and none of the gas fields of
    [create_rt_fields]. *)
Theorem without_rt_files_no_rt_field self fi k :
  rt_any_exist self = false →
  k.1 = "rt" ∨ (k.1 = "gas" ∧ k.2 ∈ rt_gas_names) →
  fluid_types (setup_fluid_fields self fi).2 = fluid_types fi ∧
  fields (setup_fluid_fields self fi).2 !! k = fields fi !! k.
Proof.
  intros Hoff Hk. unfold setup_fluid_fields. rewrite Hoff. split.
  - match goal with |- fluid_types (?m fi).2 = _ =>
      assert (Hs : stable fluid_types m); [|apply Hs] end.
    unfold create_cooling_fields, register_cooling_fields, _create_field,
      create_magnetic_fields, create_gravity_fields.
    repeat first [ stable_step | intros ?; reflexivity ].
  - match goal with |- fields (?m fi).2 !! _ = _ =>
      assert (Hp : preserves k m); [|apply Hp] end.
    destruct k as [ft fn]. cbn [fst snd] in Hk.
    destruct Hk as [->|[-> Hfn]].
    + repeat first
        [ apply preserves_create_cooling_fields_other | family_step ];
        side.
    + unfold rt_gas_names in Hfn.
      repeat (apply elem_of_cons in Hfn as [->|Hfn]);
        [..|by apply elem_of_nil in Hfn];
        repeat pipeline_step; side.
Qed.

End Conditions.

(** ** Species names *)

Section Species.
Context `{Externals}.

Lemma length_omap_le {A B} (f : A → option B) l :
  length (omap f l) ≤ length l.
Proof.
  induction l as [|x l IH]; [done|]. cbn [omap list_omap].
  destruct (f x); cbn [length]; lia.
Qed.

Lemma known_species_names_NoDup : NoDup known_species_names.*1.
Proof. apply (bool_decide_unpack _). vm_compute. exact I. Qed.

Lemma setup_fluid_fields_species_names self fi :
  (setup_fluid_fields self fi).1 = Ok tt →
  species_names (setup_fluid_fields self fi).2 =
  omap (λ '(ft, fn), list_to_map (M := gmap string string)
                       known_species_names !! fn) (field_list fi).
Proof.
  pose proof (setup_fluid_fields_run self fi) as Hrun. cbn zeta in Hrun.
  pose proof (stable_field_list_create_cooling_fields self) as Hfl.
  match type of Hrun with context [create_cooling_fields self ?s] =>
    specialize (Hfl s); destruct (create_cooling_fields self s)
      as [[found|e] fi2] end.
  2:{ rewrite Hrun. discriminate. }
  cbn [fst snd] in Hfl.
  match type of Hrun with
    context [(if rt_any_exist self then ?a else ?b) ?s] =>
    assert (Hrt : stable species_names (if rt_any_exist self then a else b));
      [|specialize (Hrt s);
        destruct ((if rt_any_exist self then a else b) s)
          as [[[]|e] fi5]] end.
  { unfold create_rt_fields. repeat stable_step'. }
  2:{ rewrite Hrun. discriminate. }
  match type of Hrun with
    context [(if bool_decide ?P then ?a else ?b) fi5] =>
    assert (Hm : stable species_names (if bool_decide P then a else b));
      [|specialize (Hm fi5);
        destruct ((if bool_decide P then a else b) fi5)
          as [[[]|e] fi6]] end.
  { unfold create_magnetic_fields. repeat stable_step'. }
  2:{ rewrite Hrun. discriminate. }
  intros _. rewrite Hrun.
  match goal with |- species_names (?m fi6).2 = _ =>
    assert (Hg : stable species_names m); [|rewrite (Hg fi6)] end.
  { unfold create_gravity_fields. repeat stable_step'. }
  cbn [fst snd] in *. rewrite Hm, Hrt. cbn [species_names field_list with_entry].
  by rewrite Hfl.
Qed.

(** X6.  When [setup_fluid_fields] completes, [species_names] holds a
    name [s] exactly when some on-disk field of [field_list] has a name
    that [known_species_names] maps to [s]; it is never longer than
    [field_list]. *)
Theorem species_names_of_field_list self fi :
  (setup_fluid_fields self fi).1 = Ok tt →
  (∀ s, s ∈ species_names (setup_fluid_fields self fi).2 ↔
        ∃ ft fn, (ft, fn) ∈ field_list fi ∧ (fn, s) ∈ known_species_names) ∧
  length (species_names (setup_fluid_fields self fi).2)
    ≤ length (field_list fi).
Proof.
  intros Hok. rewrite (setup_fluid_fields_species_names _ _ Hok). split.
  - intros s. rewrite list_elem_of_omap. split.
    + intros [[ft fn] [Hin Hs]]. exists ft, fn. split; [exact Hin|].
      by apply elem_of_list_to_map_2.
    + intros (ft & fn & Hin & Hs). exists (ft, fn). split; [exact Hin|].
      apply elem_of_list_to_map_1; [apply known_species_names_NoDup|exact Hs].
  - apply length_omap_le.
Qed.

End Species.


(** ** Failure of the cooling stage; what the setup can touch *)

Section Failure.
Context `{Externals}.

(** X4.  When [create_cooling_fields] raises, [setup_fluid_fields]
    raises the same exception and stops there: ("gas", "temperature") is
    not registered, [species_names] and [fluid_types] are as they were,
    and no field outside the "gas" field type is touched. *)
Theorem cooling_error_aborts_setup self fi e :
  (create_cooling_fields self fi).1 = Raise e →
  (setup_fluid_fields self fi).1 = Raise e ∧
  fields (setup_fluid_fields self fi).2 !! ("gas", "temperature")
    = fields fi !! ("gas", "temperature") ∧
  species_names (setup_fluid_fields self fi).2 = species_names fi ∧
  fluid_types (setup_fluid_fields self fi).2 = fluid_types fi ∧
  ∀ k, k.1 ≠ "gas" →
       fields (setup_fluid_fields self fi).2 !! k = fields fi !! k.
Proof.
  intros Hraise.
  pose proof (setup_fluid_fields_run self fi) as Hrun. cbn zeta in Hrun.
  match type of Hrun with context [create_cooling_fields self ?s] =>
    rewrite (oblivious_create_cooling_fields self fi s) in Hraise;
    pose proof (preserves_create_cooling_fields "temperature" self
                  ltac:(not_listed) s) as Htemp;
    pose proof (λ k (Hk : k.1 ≠ "gas"),
                  preserves_create_cooling_fields_other k self Hk s) as Hoth;
    assert (Hsp : stable species_names (create_cooling_fields self));
    [|assert (Hft : stable fluid_types (create_cooling_fields self));
      [|specialize (Hsp s); specialize (Hft s);
        destruct (create_cooling_fields self s) as [[found|e'] fi2]]] end.
  { unfold create_cooling_fields, register_cooling_fields, _create_field.
    repeat stable_step'. }
  { unfold create_cooling_fields, register_cooling_fields, _create_field.
    repeat stable_step'. }
  { discriminate Hraise. }
  cbn [fst snd] in *. injection Hraise as ->. rewrite Hrun.
  cbn [fst snd]. split; [reflexivity|].
  split; [rewrite Htemp; by apply lookup_insert_ne|].
  split; [exact Hsp|]. split; [exact Hft|].
  intros k Hk. rewrite (Hoth k Hk). cbn [with_entry fields].
  apply lookup_insert_ne. intros <-. by apply Hk.
Qed.

(** X12.  [create_cooling_fields] returns [False] only when the cooling
    file of the output does not exist, or when it starts with a header
    [n1, n2], two axis records and a first value array of n1 entries (the
    pre-2010 format); it has then registered nothing and logged exactly
    one record. *)
Theorem create_cooling_fields_False_only self fi :
  (create_cooling_fields self fi).1 = Ok false →
  (∃ path, cooling_filename (ds self) = Ok path ∧
     (files self !! path = None ∨
      ∃ n1 n2 lognH logT var rest,
        files self !! path =
          Some (IntVec [n1; n2] :: DoubleVec lognH :: DoubleVec logT
                  :: DoubleVec var :: rest) ∧
        Z.of_nat (length var) = n1)) ∧
  fields (create_cooling_fields self fi).2 = fields fi ∧
  ∃ msg, mylog (create_cooling_fields self fi).2 = mylog fi ++ [msg].
Proof.
  intros Hr.
  destruct (cooling_filename (ds self)) as [path|e] eqn:Hname.
  2:{ exfalso. revert Hr. unfold create_cooling_fields.
      rewrite bind_run. unfold lift_setup at 1. rewrite Hname.
      discriminate. }
  destruct (files self !! path) as [fd|] eqn:Hfile.
  2:{ rewrite (create_cooling_fields_missing_file _ _ _ Hname Hfile).
      split; [exists path; split; [reflexivity|by left]|].
      split; [reflexivity|]. by eexists. }
  destruct (load_cooling_tables fd) as [[[avals tvals]|]|e] eqn:Hload.
  - exfalso.
    rewrite (create_cooling_fields_loaded _ _ _ _ _ _ Hname Hfile Hload)
      in Hr.
    exact (never_false_register_cooling_fields avals tvals fi Hr).
  - rewrite (create_cooling_fields_legacy _ _ _ _ Hname Hfile Hload).
    destruct (load_cooling_tables_legacy_inv fd Hload)
      as (n1 & n2 & lognH & logT & var & rest & -> & Hlen).
    split.
    { exists path. split; [reflexivity|right].
      exists n1, n2, lognH, logT, var, rest. by split. }
    split; [reflexivity|]. by eexists.
  - exfalso. revert Hr. unfold create_cooling_fields.
    rewrite bind_run. unfold lift_setup at 1. rewrite Hname, Hfile.
    rewrite bind_run. unfold lift_setup at 1. rewrite Hload.
    discriminate.
Qed.

(** X5.  The entries [setup_fluid_fields] can change: a key whose field
    type is not "rt", and which is not one of the gas fields that the
    method registers (temperature_over_mu, temperature, potential_energy,
    the cooling fields, the RT gas fields, the magnetic fields), has after
    the call the entry it had before, whatever the call returns. *)
Theorem setup_fluid_fields_touches_only self fi k :
  k.1 ≠ "rt" →
  (k.1 = "gas" →
   k.2 ∉ ["temperature_over_mu"; "temperature"; "potential_energy"]
         ++ cooling_field_names ++ rt_gas_names ++ magnetic_names) →
  fields (setup_fluid_fields self fi).2 !! k = fields fi !! k.
Proof.
  intros Hrt Hgas.
  assert (Hp : preserves k (setup_fluid_fields self)); [|apply Hp].
  destruct k as [ft fn]. cbn [fst snd] in *.
  destruct (decide (ft = "gas")) as [->|Hft].
  - specialize (Hgas eq_refl).
    rewrite !not_elem_of_app in Hgas.
    destruct Hgas as (Hb & Hc & Hr & Hm).
    rewrite !not_elem_of_cons in Hb. destruct Hb as (Hb1 & Hb2 & Hb3 & _).
    unfold magnetic_names in Hm. rewrite !not_elem_of_cons in Hm.
    destruct Hm as (Hmx & Hmy & Hmz & Hmd & _).
    unfold setup_fluid_fields.
    repeat pipeline_step; try assumption; try congruence.
    intros [] E; apply (f_equal snd) in E; vm_compute in E; congruence.
  - unfold setup_fluid_fields.
    repeat pipeline_step; cbn [fst snd]; try congruence.
Qed.

(** X7.  When [create_cooling_fields] does not raise,
    [setup_fluid_fields] leaves [ds.fluid_types] with "rt" appended when
    RT files exist and unchanged when they do not, also when
    [create_rt_fields] raises after the append. *)
Theorem setup_fluid_fields_fluid_types self fi found :
  (create_cooling_fields self fi).1 = Ok found →
  fluid_types (setup_fluid_fields self fi).2 =
  fluid_types fi ++ (if rt_any_exist self then ["rt"] else []).
Proof.
  intros Hfound.
  pose proof (setup_fluid_fields_run self fi) as Hrun. cbn zeta in Hrun.
  match type of Hrun with context [create_cooling_fields self ?s] =>
    rewrite (oblivious_create_cooling_fields self fi s) in Hfound;
    assert (Hft : stable fluid_types (create_cooling_fields self));
      [|specialize (Hft s);
        destruct (create_cooling_fields self s) as [[found'|e'] fi2]] end.
  { unfold create_cooling_fields, register_cooling_fields, _create_field.
    repeat stable_step'. }
  2:{ discriminate Hfound. }
  cbn [fst snd] in Hft.
  match type of Hrun with
    context [(if rt_any_exist self then ?a else ?b) ?s] =>
    assert (Hrt : fluid_types ((if rt_any_exist self then a else b) s).2 =
                  fluid_types s ++ (if rt_any_exist self then ["rt"] else []));
      [|destruct ((if rt_any_exist self then a else b) s)
          as [[[]|e] fi5]] end.
  { destruct (rt_any_exist self); [|symmetry; apply app_nil_r].
    unfold create_rt_fields. rewrite bind_run. cbn [add_fluid_type].
    match goal with |- fluid_types (?m ?s).2 = _ =>
      assert (Hs : stable fluid_types m); [|exact (Hs s)] end.
    repeat stable_step'. }
  2:{ rewrite Hrun. cbn [fst snd fluid_types with_entry] in *.
      by rewrite Hrt, Hft. }
  match type of Hrun with
    context [(if bool_decide ?P then ?a else ?b) fi5] =>
    assert (Hm : stable fluid_types (if bool_decide P then a else b));
      [|specialize (Hm fi5);
        destruct ((if bool_decide P then a else b) fi5)
          as [[[]|e] fi6]] end.
  { unfold create_magnetic_fields. repeat stable_step'. }
  2:{ rewrite Hrun. cbn [fst snd fluid_types with_entry] in *.
      by rewrite Hm, Hrt, Hft. }
  rewrite Hrun.
  match goal with |- fluid_types (?m fi6).2 = _ =>
    assert (Hg : stable fluid_types m); [|rewrite (Hg fi6)] end.
  { unfold create_gravity_fields. repeat stable_step'. }
  cbn [fst snd fluid_types with_entry] in *. by rewrite Hm, Hrt, Hft.
Qed.

End Failure.


(** ** The derived cooling fields *)

Section Derived.
Context `{Externals}.

Lemma create_cooling_fields_True_inv self fi :
  (create_cooling_fields self fi).1 = Ok true →
  ∃ path fd avals tvals,
    cooling_filename (ds self) = Ok path ∧
    files self !! path = Some fd ∧
    load_cooling_tables fd = Ok (Some (avals, tvals)).
Proof.
  intros Hr.
  destruct (cooling_filename (ds self)) as [path|e] eqn:Hname.
  2:{ exfalso. revert Hr. unfold create_cooling_fields.
      rewrite bind_run. unfold lift_setup at 1. rewrite Hname.
      discriminate. }
  destruct (files self !! path) as [fd|] eqn:Hfile.
  2:{ rewrite (create_cooling_fields_missing_file _ _ _ Hname Hfile) in Hr.
      discriminate Hr. }
  destruct (load_cooling_tables fd) as [[[avals tvals]|]|e] eqn:Hload.
  - by exists path, fd, avals, tvals.
  - rewrite (create_cooling_fields_legacy _ _ _ _ Hname Hfile Hload) in Hr.
    discriminate Hr.
  - exfalso. revert Hr. unfold create_cooling_fields.
    rewrite bind_run. unfold lift_setup at 1. rewrite Hname, Hfile.
    rewrite bind_run. unfold lift_setup at 1. rewrite Hload.
    discriminate.
Qed.

Lemma register_cooling_fields_derived avals tvals fi fi' :
  Forall table_entry tvals →
  register_cooling_fields avals tvals fi = (Ok true, fi') →
  fields fi' !! ("gas", "number_density") =
    Some {| function := _number_density; sampling_type := cell;
            field_units := Some (UStr number_density_unit) |} ∧
  fields fi' !! ("gas", "cooling_total") =
    Some {| function := _all_cool; sampling_type := cell;
            field_units := Some (UStr cooling_function_units) |} ∧
  fields fi' !! ("gas", "heating_total") =
    Some {| function := _all_heat; sampling_type := cell;
            field_units := Some (UStr cooling_function_units) |} ∧
  fields fi' !! ("gas", "cooling_net") =
    Some {| function := _net_cool; sampling_type := cell;
            field_units := Some (UStr cooling_function_units) |}.
Proof.
  intros Htv. unfold register_cooling_fields.
  rewrite bind_run. unfold lift_setup at 1.
  destruct (dict_get "mu" tvals) as [mu|e]; [|discriminate].
  rewrite bind_run. unfold lift_setup at 1.
  destruct (table_interp avals mu.1) as [interp|e]; [|discriminate].
  rewrite bind_run. unfold _create_field at 1. rewrite add_field_run.
  rewrite bind_run, add_field_run, bind_run.
  match goal with |- context [for_each tvals ?body ?s] =>
    assert (Hloop : preserves ("gas", "number_density") (for_each tvals body));
    [|specialize (Hloop s);
      destruct (for_each tvals body s) as [[[]|e] fi2]] end.
  { apply preserves_for_each. intros [key [tbl unit_]] Hin.
    case_decide; [|apply preserves_ret].
    apply preserves_bind; [apply preserves_lift_setup | intros ?].
    apply preserves_add_field. intros [= ->].
    rewrite Forall_forall in Htv.
    pose proof (table_entry_name _ _ _ (Htv _ Hin)) as Hname.
    revert Hname. not_listed. }
  2:{ discriminate. }
  rewrite bind_run, add_field_run, bind_run, add_field_run, bind_run,
    add_field_run.
  intros [= <-]. cbn [fst snd fields with_entry] in *.
  repeat split.
  - rewrite !lookup_insert_ne by discriminate. rewrite Hloop.
    apply lookup_insert_eq.
  - rewrite !lookup_insert_ne by discriminate. apply lookup_insert_eq.
  - rewrite lookup_insert_ne by discriminate. apply lookup_insert_eq.
  - apply lookup_insert_eq.
Qed.

Lemma _number_density_cells data rho mu :
  data_fields data !! ("gas", "density") = Some rho →
  data_fields data !! ("gas", "mu") = Some mu →
  length rho = length mu →
  _number_density data =
  ([], Ok (zip_with (λ r m, r / mp / m)%R rho mu)).
Proof.
  intros Hrho Hmu Hlen. unfold _number_density.
  rewrite (getitem_found _ _ _ Hrho), eval_bind_ok.
  rewrite (getitem_found _ _ _ Hmu), eval_bind_ok.
  unfold div, broadcast, div_scalar.
  rewrite decide_True by (by rewrite length_map).
  unfold lift. do 2 f_equal.
  clear Hrho Hmu. revert mu Hlen.
  induction rho as [|r rho IH]; intros [|m mu] Hlen; try done.
  cbn [map zip_with]. f_equal. apply IH. by injection Hlen.
Qed.

Lemma _all_cool_cells data a b c :
  data_fields data !! ("gas", "cooling_primordial") = Some a →
  data_fields data !! ("gas", "cooling_metal") = Some b →
  data_fields data !! ("gas", "cooling_compton") = Some c →
  length a = length b → length b = length c →
  _all_cool data = ([], Ok (zip_with Rplus (zip_with Rplus a b) c)).
Proof.
  intros Ha Hb Hc Hab Hbc. unfold _all_cool.
  rewrite (getitem_found _ _ _ Ha), eval_bind_ok.
  rewrite (getitem_found _ _ _ Hb), eval_bind_ok.
  unfold add, broadcast. rewrite (decide_True _ _ Hab).
  rewrite lift_bind_ok.
  rewrite (getitem_found _ _ _ Hc), eval_bind_ok.
  rewrite decide_True; [reflexivity|].
  rewrite length_zip_with. lia.
Qed.

Lemma _all_heat_cells data a b :
  data_fields data !! ("gas", "heating_primordial") = Some a →
  data_fields data !! ("gas", "heating_compton") = Some b →
  length a = length b →
  _all_heat data = ([], Ok (zip_with Rplus a b)).
Proof.
  intros Ha Hb Hab. unfold _all_heat.
  rewrite (getitem_found _ _ _ Ha), eval_bind_ok.
  rewrite (getitem_found _ _ _ Hb), eval_bind_ok.
  unfold add, broadcast. by rewrite decide_True by exact Hab.
Qed.

Lemma _net_cool_cells data a b :
  data_fields data !! ("gas", "cooling_total") = Some a →
  data_fields data !! ("gas", "heating_total") = Some b →
  length a = length b →
  _net_cool data = ([], Ok (zip_with Rminus a b)).
Proof.
  intros Ha Hb Hab. unfold _net_cool.
  rewrite (getitem_found _ _ _ Ha), eval_bind_ok.
  rewrite (getitem_found _ _ _ Hb), eval_bind_ok.
  unfold sub, broadcast. by rewrite decide_True by exact Hab.
Qed.

(** X15.  When [create_cooling_fields] returns [True], the container
    [setup_fluid_fields] leaves holds the four derived cooling fields with
    their functions and units (no table field and no later stage
    overrides them), and on arrays of one length they are, cell by cell:
    number_density = density / mp / mu; cooling_total = cooling_primordial
    + cooling_metal + cooling_compton; heating_total = heating_primordial
    + heating_compton; cooling_net = cooling_total - heating_total. *)
Theorem cooling_derived_fields self fi :
  (create_cooling_fields self fi).1 = Ok true →
  (fields (setup_fluid_fields self fi).2 !! ("gas", "number_density") =
     Some {| function := _number_density; sampling_type := cell;
             field_units := Some (UStr number_density_unit) |} ∧
   fields (setup_fluid_fields self fi).2 !! ("gas", "cooling_total") =
     Some {| function := _all_cool; sampling_type := cell;
             field_units := Some (UStr cooling_function_units) |} ∧
   fields (setup_fluid_fields self fi).2 !! ("gas", "heating_total") =
     Some {| function := _all_heat; sampling_type := cell;
             field_units := Some (UStr cooling_function_units) |} ∧
   fields (setup_fluid_fields self fi).2 !! ("gas", "cooling_net") =
     Some {| function := _net_cool; sampling_type := cell;
             field_units := Some (UStr cooling_function_units) |}) ∧
  (∀ data rho mu,
     data_fields data !! ("gas", "density") = Some rho →
     data_fields data !! ("gas", "mu") = Some mu →
     length rho = length mu →
     _number_density data =
     ([], Ok (zip_with (λ r m, r / mp / m)%R rho mu))) ∧
  (∀ data a b c,
     data_fields data !! ("gas", "cooling_primordial") = Some a →
     data_fields data !! ("gas", "cooling_metal") = Some b →
     data_fields data !! ("gas", "cooling_compton") = Some c →
     length a = length b → length b = length c →
     _all_cool data = ([], Ok (zip_with Rplus (zip_with Rplus a b) c))) ∧
  (∀ data a b,
     data_fields data !! ("gas", "heating_primordial") = Some a →
     data_fields data !! ("gas", "heating_compton") = Some b →
     length a = length b →
     _all_heat data = ([], Ok (zip_with Rplus a b))) ∧
  (∀ data a b,
     data_fields data !! ("gas", "cooling_total") = Some a →
     data_fields data !! ("gas", "heating_total") = Some b →
     length a = length b →
     _net_cool data = ([], Ok (zip_with Rminus a b))).
Proof.
  intros Htrue.
  split; [|split; [apply _number_density_cells|
           split; [apply _all_cool_cells|
           split; [apply _all_heat_cells|apply _net_cool_cells]]]].
  rewrite !setup_fluid_fields_keeps_cooling_field by not_listed.
  match goal with |- context [create_cooling_fields self ?s] =>
    rewrite (oblivious_create_cooling_fields self fi s) in Htrue;
    generalize dependent s end.
  intros s Htrue.
  destruct (create_cooling_fields_True_inv _ _ Htrue)
    as (path & fd & avals & tvals & Hname & Hfile & Hload).
  rewrite (create_cooling_fields_loaded _ _ _ _ _ _ Hname Hfile Hload)
    in Htrue |- *.
  destruct (register_cooling_fields avals tvals s) as [r fi'] eqn:Hrun.
  cbn [fst snd] in *. subst r.
  eapply register_cooling_fields_derived; [|exact Hrun].
  by eapply load_cooling_tables_entries.
Qed.

End Derived.

(** ** The layout of the cooling file *)

Section Layout.
Context `{Externals}.

Lemma dict_get_dict_set_ne {V} k k' (v : V) d :
  k ≠ k' → dict_get k (dict_set k' v d) = dict_get k d.
Proof.
  intros Hk. induction d as [|[k0 v0] d IH]; cbn [dict_set dict_get].
  - by rewrite decide_False.
  - destruct (decide (k' = k0)) as [->|Hk0]; cbn [dict_get].
    + by rewrite !decide_False.
    + destruct (decide (k = k0)); [reflexivity|exact IH].
Qed.

Lemma load_species_get key d1 d2 var idx :
  key ∉ _cool_species →
  ∀ tvals tvals',
    load_species d1 d2 var idx tvals = Ok tvals' →
    dict_get key tvals' = dict_get key tvals.
Proof.
  intros Hkey. induction idx as [|i idx IH]; intros tvals tvals'; simpl.
  - by intros [= <-].
  - unfold list_index. destruct (_cool_species !! i) as [name|] eqn:Hi;
      simpl; [|discriminate].
    intros Hload. rewrite (IH _ _ Hload). apply dict_get_dict_set_ne.
    intros ->. apply Hkey. apply list_elem_of_lookup. eauto.
Qed.

(** The records the loop over the table names reads, and the record
    that gave the entry of [key]. *)
Lemma load_arrs_records key names :
  key ∉ _cool_species →
  ∀ n1 n2 i fd tvals tvals',
    load_arrs n1 n2 i names fd tvals = Ok (Some tvals') →
    ∃ vs rest,
      fd = (DoubleVec <$> vs) ++ rest ∧ length vs = length names ∧
      (i = 0 → ∀ v, vs !! 0 = Some v → Z.of_nat (length v) ≠ n1) ∧
      (dict_get key tvals = Raise (KeyError key) →
       ∀ x, dict_get key tvals' = Ok x →
       ∃ j m, names.*1 !! j = Some key ∧ vs !! j = Some m ∧
              Z.of_nat (length m) = mul32 n1 n2).
Proof.
  intros Hkey.
  induction names as [|[tname u] names IH];
    intros n1 n2 i fd tvals tvals'.
  - simpl. intros [= <-]. exists [], fd. repeat split; try done.
    intros Hnone x Hx. rewrite Hnone in Hx. discriminate.
  - rewrite load_arrs_cons.
    destruct fd as [|[?|var] fd']; cbn [read_vector_d mbind result_bind];
      try discriminate.
    destruct (bool_decide (Z.of_nat (length var) = n1) && bool_decide (i = 0))
      eqn:Hlegacy; [discriminate|].
    assert (Hfirst : i = 0 → Z.of_nat (length var) ≠ n1).
    { intros -> Hn1. rewrite (bool_decide_eq_true_2 _ Hn1) in Hlegacy.
      discriminate. }
    destruct (bool_decide (Z.of_nat (length var) = mul32 n1 n2)) eqn:Hsize.
    + apply bool_decide_eq_true_1 in Hsize.
      destruct (resolve_shape _ _) as [shape|e];
        cbn [mbind result_bind]; [|discriminate].
      intros Hload.
      destruct (IH _ _ _ _ _ _ Hload) as (vs & rest & -> & Hlen & _ & Hget).
      exists (var :: vs), rest. split; [reflexivity|].
      split; [cbn [length]; by rewrite Hlen|].
      split; [intros Hi v [= <-]; by apply Hfirst|].
      intros Hnone x Hx.
      destruct (decide (key = tname)) as [<-|Hne].
      * exists 0, var. by repeat split.
      * destruct (Hget ltac:(by rewrite dict_get_dict_set_ne) x Hx)
          as (j & m & Hj & Hm & Hsz).
        exists (S j), m. by repeat split.
    + destruct (resolve_shape _ _) as [shape|e];
        cbn [mbind result_bind]; [|discriminate].
      destruct (load_species _ _ _ _ _) as [tv0|e] eqn:Hsp;
        cbn [mbind result_bind]; [|discriminate].
      intros Hload.
      destruct (IH _ _ _ _ _ _ Hload) as (vs & rest & -> & Hlen & _ & Hget).
      exists (var :: vs), rest. split; [reflexivity|].
      split; [cbn [length]; by rewrite Hlen|].
      split; [intros Hi v [= <-]; by apply Hfirst|].
      intros Hnone x Hx.
      destruct (Hget ltac:(by rewrite (load_species_get _ _ _ _ _ Hkey _ _ Hsp))
                  x Hx) as (j & m & Hj & Hm & Hsz).
      exists (S j), m. by repeat split.
Qed.

Lemma register_cooling_fields_needs_mu avals tvals fi :
  (register_cooling_fields avals tvals fi).1 = Ok true →
  ∃ mu, dict_get "mu" tvals = Ok mu.
Proof.
  unfold register_cooling_fields. rewrite bind_run. unfold lift_setup at 1.
  destruct (dict_get "mu" tvals) as [mu|e]; [by exists mu|discriminate].
Qed.

(** X13.  The layout of a cooling file for which
    [create_cooling_fields] returns [True]: an int32 record [n1, n2], the
    two float64 axis records, then twelve float64 records, one for each
    name of [_cool_arrs]; the first of them does not hold n1 entries, and
    the eleventh (mu) holds n1 * n2 entries in int32 arithmetic, as
    otherwise [tvals["mu"]] is missing. *)
Theorem cooling_file_layout self fi :
  (create_cooling_fields self fi).1 = Ok true →
  ∃ path n1 n2 lognH logT vs rest,
    cooling_filename (ds self) = Ok path ∧
    files self !! path =
      Some (IntVec [n1; n2] :: DoubleVec lognH :: DoubleVec logT
              :: (DoubleVec <$> vs) ++ rest) ∧
    length vs = 12 ∧
    (∀ v, vs !! 0 = Some v → Z.of_nat (length v) ≠ n1) ∧
    (∀ m, vs !! 10 = Some m → Z.of_nat (length m) = mul32 n1 n2).
Proof.
  intros Htrue.
  destruct (create_cooling_fields_True_inv _ _ Htrue)
    as (path & fd & avals & tvals & Hname & Hfile & Hload).
  rewrite (create_cooling_fields_loaded _ _ _ _ _ _ Hname Hfile Hload)
    in Htrue.
  apply register_cooling_fields_needs_mu in Htrue as [mu Hmu].
  revert Hload. unfold load_cooling_tables, _cool_axes.
  destruct fd as [|[hdr|?] fd1]; cbn [read_vector_i mbind result_bind];
    try discriminate.
  destruct hdr as [|n1 [|n2 [|? ?]]]; try discriminate.
  rewrite load_axes_two.
  destruct fd1 as [|[?|lognH] [|[?|logT] fd3]]; cbn [mbind result_bind];
    try discriminate.
  destruct (load_arrs _ _ _ _ _ _) as [[tv|]|e] eqn:Harrs; try discriminate.
  intros [= _ ->].
  destruct (load_arrs_records "mu" _cool_arrs ltac:(not_listed)
              _ _ _ _ _ _ Harrs)
    as (vs & rest & -> & Hlen & Hfirst & Hget).
  exists path, n1, n2, lognH, logT, vs, rest.
  split; [exact Hname|]. split; [exact Hfile|]. split; [exact Hlen|].
  split; [by apply Hfirst|].
  intros m Hm.
  destruct (Hget eq_refl mu Hmu) as (j & m' & Hj & Hm' & Hsz).
  assert (j = 10) as ->.
  { do 12 (destruct j as [|j]; [try discriminate Hj; try reflexivity|]).
    discriminate Hj. }
  rewrite Hm in Hm'. by injection Hm' as ->.
Qed.

End Layout.

(** ** Radiative transfer: the parameters *)

Section RT.
Context `{Externals}.

(** A parameter read as a number is a scalar factor. *)
Lemma param_num p k x :
  param p k ≫= num_of = Ok x →
  ∃ v, p !! k = Some v ∧ factor_of v = Scalar x.
Proof.
  unfold param. destruct (p !! k) as [v|]; [|discriminate].
  cbn [mbind result_bind]. destruct v; cbn [num_of]; try discriminate;
    intros [= <-]; eexists; split; reflexivity.
Qed.

(** The registrations of [create_rt_fields], once its parameters are
    read. *)
Lemma create_rt_fields_run self fi n frac ul ut lt vnp dens vpf :
  let p := parameters (ds self) ∪ rt_parameters self in
  p !! "nGroups" = Some (PInt n) →
  rt_c_frac p (max_level (ds self)) = Ok frac →
  p !! "unit_l" = Some ul →
  p !! "unit_t" = Some ut →
  py_div ul ut = Ok lt →
  p !! "unit_np" = Some vnp →
  factor_rdiv (factor_of vnp) (div_scalar (scale frac speed_of_light) lt)
    = Ok dens →
  p !! "unit_pf" = Some vpf →
  create_rt_fields self fi =
  (add_field ("gas", "temp_IR") _temp_IR cell (Some (USys "temperature"));;
   for_each ["H_p1"; "He_p1"; "He_p2"] (λ species,
     add_field ("gas", species +:+ "_density") (_species_density species)
       cell (Some (USys "density"));;
     add_field ("gas", species +:+ "_mass") (_species_mass species)
       cell (Some (USys "mass")));;
   for_each (seqZ 0 n) (λ igroup,
     add_field ("rt", "photon_density_" +:+ pretty (igroup + 1)%Z)
       (_photon_density dens igroup)
       cell (Some (USys "number_density")));;
   for_each ["x"; "y"; "z"] (λ key,
     for_each (seqZ 0 n) (λ igroup,
       add_field
         ("rt", "photon_flux_" +:+ key +:+ "_" +:+ pretty (igroup + 1)%Z)
         (_photon_flux (factor_of vpf) key igroup) cell
         (Some (UDiv (UInv (USys "time")) (UPow (USys "length") 2))))))
    (add_fluid_type "rt" fi).2.
Proof.
  intros p Hn Hfrac Hul Hut Hlt Hnp Hdens Hpf. unfold create_rt_fields.
  fold p. rewrite bind_run. cbn [add_fluid_type snd].
  unfold param in *. rewrite Hn.
  rewrite bind_run. unfold lift_setup at 1.
  rewrite bind_run. unfold lift_setup at 1. rewrite Hfrac.
  rewrite Hul. rewrite bind_run. unfold lift_setup at 1.
  rewrite Hut. rewrite bind_run. unfold lift_setup at 1.
  rewrite bind_run. unfold lift_setup at 1. rewrite Hlt.
  rewrite Hnp. rewrite bind_run. unfold lift_setup at 1.
  rewrite bind_run. unfold lift_setup at 1. rewrite Hdens.
  rewrite Hpf.
  reflexivity.
Qed.

Lemma photon_density_key_inj (a b : Z) :
  ("rt", "photon_density_" +:+ pretty (a + 1)%Z)
    = ("rt", "photon_density_" +:+ pretty (b + 1)%Z) → a = b.
Proof.
  intros [= E]. apply (inj _) in E. apply (inj pretty) in E. lia.
Qed.

Lemma photon_flux_key_inj key (a b : Z) :
  ("rt", "photon_flux_" +:+ key +:+ "_" +:+ pretty (a + 1)%Z)
    = ("rt", "photon_flux_" +:+ key +:+ "_" +:+ pretty (b + 1)%Z) → a = b.
Proof.
  intros [= E]. do 3 apply (inj (String.app _)) in E.
  apply (inj pretty) in E. lia.
Qed.

Lemma flux_not_density key (a b : Z) :
  ("rt", "photon_flux_" +:+ key +:+ "_" +:+ pretty (a + 1)%Z)
    ≠ ("rt", "photon_density_" +:+ pretty (b + 1)%Z).
Proof.
  intros E. apply (f_equal snd) in E. cbn [snd String.append] in E.
  discriminate E.
Qed.

Lemma param_Ok p k v : param p k = Ok v → p !! k = Some v.
Proof. unfold param. destruct (p !! k); [by intros [= ->]|discriminate]. Qed.

Lemma create_rt_fields_inv self fi :
  (create_rt_fields self fi).1 = Ok tt →
  ∃ n frac ul ut lt vnp dens vpf,
    (parameters (ds self) ∪ rt_parameters self) !! "nGroups"
      = Some (PInt n) ∧
    rt_c_frac (parameters (ds self) ∪ rt_parameters self)
      (max_level (ds self)) = Ok frac ∧
    (parameters (ds self) ∪ rt_parameters self) !! "unit_l" = Some ul ∧
    (parameters (ds self) ∪ rt_parameters self) !! "unit_t" = Some ut ∧
    py_div ul ut = Ok lt ∧
    (parameters (ds self) ∪ rt_parameters self) !! "unit_np" = Some vnp ∧
    factor_rdiv (factor_of vnp) (div_scalar (scale frac speed_of_light) lt)
      = Ok dens ∧
    (parameters (ds self) ∪ rt_parameters self) !! "unit_pf" = Some vpf.
Proof.
  intros Hrun. unfold create_rt_fields in Hrun.
  set (p := parameters (ds self) ∪ rt_parameters self) in *.
  rewrite bind_run in Hrun. cbn [add_fluid_type] in Hrun.
  rewrite bind_run in Hrun. unfold lift_setup at 1 in Hrun.
  destruct (param p "nGroups") as [ng|] eqn:Hng; [|discriminate].
  rewrite bind_run in Hrun. unfold lift_setup at 1 in Hrun.
  destruct (rt_c_frac p (max_level (ds self))) as [frac|e] eqn:Hfrac;
    [|discriminate].
  rewrite bind_run in Hrun. unfold lift_setup at 1 in Hrun.
  destruct (param p "unit_l") as [ul|] eqn:Hul; [|discriminate].
  rewrite bind_run in Hrun. unfold lift_setup at 1 in Hrun.
  destruct (param p "unit_t") as [ut|] eqn:Hut; [|discriminate].
  rewrite bind_run in Hrun. unfold lift_setup at 1 in Hrun.
  destruct (py_div ul ut) as [lt|e] eqn:Hlt; [|discriminate].
  rewrite bind_run in Hrun. unfold lift_setup at 1 in Hrun.
  destruct (param p "unit_np") as [vnp|e] eqn:Hnp; [|discriminate].
  rewrite bind_run in Hrun. unfold lift_setup at 1 in Hrun.
  destruct (factor_rdiv (factor_of vnp) _) as [dens|e] eqn:Hdens;
    [|discriminate].
  rewrite bind_run, add_field_run, bind_run in Hrun.
  match type of Hrun with context [for_each ?l ?body ?s] =>
    destruct (for_each l body s) as [[[]|e] s2] end; [|discriminate].
  rewrite bind_run in Hrun. unfold lift_setup at 1 in Hrun.
  destruct ng as [n| |]; try discriminate. cbn [range] in Hrun.
  rewrite bind_run in Hrun.
  match type of Hrun with context [for_each ?l ?body ?s] =>
    destruct (for_each l body s) as [[[]|e] s3] end; [|discriminate].
  rewrite bind_run in Hrun. unfold lift_setup at 1 in Hrun.
  destruct (param p "unit_pf") as [vpf|e] eqn:Hpf; [|discriminate].
  exists n, frac, ul, ut, lt, vnp, dens, vpf.
  repeat split; try reflexivity; try assumption; by apply param_Ok.
Qed.

End RT.

(** ** Registrations that complete, and what they leave *)

Section Sets.
Context `{Externals}.

Lemma total_ret : total (mret tt).
Proof. intros fi. reflexivity. Qed.

Lemma total_add_field name f st u : total (add_field name f st u).
Proof. intros fi. reflexivity. Qed.

Lemma total_bind (m : Setup unit) (f : unit → Setup unit) :
  total m → total (f tt) → total (m ≫= f).
Proof.
  intros Hm Hf fi. rewrite bind_run. specialize (Hm fi).
  destruct (m fi) as [[[]|e] fi1]; [apply Hf|discriminate Hm].
Qed.

Lemma total_for_each {A} (l : list A) (body : A → Setup unit) :
  (∀ x, x ∈ l → total (body x)) → total (for_each l body).
Proof.
  induction l as [|x l IH]; intros Hb; [apply total_ret|].
  cbn [for_each]. apply total_bind; [apply Hb; left|].
  apply IH. intros y Hy. apply Hb. by right.
Qed.

Lemma sets_add_field name f st u :
  sets name {| function := f; sampling_type := st; field_units := u |}
    (add_field name f st u).
Proof. intros fi. rewrite add_field_run. apply lookup_insert_eq. Qed.

Lemma sets_bind_l {B} k fd (m : Setup unit) (f : unit → Setup B) :
  total m → sets k fd m → preserves k (f tt) → sets k fd (m ≫= f).
Proof.
  intros Ht Hm Hf fi. rewrite bind_run. specialize (Ht fi).
  specialize (Hm fi).
  destruct (m fi) as [[[]|e] fi1]; [|discriminate Ht].
  rewrite (Hf fi1). exact Hm.
Qed.

Lemma sets_bind_r {B} k fd (m : Setup unit) (f : unit → Setup B) :
  total m → sets k fd (f tt) → sets k fd (m ≫= f).
Proof.
  intros Ht Hf fi. rewrite bind_run. specialize (Ht fi).
  destruct (m fi) as [[[]|e] fi1]; [apply Hf|discriminate Ht].
Qed.

(** A loop leaves under [k] what the body of [x] leaves there, when the
    bodies of the other elements do not touch [k]. *)
Lemma sets_for_each {A} `{EqDecision A} k fd (l : list A)
    (body : A → Setup unit) x :
  x ∈ l →
  (∀ y, y ∈ l → total (body y)) →
  sets k fd (body x) →
  (∀ y, y ∈ l → y ≠ x → preserves k (body y)) →
  sets k fd (for_each l body).
Proof.
  induction l as [|y l IH]; intros Hin Ht Hx Hp.
  - by apply elem_of_nil in Hin.
  - cbn [for_each].
    destruct (decide (x ∈ l)) as [Hl|Hl].
    + apply sets_bind_r; [apply Ht; left|].
      apply IH; [exact Hl| |exact Hx|].
      * intros z Hz. apply Ht. by right.
      * intros z Hz. apply Hp. by right.
    + apply elem_of_cons in Hin as [->|Hin]; [|contradiction].
      apply sets_bind_l; [apply Ht; left|exact Hx|].
      apply preserves_for_each. intros z Hz. apply Hp; [by right|].
      intros ->. contradiction.
Qed.

End Sets.


(** ** Radiative transfer: the fields *)

(** Closes a goal [k1 ≠ k2] for two keys that differ in a literal
    part. *)
Ltac split_members :=
  repeat match goal with
    | Hx : _ ∈ _ :: _ |- _ => apply elem_of_cons in Hx as [->|Hx]
    | Hx : _ ∈ [] |- _ => by apply elem_of_nil in Hx
    end.

Ltac keys_differ :=
  let E := fresh "E" in
  intros E; split_members;
  first
    [ discriminate E
    | apply (f_equal snd) in E; cbn [snd String.append] in E;
      discriminate E ].

Ltac as_total :=
  lazymatch goal with
  | s : FieldInfo |- (?m ?s).1 = Ok tt => revert s; change (total m)
  end.

Ltac as_sets :=
  lazymatch goal with
  | s : FieldInfo |- fields (?m ?s).2 !! ?k = Some ?fd =>
      revert s; change (sets k fd m)
  end.

Section RTRegistration.
Context `{Externals}.

Lemma create_rt_fields_registers self fi n frac ul ut lt vnp dens vpf :
  (parameters (ds self) ∪ rt_parameters self) !! "nGroups"
    = Some (PInt n) →
  rt_c_frac (parameters (ds self) ∪ rt_parameters self)
    (max_level (ds self)) = Ok frac →
  (parameters (ds self) ∪ rt_parameters self) !! "unit_l" = Some ul →
  (parameters (ds self) ∪ rt_parameters self) !! "unit_t" = Some ut →
  py_div ul ut = Ok lt →
  (parameters (ds self) ∪ rt_parameters self) !! "unit_np" = Some vnp →
  factor_rdiv (factor_of vnp) (div_scalar (scale frac speed_of_light) lt)
    = Ok dens →
  (parameters (ds self) ∪ rt_parameters self) !! "unit_pf" = Some vpf →
  (create_rt_fields self fi).1 = Ok tt ∧
  fields (create_rt_fields self fi).2 !! ("gas", "temp_IR") =
    Some {| function := _temp_IR; sampling_type := cell;
            field_units := Some (USys "temperature") |} ∧
  (∀ species, species ∈ ["H_p1"; "He_p1"; "He_p2"] →
     fields (create_rt_fields self fi).2 !! ("gas", species +:+ "_density") =
       Some {| function := _species_density species; sampling_type := cell;
               field_units := Some (USys "density") |} ∧
     fields (create_rt_fields self fi).2 !! ("gas", species +:+ "_mass") =
       Some {| function := _species_mass species; sampling_type := cell;
               field_units := Some (USys "mass") |}) ∧
  (∀ i, (0 ≤ i < n)%Z →
     fields (create_rt_fields self fi).2
       !! ("rt", "photon_density_" +:+ pretty (i + 1)%Z) =
       Some {| function := _photon_density dens i;
               sampling_type := cell;
               field_units := Some (USys "number_density") |} ∧
     ∀ key, key ∈ ["x"; "y"; "z"] →
       fields (create_rt_fields self fi).2
         !! ("rt", "photon_flux_" +:+ key +:+ "_" +:+ pretty (i + 1)%Z) =
         Some {| function := _photon_flux (factor_of vpf) key i;
                 sampling_type := cell;
                 field_units :=
                   Some (UDiv (UInv (USys "time"))
                           (UPow (USys "length") 2)) |}).
Proof.
  intros Hn Hfrac Hul Hut Hlt Hnp Hdens Hpf.
  rewrite (create_rt_fields_run self fi n frac ul ut lt vnp dens vpf
             Hn Hfrac Hul Hut Hlt Hnp Hdens Hpf).
  generalize (factor_of vpf). intros pf.
  generalize ((add_fluid_type "rt" fi).2). intros s.
  assert (HtS : total (for_each ["H_p1"; "He_p1"; "He_p2"] (λ species,
            add_field ("gas", species +:+ "_density")
              (_species_density species) cell (Some (USys "density"));;
            add_field ("gas", species +:+ "_mass") (_species_mass species)
              cell (Some (USys "mass"))))).
  { apply total_for_each. intros x _.
    apply total_bind; apply total_add_field. }
  assert (HtP : ∀ dc, total (for_each (seqZ 0 n) (λ igroup,
            add_field ("rt", "photon_density_" +:+ pretty (igroup + 1)%Z)
              (_photon_density dc igroup) cell
              (Some (USys "number_density"))))).
  { intros dc. apply total_for_each. intros x _. apply total_add_field. }
  assert (HtF1 : ∀ key u, total (for_each (seqZ 0 n) (λ igroup,
            add_field
              ("rt", "photon_flux_" +:+ key +:+ "_" +:+ pretty (igroup + 1)%Z)
              (_photon_flux pf key igroup) cell u))).
  { intros key u. apply total_for_each. intros x _. apply total_add_field. }
  assert (HtF : ∀ u, total (for_each ["x"; "y"; "z"] (λ key,
            for_each (seqZ 0 n) (λ igroup,
              add_field
                ("rt",
                 "photon_flux_" +:+ key +:+ "_" +:+ pretty (igroup + 1)%Z)
                (_photon_flux pf key igroup) cell u)))).
  { intros u. apply total_for_each. intros key _. apply HtF1. }
  split; [|split; [|split]].
  - as_total.
    apply total_bind; [apply total_add_field|].
    apply total_bind; [apply HtS|].
    apply total_bind; [apply HtP|apply HtF].
  - as_sets.
    apply sets_bind_l; [apply total_add_field|apply sets_add_field|].
    repeat preserves_step; keys_differ.
  - intros species Hsp. split; as_sets.
    + apply sets_bind_r; [apply total_add_field|].
      apply sets_bind_l; [apply HtS| |repeat preserves_step; keys_differ].
      apply (sets_for_each _ _ _ _ species); [exact Hsp| | |].
      * intros y _. apply total_bind; apply total_add_field.
      * apply sets_bind_l; [apply total_add_field|apply sets_add_field|].
        apply preserves_add_field. intros E.
        apply (f_equal snd) in E. cbn [snd] in E.
        apply (inj (String.app _)) in E. discriminate E.
      * intros y Hy Hne. repeat preserves_step.
        all: intros E; apply (f_equal snd) in E; cbn [snd] in E.
        all: repeat (apply elem_of_cons in Hsp as [->|Hsp]);
          try (by apply elem_of_nil in Hsp).
        all: repeat (apply elem_of_cons in Hy as [->|Hy]);
          try (by apply elem_of_nil in Hy).
        all: first [ by apply Hne | discriminate E ].
    + apply sets_bind_r; [apply total_add_field|].
      apply sets_bind_l; [apply HtS| |repeat preserves_step; keys_differ].
      apply (sets_for_each _ _ _ _ species); [exact Hsp| | |].
      * intros y _. apply total_bind; apply total_add_field.
      * apply sets_bind_r; [apply total_add_field|apply sets_add_field].
      * intros y Hy Hne. repeat preserves_step.
        all: intros E; apply (f_equal snd) in E; cbn [snd] in E.
        all: repeat (apply elem_of_cons in Hsp as [->|Hsp]);
          try (by apply elem_of_nil in Hsp).
        all: repeat (apply elem_of_cons in Hy as [->|Hy]);
          try (by apply elem_of_nil in Hy).
        all: first [ by apply Hne | discriminate E ].
  - intros i Hi.
    assert (Hin : i ∈ seqZ 0 n) by (apply elem_of_seqZ; lia).
    split; [|intros key Hkey]; as_sets.
    + apply sets_bind_r; [apply total_add_field|].
      apply sets_bind_r; [apply HtS|].
      apply sets_bind_l; [apply HtP| |].
      * apply (sets_for_each _ _ _ _ i); [exact Hin| | |].
        -- intros y _. apply total_add_field.
        -- apply sets_add_field.
        -- intros y _ Hne. apply preserves_add_field. intros E.
           apply Hne. exact (photon_density_key_inj _ _ E).
      * apply preserves_for_each. intros key _.
        apply preserves_for_each. intros j _.
        apply preserves_add_field. apply flux_not_density.
    + apply sets_bind_r; [apply total_add_field|].
      apply sets_bind_r; [apply HtS|].
      apply sets_bind_r; [apply HtP|].
      apply (sets_for_each _ _ _ _ key); [exact Hkey| | |].
      * intros y _. apply HtF1.
      * apply (sets_for_each _ _ _ _ i); [exact Hin| | |].
        -- intros y _. apply total_add_field.
        -- apply sets_add_field.
        -- intros y _ Hne. apply preserves_add_field. intros E.
           apply Hne. exact (photon_flux_key_inj _ _ _ E).
      * intros y Hy Hne. apply preserves_for_each. intros j _.
        apply preserves_add_field. intros E.
        apply (f_equal snd) in E. cbn [snd] in E.
        repeat (apply elem_of_cons in Hkey as [->|Hkey]);
          try (by apply elem_of_nil in Hkey).
        all: repeat (apply elem_of_cons in Hy as [->|Hy]);
          try (by apply elem_of_nil in Hy).
        all: first [ by apply Hne
                   | cbn [String.append] in E; discriminate E ].
Qed.

End RTRegistration.

Section RTCells.
Context `{Externals}.

Lemma map_zip_with (h : R → R) (f : R → R → R) a b :
  map h (zip_with f a b) = zip_with (λ x y, h (f x y)) a b.
Proof.
  revert b. induction a as [|x a IH]; intros [|y b]; cbn; try reflexivity.
  f_equal. apply IH.
Qed.

Lemma _temp_IR_cells data p d :
  data_fields data !! ("gas", "pres_IR") = Some p →
  data_fields data !! ("gas", "density") = Some d →
  length p = length d →
  _temp_IR data =
  ([], Ok (zip_with
             (λ x y, x / y * (mass_hydrogen_cgs / boltzmann_constant_cgs))%R
             p d)).
Proof.
  intros Hp Hd Hlen. unfold _temp_IR.
  rewrite (getitem_found _ _ _ Hp), eval_bind_ok.
  rewrite (getitem_found _ _ _ Hd), eval_bind_ok.
  unfold div, broadcast. rewrite decide_True by exact Hlen.
  rewrite lift_bind_ok. unfold mret, Eval_ret, scale.
  by rewrite map_zip_with.
Qed.

Lemma _species_density_cells species data a b :
  data_fields data !! ("gas", species +:+ "_fraction") = Some a →
  data_fields data !! ("gas", "density") = Some b →
  length a = length b →
  _species_density species data = ([], Ok (zip_with Rmult a b)).
Proof.
  intros Ha Hb Hlen. unfold _species_density.
  rewrite (getitem_found _ _ _ Ha), eval_bind_ok.
  rewrite (getitem_found _ _ _ Hb), eval_bind_ok.
  unfold mul, broadcast. by rewrite decide_True by exact Hlen.
Qed.

Lemma _species_mass_cells species data a b :
  data_fields data !! ("gas", species +:+ "_density") = Some a →
  data_fields data !! ("index", "cell_volume") = Some b →
  length a = length b →
  _species_mass species data = ([], Ok (zip_with Rmult a b)).
Proof.
  intros Ha Hb Hlen. unfold _species_mass.
  rewrite (getitem_found _ _ _ Ha), eval_bind_ok.
  rewrite (getitem_found _ _ _ Hb), eval_bind_ok.
  unfold mul, broadcast. by rewrite decide_True by exact Hlen.
Qed.

Lemma _photon_flux_cells pf key i data a :
  data_fields data
    !! ("ramses-rt", "Photon_flux_" +:+ key +:+ "_" +:+ pretty (i + 1)%Z)
    = Some a →
  _photon_flux (Scalar pf) key i data = ([], Ok (map (λ x, x * pf)%R a)).
Proof.
  intros Ha. unfold _photon_flux.
  by rewrite (getitem_found _ _ _ Ha), eval_bind_ok.
Qed.

(** Indexing with levels that are all in range. *)
Lemma take_in_range (a : list R) idx :
  Forall (λ i, 0 ≤ i < Z.of_nat (length a))%Z idx →
  take a idx = Ok (map (λ i, nth (Z.to_nat i) a 0%R) idx).
Proof.
  unfold take. induction 1 as [|i idx Hi _ IH]; [reflexivity|].
  cbn [mapM map]. rewrite IH.
  destruct (Z.leb_spec 0 i); [|lia].
  destruct (Z.ltb_spec i (Z.of_nat (length a))); [|lia].
  cbn [andb]. unfold list_index.
  destruct (a !! Z.to_nat i) as [x|] eqn:Hx.
  - cbn [mbind result_bind]. unfold mret, result_ret.
    by rewrite (nth_lookup_Some _ _ 0%R _ Hx).
  - apply lookup_ge_None in Hx. lia.
Qed.

Lemma _photon_density_cells dc i data lvl pd :
  data_fields data !! ("index", "grid_level") = Some lvl →
  data_fields data
    !! ("ramses-rt", "Photon_density_" +:+ pretty (i + 1)%Z) = Some pd →
  length pd = length lvl →
  Forall (λ l, 0 ≤ trunc l < Z.of_nat (length dc))%Z lvl →
  _photon_density dc i data =
  ([], Ok (zip_with (λ x l, x * nth (Z.to_nat (trunc l)) dc 0)%R pd lvl)).
Proof.
  intros Hlvl Hpd Hlen Hrange. unfold _photon_density.
  rewrite (getitem_found _ _ _ Hlvl), eval_bind_ok.
  rewrite (take_in_range dc (astype_int64 lvl)).
  2:{ unfold astype_int64. by apply Forall_fmap. }
  rewrite lift_bind_ok.
  rewrite (getitem_found _ _ _ Hpd), eval_bind_ok.
  unfold mul, broadcast, astype_int64.
  rewrite decide_True by (by rewrite !length_map).
  unfold lift. do 2 f_equal.
  clear. revert lvl. induction pd as [|x pd IH]; intros [|l lvl];
    cbn; try reflexivity.
  f_equal. apply IH.
Qed.

(** The conversion factor of photon densities at level [l]. *)
Lemma dens_conv_level np (frac : arr) lt l :
  l < length frac →
  nth l (rdiv np (div_scalar (scale frac speed_of_light) lt)) 0%R =
  (np / (nth l frac 0 * speed_of_light / lt))%R.
Proof.
  intros Hl. unfold rdiv, div_scalar, scale.
  destruct (lookup_lt_is_Some_2 frac l Hl) as [x Hx].
  rewrite (nth_lookup_Some _ _ 0%R _ Hx).
  apply nth_lookup_Some. by rewrite !list_lookup_fmap, Hx.
Qed.

End RTCells.

Section RTTheorems.
Context `{Externals}.

(** X19.  When [create_rt_fields] completes, the container holds
    ("gas", "temp_IR") in the temperature unit and, for each of H_p1,
    He_p1 and He_p2, the density field in the density unit and the mass
    field in the mass unit (the photon fields after them override none);
    on arrays of one length these fields are, cell by cell,
    temp_IR = pres_IR / density * (mass_hydrogen_cgs /
    boltzmann_constant_cgs), X_density = X_fraction * density and
    X_mass = X_density * cell_volume. *)
Theorem rt_gas_fields self fi :
  (create_rt_fields self fi).1 = Ok tt →
  (fields (create_rt_fields self fi).2 !! ("gas", "temp_IR") =
     Some {| function := _temp_IR; sampling_type := cell;
             field_units := Some (USys "temperature") |} ∧
   ∀ species, species ∈ ["H_p1"; "He_p1"; "He_p2"] →
     fields (create_rt_fields self fi).2 !! ("gas", species +:+ "_density") =
       Some {| function := _species_density species; sampling_type := cell;
               field_units := Some (USys "density") |} ∧
     fields (create_rt_fields self fi).2 !! ("gas", species +:+ "_mass") =
       Some {| function := _species_mass species; sampling_type := cell;
               field_units := Some (USys "mass") |}) ∧
  (∀ data p d,
     data_fields data !! ("gas", "pres_IR") = Some p →
     data_fields data !! ("gas", "density") = Some d →
     length p = length d →
     _temp_IR data =
     ([], Ok (zip_with
                (λ x y, x / y * (mass_hydrogen_cgs / boltzmann_constant_cgs))%R
                p d))) ∧
  (∀ species data a b,
     data_fields data !! ("gas", species +:+ "_fraction") = Some a →
     data_fields data !! ("gas", "density") = Some b →
     length a = length b →
     _species_density species data = ([], Ok (zip_with Rmult a b))) ∧
  (∀ species data a b,
     data_fields data !! ("gas", species +:+ "_density") = Some a →
     data_fields data !! ("index", "cell_volume") = Some b →
     length a = length b →
     _species_mass species data = ([], Ok (zip_with Rmult a b))).
Proof.
  intros Hok.
  destruct (create_rt_fields_inv _ _ Hok)
    as (n & frac & ul & ut & lt & vnp & dens & vpf & Hn & Hfrac & Hul & Hut
        & Hlt & Hnp & Hdens & Hpf).
  destruct (create_rt_fields_registers self fi n frac ul ut lt vnp dens vpf
              Hn Hfrac Hul Hut Hlt Hnp Hdens Hpf) as (_ & HIR & Hsp & _).
  split; [by split|].
  split; [apply _temp_IR_cells|].
  split; [apply _species_density_cells|apply _species_mass_cells].
Qed.

(** X20.  With "nGroups" = n, the padded rt_c_frac, "unit_l" / "unit_t"
    and the factors "unit_np" and "unit_pf" read, [create_rt_fields]
    completes, and for every group i of 0..n-1 the container holds
    ("rt", "photon_density_<i+1>") and, for every axis, ("rt",
    "photon_flux_<axis>_<i+1>"), with the closure of that very group and
    axis.  The density field reads ("ramses-rt", "Photon_density_<i+1>")
    and multiplies each cell by unit_np / (rt_c_frac[level] * c / (unit_l
    / unit_t)) for the truncated grid level of the cell (levels within
    the padded array); the flux field reads ("ramses-rt",
    "Photon_flux_<axis>_<i+1>") and multiplies by unit_pf. *)
Theorem rt_photon_fields self fi n frac ul ut lt np pf i :
  (parameters (ds self) ∪ rt_parameters self) !! "nGroups"
    = Some (PInt n) →
  rt_c_frac (parameters (ds self) ∪ rt_parameters self)
    (max_level (ds self)) = Ok frac →
  (parameters (ds self) ∪ rt_parameters self) !! "unit_l" = Some ul →
  (parameters (ds self) ∪ rt_parameters self) !! "unit_t" = Some ut →
  py_div ul ut = Ok lt →
  param (parameters (ds self) ∪ rt_parameters self) "unit_np" ≫= num_of
    = Ok np →
  param (parameters (ds self) ∪ rt_parameters self) "unit_pf" ≫= num_of
    = Ok pf →
  (0 ≤ i < n)%Z →
  (create_rt_fields self fi).1 = Ok tt ∧
  (∃ fd,
     fields (create_rt_fields self fi).2
       !! ("rt", "photon_density_" +:+ pretty (i + 1)%Z) = Some fd ∧
     sampling_type fd = cell ∧
     field_units fd = Some (USys "number_density") ∧
     ∀ data lvl pd,
       data_fields data !! ("index", "grid_level") = Some lvl →
       data_fields data
         !! ("ramses-rt", "Photon_density_" +:+ pretty (i + 1)%Z) = Some pd →
       length pd = length lvl →
       Forall (λ l, 0 ≤ trunc l < Z.of_nat (length frac))%Z lvl →
       function fd data =
       ([], Ok (zip_with
                  (λ x l, x * (np / (nth (Z.to_nat (trunc l)) frac 0
                                       * speed_of_light / lt)))%R
                  pd lvl))) ∧
  (∀ key, key ∈ ["x"; "y"; "z"] →
     ∃ fd,
       fields (create_rt_fields self fi).2
         !! ("rt", "photon_flux_" +:+ key +:+ "_" +:+ pretty (i + 1)%Z)
         = Some fd ∧
       sampling_type fd = cell ∧
       field_units fd =
         Some (UDiv (UInv (USys "time")) (UPow (USys "length") 2)) ∧
       ∀ data a,
         data_fields data
           !! ("ramses-rt",
               "Photon_flux_" +:+ key +:+ "_" +:+ pretty (i + 1)%Z)
           = Some a →
         function fd data = ([], Ok (map (λ x, x * pf)%R a))).
Proof.
  intros Hn Hfrac Hul Hut Hlt Hnp Hpf Hi.
  apply param_num in Hnp as (vnp & Hnp & Hsnp).
  apply param_num in Hpf as (vpf & Hpf & Hspf).
  destruct (create_rt_fields_registers self fi n frac ul ut lt vnp
              (rdiv np (div_scalar (scale frac speed_of_light) lt)) vpf
              Hn Hfrac Hul Hut Hlt Hnp ltac:(by rewrite Hsnp) Hpf)
    as (Hok & _ & _ & Hph).
  rewrite Hspf in Hph.
  destruct (Hph i Hi) as [Hpd Hflux].
  split; [exact Hok|]. split.
  - eexists. split; [exact Hpd|]. do 2 (split; [reflexivity|]).
    intros data lvl pd Hlvl Hdata Hlen Hrange. cbn [function].
    rewrite (_photon_density_cells _ _ _ lvl pd Hlvl Hdata Hlen).
    2:{ unfold rdiv, div_scalar, scale. by rewrite !length_map. }
    do 2 f_equal. clear Hlvl Hdata. revert lvl Hlen Hrange.
    induction pd as [|x pd IH]; intros [|l lvl] Hlen Hrange;
      cbn [zip_with]; try reflexivity.
    apply Forall_cons in Hrange as [Hl Hrange].
    f_equal; [|apply IH; [by injection Hlen|exact Hrange]].
    rewrite dens_conv_level by lia. reflexivity.
  - intros key Hkey. eexists. split; [exact (Hflux key Hkey)|].
    do 2 (split; [reflexivity|]).
    intros data a Ha. apply _photon_flux_cells. exact Ha.
Qed.

(** X18.  [create_rt_fields] completes only if each of the six keys
    it subscripts ("nGroups", "rt_c_frac", "unit_l", "unit_t", "unit_np",
    "unit_pf") is in [ds.parameters] or in the parameters of the RT
    files: no key has a default. *)
Theorem create_rt_fields_requires self fi :
  (create_rt_fields self fi).1 = Ok tt →
  ∀ key,
    key ∈ ["nGroups"; "rt_c_frac"; "unit_l"; "unit_t"; "unit_np"; "unit_pf"] →
    is_Some (parameters (ds self) !! key)
    ∨ is_Some (rt_parameters self !! key).
Proof.
  intros Hok.
  destruct (create_rt_fields_inv _ _ Hok)
    as (n & frac & ul & ut & lt & vnp & dens & vpf & Hn & Hfrac & Hul & Hut
        & Hlt & Hnp & Hdens & Hpf).
  assert (Hc : is_Some ((parameters (ds self) ∪ rt_parameters self)
                          !! "rt_c_frac")).
  { revert Hfrac. unfold rt_c_frac, param.
    destruct (_ !! "rt_c_frac") as [v|]; [by eexists|discriminate]. }
  intros key Hkey. apply lookup_union_is_Some.
  repeat (apply elem_of_cons in Hkey as [->|Hkey]);
    [..|by apply elem_of_nil in Hkey];
    first [ exact Hc | by eexists ].
Qed.

End RTTheorems.


(** ** What setup_fluid_fields returns; particles; uniform fields *)

Section Outcome.
Context `{Externals}.

Lemma oblivious_if {A} (b : bool) (m1 m2 : Setup A) :
  oblivious m1 → oblivious m2 → oblivious (if b then m1 else m2).
Proof. by destruct b. Qed.

Lemma oblivious_add_fluid_type t : oblivious (add_fluid_type t).
Proof. intros fi fi'. reflexivity. Qed.

Lemma oblivious_create_rt_fields self : oblivious (create_rt_fields self).
Proof.
  unfold create_rt_fields.
  repeat first
    [ apply oblivious_bind; [ | intros ? ]
    | apply oblivious_for_each; intros ?
    | apply oblivious_ret
    | apply oblivious_lift_setup
    | apply oblivious_add_fluid_type
    | apply oblivious_add_field ].
Qed.

Lemma create_magnetic_fields_total self : total (create_magnetic_fields self).
Proof.
  unfold create_magnetic_fields.
  apply total_bind; [|apply total_add_field].
  apply total_for_each. intros ax _. apply total_add_field.
Qed.

(** X3.  What [setup_fluid_fields] returns: the exception of
    [create_cooling_fields] if that raises; otherwise the outcome of
    [create_rt_fields] when RT files exist, and a normal return when they
    do not.  So the magnetic and the gravity stage never raise, and no
    exception of the two other stages is caught. *)
Theorem setup_fluid_fields_outcome self fi :
  (setup_fluid_fields self fi).1 =
  match (create_cooling_fields self fi).1 with
  | Raise e => Raise e
  | Ok _ =>
      if rt_any_exist self then (create_rt_fields self fi).1 else Ok tt
  end.
Proof.
  pose proof (setup_fluid_fields_run self fi) as Hrun. cbn zeta in Hrun.
  match type of Hrun with context [create_cooling_fields self ?s] =>
    rewrite (oblivious_create_cooling_fields self fi s);
    destruct (create_cooling_fields self s) as [[found|e] fi2] end.
  2:{ by rewrite Hrun. }
  cbn [fst].
  match type of Hrun with
    context [(if rt_any_exist self then ?a else ?b) ?s] =>
    assert (Hrt : ((if rt_any_exist self then a else b) s).1 =
                  if rt_any_exist self then (create_rt_fields self fi).1
                  else Ok tt);
      [|destruct ((if rt_any_exist self then a else b) s)
          as [[[]|e] fi5]] end.
  { destruct (rt_any_exist self); [|reflexivity].
    apply oblivious_create_rt_fields. }
  2:{ rewrite Hrun. exact Hrt. }
  cbn [fst] in Hrt. rewrite <- Hrt.
  match type of Hrun with
    context [(if bool_decide ?P then ?a else ?b) fi5] =>
    assert (Hm : ((if bool_decide P then a else b) fi5).1 = Ok tt);
      [|destruct ((if bool_decide P then a else b) fi5)
          as [[[]|e] fi6]] end.
  { destruct (bool_decide _); [|reflexivity].
    apply create_magnetic_fields_total. }
  2:{ discriminate Hm. }
  rewrite Hrun. by destruct (bool_decide _).
Qed.

End Outcome.

Section Particles.
Context `{Externals}.

(** X24.  The physical-cosmology star age, with the conversions to
    Gyr and back carried out: for a nonzero Hubble rate H0 (in 1/Gyr) and
    a nonzero Gyr, the age of a particle with birth time t is
    current_time - Gyr * (t_frw(ds, 0) + t / H0); the factor H0 of
    [time_tot] cancels. *)
Theorem star_age_from_physical_cosmo_simplified ptype data times :
  data_fields data !! (ptype, "conformal_birth_time") = Some times →
  (hubble_constant (data_ds data) * 100 * (km_s_Mpc * Gyr) ≠ 0)%R →
  (Gyr ≠ 0)%R →
  star_age_from_physical_cosmo ptype data =
  ([], Ok (map (λ t, current_time (data_ds data)
                     - Gyr * (t_frw (data_ds data) 0
                              + t / (hubble_constant (data_ds data) * 100
                                     * (km_s_Mpc * Gyr))))%R
             times)).
Proof.
  intros Htimes HH0 HGyr.
  rewrite (star_age_from_physical_cosmo_formula _ _ _ Htimes). cbn zeta.
  do 2 f_equal. apply map_ext. intros t. field.
  repeat split; try assumption; intros E; apply HH0; rewrite E; ring.
Qed.

End Particles.

Section UniformField.
Context `{Externals}.

Lemma sum_over_zero axes (f : axis → R) :
  (∀ ax, ax ∈ axes → f ax = 0%R) → sum_over axes f = 0%R.
Proof.
  induction axes as [|ax axes IH]; intros Hf; [reflexivity|].
  cbn [sum_over foldr]. fold (sum_over axes f).
  rewrite Hf by left. rewrite IH; [lra|].
  intros ax' Hax'. apply Hf. by right.
Qed.

(** X22.  A magnetic field whose left and right face values agree
    along every axis has divergence 0 in every cell (of cell size not 0),
    and its centred field along each axis is the face value. *)
Theorem equal_faces_no_divergence data n (B : axis → arr) dx :
  (∀ ax, ax ∈ axis_order (data_ds data) → faces data n ax (B ax) (B ax)) →
  faces data n ax_x (B ax_x) (B ax_x) →
  data_fields data !! ("gas", "dx") = Some dx →
  length dx = n →
  Forall (λ d, d ≠ 0%R) dx →
  _divB data = ([], Ok (replicate n 0%R)) ∧
  ∀ ax, ax ∈ axis_order (data_ds data) →
        _mag_field ax data = ([], Ok (B ax)).
Proof.
  intros Hfaces (_ & Hxr & _ & Hnx) Hdx Hnd Hne. split.
  - rewrite (_divB_cells data n B B (B ax_x) dx Hfaces Hxr Hnx Hdx Hnd).
    do 2 f_equal.
    rewrite (map_seq_ext _ (λ _, 0%R)).
    + clear. generalize 0. induction n as [|n IH]; intros k;
        [reflexivity|]. cbn [seq map replicate]. f_equal. apply IH.
    + intros i Hi. rewrite sum_over_zero; [lra|]. intros ax _. lra.
  - intros ax Hax. destruct (Hfaces ax Hax) as (Hl & Hr & Hnl & _).
    rewrite (_mag_field_cells _ _ _ _ Hl Hr eq_refl). do 2 f_equal.
    clear. induction (B ax) as [|b l IH]; [reflexivity|].
    cbn [zip_with]. f_equal; [lra|exact IH].
Qed.

End UniformField.

(** ** The name of the cooling file *)

Section Strings.

Lemma string_app_cons c s t : String c s +:+ t = String c (s +:+ t).
Proof. reflexivity. Qed.

Lemma all_chars_impl (P Q : ascii → Prop) s :
  (∀ c, P c → Q c) → all_chars P s → all_chars Q s.
Proof.
  intros HPQ. induction s as [|c s IH]; [done|].
  intros [Hc Hs]. split; [by apply HPQ|by apply IH].
Qed.

Lemma all_chars_app P s1 s2 :
  all_chars P s1 → all_chars P s2 → all_chars P (s1 +:+ s2).
Proof.
  intros H1 H2. induction s1 as [|c s1 IH]; [exact H2|].
  destruct H1 as [Hc H1]. rewrite string_app_cons.
  split; [exact Hc|by apply IH].
Qed.

Lemma string_app_nil_r s : s +:+ EmptyString = s.
Proof.
  induction s as [|c s IH]; [done|]. by rewrite string_app_cons, IH.
Qed.

Lemma string_app_assoc a b c : (a +:+ b) +:+ c = a +:+ b +:+ c.
Proof.
  induction a as [|x a IH]; [done|]. by rewrite !string_app_cons, IH.
Qed.

Lemma rev_app_all_chars P s1 s2 :
  all_chars P s1 → all_chars P s2 → all_chars P (String.rev_app s1 s2).
Proof.
  revert s2. induction s1 as [|c s1 IH]; intros s2 H1 H2; [exact H2|].
  destruct H1 as [Hc H1]. cbn [String.rev_app]. apply IH; [exact H1|by split].
Qed.

Lemma rev_app_rev_app s1 s2 s3 :
  String.rev_app (String.rev_app s1 s2) s3 = String.rev_app s2 (s1 +:+ s3).
Proof.
  revert s2 s3. induction s1 as [|c s1 IH]; intros s2 s3; [done|].
  cbn [String.rev_app]. by rewrite IH.
Qed.

Lemma rev_rev s : String.rev (String.rev s) = s.
Proof.
  unfold String.rev. rewrite rev_app_rev_app. cbn [String.rev_app].
  apply string_app_nil_r.
Qed.

Lemma lstrip_id s : all_chars (λ c, is_space c = false) s → lstrip s = s.
Proof.
  destruct s as [|c s]; [done|]. intros [Hc _]. cbn [lstrip]. by rewrite Hc.
Qed.

Lemma strip_id s : all_chars (λ c, is_space c = false) s → strip s = s.
Proof.
  intros Hs. unfold strip. rewrite (lstrip_id s Hs).
  rewrite lstrip_id; [apply rev_rev|].
  by apply rev_app_all_chars.
Qed.

(** ** [split] *)

Lemma split_from_none sep cur s :
  all_chars (λ c, c ≠ sep) s → split_from sep cur s = [cur +:+ s].
Proof.
  revert cur. induction s as [|c s IH]; intros cur.
  - intros _. cbn [split_from]. by rewrite string_app_nil_r.
  - intros [Hc Hs]. cbn [split_from]. rewrite decide_False by exact Hc.
    rewrite IH by exact Hs. by rewrite string_app_assoc.
Qed.

Lemma split_from_first sep cur a rest :
  all_chars (λ c, c ≠ sep) a →
  split_from sep cur (a +:+ String sep rest)
  = (cur +:+ a) :: split_from sep EmptyString rest.
Proof.
  revert cur. induction a as [|c a IH]; intros cur.
  - intros _. change (EmptyString +:+ String sep rest) with (String sep rest).
    cbn [split_from].
    rewrite decide_True by reflexivity. by rewrite string_app_nil_r.
  - intros [Hc Ha]. rewrite string_app_cons. cbn [split_from].
    rewrite decide_False by exact Hc.
    rewrite IH by exact Ha. by rewrite string_app_assoc.
Qed.

(** ** Decimal digits *)

Lemma digit_of_pretty_N_char d :
  (d < 10)%N → digit_of (pretty_N_char d) = Some (Z.of_N d).
Proof.
  intros Hd.
  assert (d = 0 ∨ d = 1 ∨ d = 2 ∨ d = 3 ∨ d = 4 ∨ d = 5 ∨ d = 6 ∨ d = 7
          ∨ d = 8 ∨ d = 9)%N as Hcases by lia.
  repeat destruct Hcases as [->|Hcases]; try reflexivity.
  by subst.
Qed.

Lemma dval_pretty_N_go x :
  ∀ s, dval 0 (pretty_N_go x s) = dval (Z.of_N x) s.
Proof.
  induction (N.lt_wf_0 x) as [x _ IH]; intros s.
  destruct (decide (x = 0)%N) as [->|Hx]; [by rewrite pretty_N_go_0|].
  rewrite pretty_N_go_step by lia.
  rewrite IH by (apply N.div_lt; lia).
  cbn [dval]. rewrite digit_of_pretty_N_char by (apply N.mod_lt; lia).
  f_equal. rewrite N2Z.inj_div, N2Z.inj_mod.
  change (Z.of_N 10) with 10%Z.
  pose proof (Z.div_mod (Z.of_N x) 10). lia.
Qed.

Lemma dval_pretty_abs n : dval 0 (pretty (Z.abs n)) = Some (Z.abs n).
Proof.
  assert (HN : ∀ x : N, dval 0 (pretty x) = Some (Z.of_N x)).
  { intros x. unfold pretty, pretty_N.
    destruct (decide (x = 0)%N) as [->|Hx]; [reflexivity|].
    by rewrite dval_pretty_N_go. }
  destruct n as [|p|p]; [reflexivity|exact (HN (Npos p))..].
Qed.

Lemma dval_zeros k s : dval 0 (zeros k +:+ s) = dval 0 s.
Proof. induction k as [|k IH]; [done|]. exact IH. Qed.

Lemma dval_all_chars s :
  ∀ acc v, dval acc s = Some v → all_chars (λ c, is_Some (digit_of c)) s.
Proof.
  induction s as [|c s IH]; intros acc v; [done|]. cbn [dval].
  destruct (digit_of c) as [d|] eqn:Hd; [|discriminate].
  intros Hv. split; [by eexists|by eapply IH].
Qed.

Lemma digits_from_dval s :
  ∀ prev acc v,
    dval acc s = Some v → prev = true ∨ s ≠ EmptyString →
    digits_from prev acc s = Some v.
Proof.
  induction s as [|c s IH]; intros prev acc v.
  - intros [= <-] [->|?]; done.
  - cbn [dval digits_from].
    destruct (digit_of c) as [d|]; [|discriminate].
    intros Hv _. apply IH; [exact Hv|by left].
Qed.

Lemma digit_not_space c : is_Some (digit_of c) → is_space c = false.
Proof.
  unfold digit_of, is_space. intros [d Hd].
  destruct (48 <=? nat_of_ascii c) eqn:H1; [|discriminate].
  destruct (nat_of_ascii c <=? 57) eqn:H2; [|discriminate].
  apply Nat.leb_le in H1, H2.
  rewrite orb_false_iff, !andb_false_iff, !Nat.leb_gt. lia.
Qed.

Lemma padded_nonempty w d :
  0 < w → zeros (w - String.length d) +:+ d ≠ EmptyString.
Proof.
  intros Hw. destruct (w - String.length d) as [|k] eqn:Hk.
  - destruct d; [cbn in Hk; lia|discriminate].
  - discriminate.
Qed.

(** The sign dispatch of [int] on a string that starts with a digit. *)
Lemma int_unsigned c s v :
  is_Some (digit_of c) →
  dval 0 (String c s) = Some v →
  int (String c s) = Ok v.
Proof.
  intros Hc Hv. unfold int.
  rewrite strip_id.
  2:{ eapply all_chars_impl; [apply digit_not_space|].
      by eapply dval_all_chars. }
  assert (Hd : digits_from false 0 (String c s) = Some v)
    by (apply digits_from_dval; [exact Hv|by right]).
  destruct Hc as [d Hc].
  destruct c as [[] [] [] [] [] [] [] []];
    try (cbv in Hc; discriminate Hc); by rewrite Hd.
Qed.

Lemma int_format_05_value n : int (format_05 n) = Ok n.
Proof.
  unfold format_05.
  pose proof (dval_pretty_abs n) as Hd.
  destruct (Z.ltb_spec n 0) as [Hneg|Hpos].
  - assert (Ht : dval 0 (zeros (4 - String.length (pretty (Z.abs n)))
                         +:+ pretty (Z.abs n)) = Some (Z.abs n))
      by (by rewrite dval_zeros).
    match goal with |- context [ "-" +:+ ?x ] =>
      change ("-" +:+ x) with (String "-"%char x) end.
    unfold int. rewrite strip_id.
    2:{ split; [reflexivity|].
        eapply all_chars_impl; [apply digit_not_space|].
        by eapply dval_all_chars. }
    rewrite (digits_from_dval _ false 0 _ Ht)
      by (right; apply padded_nonempty; lia).
    f_equal. lia.
  - assert (Ht : dval 0 (zeros (5 - String.length (pretty (Z.abs n)))
                         +:+ pretty (Z.abs n)) = Some (Z.abs n))
      by (by rewrite dval_zeros).
    pose proof (padded_nonempty 5 (pretty (Z.abs n)) ltac:(lia)) as Hne.
    destruct (zeros _ +:+ _) as [|c s] eqn:Hs; [done|].
    rewrite (int_unsigned c s (Z.abs n)); [f_equal; lia| |exact Ht].
    by destruct (dval_all_chars _ _ _ Ht) as [Hc _].
Qed.

Lemma format_05_chars n :
  all_chars (λ c, c ≠ "."%char ∧ c ≠ "_"%char) (format_05 n).
Proof.
  assert (Hdig : ∀ c, is_Some (digit_of c) → c ≠ "."%char ∧ c ≠ "_"%char).
  { intros c [d Hd]. split; intros ->; cbv in Hd; discriminate Hd. }
  assert (Hz : ∀ k d, is_Some (dval 0 d) →
             all_chars (λ c, c ≠ "."%char ∧ c ≠ "_"%char) (zeros k +:+ d)).
  { intros k d [v Hv]. eapply all_chars_impl; [exact Hdig|].
    eapply (dval_all_chars _ 0 v). by rewrite dval_zeros. }
  unfold format_05. pose proof (dval_pretty_abs n) as Hd.
  destruct (n <? 0)%Z.
  - split; [by split|]. apply Hz. by eexists.
  - apply Hz. by eexists.
Qed.

End Strings.

Section Filename.
Context `{Externals}.

(** X16.  The number of the output makes the round trip: for a
    dataset whose basename is [<pre>_<num:05>.<suf>], with no "." and no
    "_" in [pre], for any integer [num] and any suffix, the cooling file
    is [cooling_<num:05>.out] in the directory of the dataset: [int]
    reads back what the zero-padded format wrote. *)
Theorem cooling_filename_of_output d pre suf n :
  basename d = pre +:+ "_" +:+ format_05 n +:+ "." +:+ suf →
  all_chars (λ c, c ≠ "."%char ∧ c ≠ "_"%char) pre →
  cooling_filename d =
  Ok (path_join (directory d) ("cooling_" +:+ format_05 n +:+ ".out")).
Proof.
  intros Hbase Hpre. unfold cooling_filename, str_split. rewrite Hbase.
  assert (Hf := format_05_chars n).
  replace (pre +:+ "_" +:+ format_05 n +:+ "." +:+ suf)
    with ((pre +:+ "_" +:+ format_05 n) +:+ String "." suf)
    by (by rewrite !string_app_assoc).
  rewrite split_from_first.
  2:{ apply all_chars_app; [by eapply all_chars_impl; [|exact Hpre]; intros ? []|].
      split; [done|]. eapply all_chars_impl; [|exact Hf]. by intros ? []. }
  cbn [list_index lookup list_lookup mbind result_bind].
  change (EmptyString +:+ pre +:+ "_" +:+ format_05 n)
    with (pre +:+ String "_" (format_05 n)).
  rewrite split_from_first
    by (eapply all_chars_impl; [|exact Hpre]; by intros ? []).
  rewrite split_from_none
    by (eapply all_chars_impl; [|exact Hf]; by intros ? []).
  cbn [list_index lookup list_lookup mbind result_bind].
  change (EmptyString +:+ format_05 n) with (format_05 n).
  rewrite int_format_05_value. reflexivity.
Qed.

End Filename.


(** ** Self-shielding *)

Section SelfShielding.
Context `{Externals}.

Lemma ln_10_pos : (0 < ln 10)%R.
Proof. rewrite <- ln_1. apply ln_increasing; lra. Qed.

Lemma log10_R_le (x y : R) :
  (0 < x)%R → (x <= y)%R → (log10_R x <= log10_R y)%R.
Proof.
  intros Hx Hxy. unfold log10_R.
  apply Rmult_le_compat_r.
  - apply Rlt_le, Rinv_0_lt_compat, ln_10_pos.
  - destruct Hxy as [Hlt| ->]; [|lra].
    apply Rlt_le, ln_increasing; assumption.
Qed.

Lemma log10_R_mult (x y : R) :
  (0 < x)%R → (0 < y)%R → log10_R (x * y) = (log10_R x + log10_R y)%R.
Proof.
  intros Hx Hy. unfold log10_R. rewrite ln_mult by assumption.
  pose proof ln_10_pos. field. lra.
Qed.

Lemma log10_R_1e20 : log10_R 1e20 = 20%R.
Proof.
  replace 1e20%R with (10 ^ 20)%R by lra.
  rewrite log10_R_pow. simpl. lra.
Qed.

(** The boost of self-shielding lies between 1e-20 and 1 on a
    non-negative density. *)
Lemma boost_bounds (x : R) :
  (0 <= x)%R →
  (1e-20 <= Rmax (Rtrigo_def.exp (- x / 0.01)) 1e-20 <= 1)%R.
Proof.
  intros Hx. split; [apply Rmax_r|].
  apply Rmax_lub; [|lra].
  rewrite <- exp_0.
  destruct (Req_dec x 0) as [->|Hne].
  - right. f_equal. lra.
  - left. apply exp_increasing. lra.
Qed.

(** X17.  With self-shielding, the lognH coordinate that [_func] hands
    to the interpolator is, in every cell of positive hydrogen density nH,
    at least log10(nH) and at most log10(nH) + 20: the boost
    max(exp(-nH / 0.01), 1e-20) lies between 1e-20 and 1. *)
Theorem self_shielding_lognH_bounds data t Z rho :
  data_fields data !! ("gas", "temperature_over_mu") = Some t →
  data_fields data !! ("gas", "metallicity") = Some Z →
  data_fields data !! ("gas", "density") = Some rho →
  length Z = length rho →
  self_shielding (data_ds data) = true →
  Forall (λ x, 0 < x)%R
    (zip_with (λ z r, (1 - 0.24) * (1 - z) * r / mh)%R Z rho) →
  ∃ lognH,
    _func_coordinates data =
      ([], Ok (length t, [ ("lognH", lognH); ("logT", map log10_R t) ])) ∧
    Forall2 (λ l x, log10_R x <= l <= log10_R x + 20)%R lognH
      (zip_with (λ z r, (1 - 0.24) * (1 - z) * r / mh)%R Z rho).
Proof.
  intros Ht HZ Hrho Hlen Hss Hpos.
  pose proof (_func_coordinates_cells data t Z rho Ht HZ Hrho Hlen) as Hc.
  cbn zeta in Hc. rewrite Hss in Hc.
  eexists. split; [exact Hc|]. clear Hc.
  induction Hpos as [|x nH Hx _ IH]; [constructor|].
  cbn [map]. constructor; [|exact IH].
  destruct (boost_bounds x ltac:(lra)) as [Hlo Hhi].
  set (b := Rmax _ _) in *.
  assert (Hb : (0 < b)%R) by lra.
  split.
  - apply log10_R_le; [exact Hx|].
    apply (Rmult_le_reg_r b); [exact Hb|].
    replace (x / b * b)%R with x by (field; lra). nra.
  - rewrite <- log10_R_1e20, <- log10_R_mult by lra.
    apply log10_R_le; [apply Rdiv_lt_0_compat; lra|].
    apply (Rmult_le_reg_r b); [exact Hb|].
    replace (x / b * b)%R with x by (field; lra). nra.
Qed.

End SelfShielding.

(** ** Radiative transfer: a parameter that is missed late *)

Section RTPartial.
Context `{Externals}.

Lemma bind_total_run {B} (m : Setup unit) (f : unit → Setup B) fi :
  total m → (m ≫= f) fi = f tt (m fi).2.
Proof.
  intros Ht. rewrite bind_run. specialize (Ht fi).
  destruct (m fi) as [[[]|e] fi1]; [reflexivity|discriminate Ht].
Qed.

(** [create_rt_fields] up to the reading of [unit_pf]. *)
Lemma create_rt_fields_run_flux self fi n frac ul ut lt np :
  (parameters (ds self) ∪ rt_parameters self) !! "nGroups"
    = Some (PInt n) →
  rt_c_frac (parameters (ds self) ∪ rt_parameters self)
    (max_level (ds self)) = Ok frac →
  (parameters (ds self) ∪ rt_parameters self) !! "unit_l" = Some ul →
  (parameters (ds self) ∪ rt_parameters self) !! "unit_t" = Some ut →
  py_div ul ut = Ok lt →
  param (parameters (ds self) ∪ rt_parameters self) "unit_np" ≫= num_of
    = Ok np →
  create_rt_fields self fi =
  (add_field ("gas", "temp_IR") _temp_IR cell (Some (USys "temperature"));;
   for_each ["H_p1"; "He_p1"; "He_p2"] (λ species,
     add_field ("gas", species +:+ "_density") (_species_density species)
       cell (Some (USys "density"));;
     add_field ("gas", species +:+ "_mass") (_species_mass species)
       cell (Some (USys "mass")));;
   for_each (seqZ 0 n) (λ igroup,
     add_field ("rt", "photon_density_" +:+ pretty (igroup + 1)%Z)
       (_photon_density
          (rdiv np (div_scalar (scale frac speed_of_light) lt)) igroup)
       cell (Some (USys "number_density")));;
   unit_pf ← lift_setup
     (param (parameters (ds self) ∪ rt_parameters self) "unit_pf");
   for_each ["x"; "y"; "z"] (λ key,
     for_each (seqZ 0 n) (λ igroup,
       add_field
         ("rt", "photon_flux_" +:+ key +:+ "_" +:+ pretty (igroup + 1)%Z)
         (_photon_flux (factor_of unit_pf) key igroup) cell
         (Some (UDiv (UInv (USys "time")) (UPow (USys "length") 2))))))
    (add_fluid_type "rt" fi).2.
Proof.
  intros Hn Hfrac Hul Hut Hlt Hnp. unfold create_rt_fields.
  apply param_num in Hnp as (vnp & Hnp & Hsnp).
  rewrite bind_run. cbn [add_fluid_type snd].
  unfold param at 1 2 3 4 5. rewrite Hn.
  rewrite bind_run. unfold lift_setup at 1.
  rewrite bind_run. unfold lift_setup at 1. rewrite Hfrac.
  rewrite Hul. rewrite bind_run. unfold lift_setup at 1.
  rewrite Hut. rewrite bind_run. unfold lift_setup at 1.
  rewrite bind_run. unfold lift_setup at 1. rewrite Hlt.
  rewrite Hnp. rewrite bind_run. unfold lift_setup at 1.
  rewrite bind_run. unfold lift_setup at 1. rewrite Hsnp.
  reflexivity.
Qed.

(** X21.  [create_rt_fields] is not atomic: when only "unit_pf" is
    missing, it raises KeyError("unit_pf") after the gas fields and the
    photon densities of all groups are registered, and no photon flux
    is. *)
Theorem rt_missing_unit_pf self fi n frac ul ut lt np :
  (parameters (ds self) ∪ rt_parameters self) !! "nGroups"
    = Some (PInt n) →
  rt_c_frac (parameters (ds self) ∪ rt_parameters self)
    (max_level (ds self)) = Ok frac →
  (parameters (ds self) ∪ rt_parameters self) !! "unit_l" = Some ul →
  (parameters (ds self) ∪ rt_parameters self) !! "unit_t" = Some ut →
  py_div ul ut = Ok lt →
  param (parameters (ds self) ∪ rt_parameters self) "unit_np" ≫= num_of
    = Ok np →
  (parameters (ds self) ∪ rt_parameters self) !! "unit_pf" = None →
  (create_rt_fields self fi).1 = Raise (KeyError "unit_pf") ∧
  fields (create_rt_fields self fi).2 !! ("gas", "temp_IR") =
    Some {| function := _temp_IR; sampling_type := cell;
            field_units := Some (USys "temperature") |} ∧
  (∀ i, (0 ≤ i < n)%Z →
     fields (create_rt_fields self fi).2
       !! ("rt", "photon_density_" +:+ pretty (i + 1)%Z) =
       Some {| function :=
                 _photon_density
                   (rdiv np (div_scalar (scale frac speed_of_light) lt)) i;
               sampling_type := cell;
               field_units := Some (USys "number_density") |}) ∧
  (∀ key (i : Z),
     fields (create_rt_fields self fi).2
       !! ("rt", "photon_flux_" +:+ key +:+ "_" +:+ pretty i) =
     fields fi !! ("rt", "photon_flux_" +:+ key +:+ "_" +:+ pretty i)).
Proof.
  intros Hn Hfrac Hul Hut Hlt Hnp Hpf.
  rewrite (create_rt_fields_run_flux self fi n frac ul ut lt np
             Hn Hfrac Hul Hut Hlt Hnp).
  unfold param at 1 2 3 4. rewrite Hpf. cbn [mbind result_bind].
  change (fields fi) with (fields (add_fluid_type "rt" fi).2).
  generalize ((add_fluid_type "rt" fi).2). intros s.
  assert (HtS : total (for_each ["H_p1"; "He_p1"; "He_p2"] (λ species,
            add_field ("gas", species +:+ "_density")
              (_species_density species) cell (Some (USys "density"));;
            add_field ("gas", species +:+ "_mass") (_species_mass species)
              cell (Some (USys "mass"))))).
  { apply total_for_each. intros x _.
    apply total_bind; apply total_add_field. }
  assert (HtP : ∀ dc, total (for_each (seqZ 0 n) (λ igroup,
            add_field ("rt", "photon_density_" +:+ pretty (igroup + 1)%Z)
              (_photon_density dc igroup) cell
              (Some (USys "number_density"))))).
  { intros dc. apply total_for_each. intros x _. apply total_add_field. }
  split; [|split; [|split]].
  - rewrite bind_total_run by apply total_add_field.
    rewrite bind_total_run by apply HtS.
    rewrite bind_total_run by apply HtP.
    reflexivity.
  - as_sets.
    apply sets_bind_l; [apply total_add_field|apply sets_add_field|].
    repeat preserves_step; keys_differ.
  - intros i Hi.
    assert (Hin : i ∈ seqZ 0 n) by (apply elem_of_seqZ; lia).
    as_sets.
    apply sets_bind_r; [apply total_add_field|].
    apply sets_bind_r; [apply HtS|].
    apply sets_bind_l; [apply HtP| |].
    + apply (sets_for_each _ _ _ _ i); [exact Hin| | |].
      * intros y _. apply total_add_field.
      * apply sets_add_field.
      * intros y _ Hne. apply preserves_add_field. intros E.
        apply Hne. exact (photon_density_key_inj _ _ E).
    + apply preserves_bind; [apply preserves_lift_setup|intros pf].
      apply preserves_for_each. intros key _.
      apply preserves_for_each. intros j _.
      apply preserves_add_field. apply flux_not_density.
  - intros key i.
    match goal with |- fields (?m s).2 !! ?k = _ =>
      assert (Hp : preserves k m); [|apply Hp] end.
    apply preserves_bind; [apply preserves_add_field; keys_differ|intros _].
    apply preserves_bind; [|intros _].
    { apply preserves_for_each. intros sp Hsp.
      apply preserves_bind; [|intros _];
        apply preserves_add_field; discriminate. }
    apply preserves_bind; [|intros _].
    { apply preserves_for_each. intros j _.
      apply preserves_add_field. intros E. symmetry in E. revert E.
      replace i with ((i - 1) + 1)%Z by lia. apply flux_not_density. }
    intros s'. reflexivity.
Qed.

End RTPartial.

(** ** The tables of the cooling file *)

Section Tables.
Context `{Externals}.

Lemma dict_get_dict_set_eq {V} k (v : V) d :
  dict_get k (dict_set k v d) = Ok v.
Proof.
  induction d as [|[k0 v0] d IH]; cbn [dict_set dict_get].
  - by rewrite decide_True.
  - destruct (decide (k = k0)) as [->|Hk0]; cbn [dict_get].
    + by rewrite decide_True.
    + by rewrite decide_False.
Qed.

(** The loop leaves the entries of the names it does not read. *)
Lemma load_arrs_get key names :
  key ∉ _cool_species → key ∉ names.*1 →
  ∀ n1 n2 i fd tvals tvals',
    load_arrs n1 n2 i names fd tvals = Ok (Some tvals') →
    dict_get key tvals' = dict_get key tvals.
Proof.
  intros Hkey.
  induction names as [|[tname u] names IH];
    intros Hnames n1 n2 i fd tvals tvals'.
  - simpl. by intros [= <-].
  - rewrite load_arrs_cons. cbn [fmap list_fmap fst] in Hnames.
    apply not_elem_of_cons in Hnames as [Hne Hnames].
    destruct (read_vector_d fd) as [[var fd']|e];
      cbn [mbind result_bind]; [|discriminate].
    destruct (_ && _); [discriminate|].
    destruct (bool_decide _).
    + destruct (resolve_shape _ _) as [shape|e];
        cbn [mbind result_bind]; [|discriminate].
      intros Hload. rewrite (IH Hnames _ _ _ _ _ _ Hload).
      by apply dict_get_dict_set_ne.
    + destruct (resolve_shape _ _) as [shape|e];
        cbn [mbind result_bind]; [|discriminate].
      destruct (load_species _ _ _ _ _) as [tv0|e] eqn:Hsp;
        cbn [mbind result_bind]; [|discriminate].
      intros Hload. rewrite (IH Hnames _ _ _ _ _ _ Hload).
      by eapply load_species_get.
Qed.

(** The entry of [key] is the table of the record read for it. *)
Lemma load_arrs_entry key names :
  key ∉ _cool_species → NoDup names.*1 →
  ∀ n1 n2 i fd tvals tvals' x,
    load_arrs n1 n2 i names fd tvals = Ok (Some tvals') →
    dict_get key tvals = Raise (KeyError key) →
    dict_get key tvals' = Ok x →
    ∃ j m u shape,
      names !! j = Some (key, u) ∧ fd !! j = Some (DoubleVec m) ∧
      resolve_shape [n1; n2] (Z.of_nat (length m)) = Ok shape ∧
      x = (table_F (dim shape 0) (dim shape 1) 0 m, u).
Proof.
  intros Hkey.
  induction names as [|[tname u] names IH];
    intros Hnd n1 n2 i fd tvals tvals' x.
  - simpl. intros [= <-] Hnone Hx. rewrite Hnone in Hx. discriminate.
  - rewrite load_arrs_cons. cbn [fmap list_fmap fst] in Hnd.
    apply NoDup_cons in Hnd as [Hfresh Hnd].
    destruct fd as [|[?|var] fd']; cbn [read_vector_d mbind result_bind];
      try discriminate.
    destruct (_ && _); [discriminate|].
    destruct (bool_decide _).
    + destruct (resolve_shape _ _) as [shape|e] eqn:Hshape;
        cbn [mbind result_bind]; [|discriminate].
      intros Hload Hnone Hx.
      destruct (decide (key = tname)) as [->|Hne].
      * rewrite (load_arrs_get _ _ Hkey Hfresh _ _ _ _ _ _ Hload) in Hx.
        rewrite dict_get_dict_set_eq in Hx. injection Hx as <-.
        by exists 0, var, u, shape.
      * destruct (IH Hnd _ _ _ _ _ _ x Hload
                    ltac:(by rewrite dict_get_dict_set_ne) Hx)
          as (j & m & u' & shape' & Hj & Hm & Hs & ->).
        by exists (S j), m, u', shape'.
    + destruct (resolve_shape _ _) as [shape|e];
        cbn [mbind result_bind]; [|discriminate].
      destruct (load_species _ _ _ _ _) as [tv0|e] eqn:Hsp;
        cbn [mbind result_bind]; [|discriminate].
      intros Hload Hnone Hx.
      assert (Hnone' : dict_get key tv0 = Raise (KeyError key))
        by (by rewrite (load_species_get _ _ _ _ _ Hkey _ _ Hsp)).
      destruct (decide (key = tname)) as [->|Hne].
      * rewrite (load_arrs_get _ _ Hkey Hfresh _ _ _ _ _ _ Hload) in Hx.
        rewrite Hnone' in Hx. discriminate.
      * destruct (IH Hnd _ _ _ _ _ _ x Hload Hnone' Hx)
          as (j & m & u' & shape' & Hj & Hm & Hs & ->).
        by exists (S j), m, u', shape'.
Qed.

Lemma resolve_shape_plain n1 n2 size shape :
  (0 ≤ n1)%Z → (0 ≤ n2)%Z →
  resolve_shape [n1; n2] size = Ok shape → shape = [n1; n2].
Proof.
  intros H1 H2. unfold resolve_shape. cbn [existsb].
  destruct (Z.ltb_spec n1 (-1)); [lia|].
  destruct (Z.ltb_spec n2 (-1)); [lia|]. cbn [orb].
  rewrite filter_cons_False by lia.
  rewrite filter_cons_False by lia. cbn [filter length].
  case_decide; [by intros [= <-]|discriminate].
Qed.

Lemma at_table_F d1 d2 off var i j :
  i < d1 → j < d2 →
  Interp.at_ (table_F d1 d2 off var) i j = nth (off + i + d1 * j) var 0%R.
Proof.
  intros Hi Hj. unfold Interp.at_, table_F.
  rewrite (nth_indep _ _ (map (λ j, nth (off + i + d1 * j) var 0%R)
                            (seq 0 d2)))
    by (rewrite length_map, length_seq; lia).
  rewrite (map_nth (λ i, map (λ j, nth (off + i + d1 * j) var 0%R)
                           (seq 0 d2)) (seq 0 d1) i i).
  rewrite seq_nth by lia. cbn [Nat.add].
  rewrite (nth_indep _ _ (nth (off + i + d1 * j) var 0%R))
    by (rewrite length_map, length_seq; lia).
  rewrite (map_nth (λ j, nth (off + i + d1 * j) var 0%R) (seq 0 d2) j j).
  by rewrite seq_nth by lia.
Qed.

(** X14.  From the file to the field: when [create_cooling_fields]
    returns [True] on a file with header [n1, n2] (both non-negative),
    ("gas", "mu") is registered with an interpolator built with
    [truncate=True] over the first axis record as "lognH" and the second
    as "logT", and its table is the eleventh value record in column-major
    (Fortran) order: entry (i, j) is element i + n1 * j of the record. *)
Theorem mu_table_from_file self fi path n1 n2 lognH logT recs :
  cooling_filename (ds self) = Ok path →
  files self !! path =
    Some (IntVec [n1; n2] :: DoubleVec lognH :: DoubleVec logT :: recs) →
  (0 ≤ n1)%Z → (0 ≤ n2)%Z →
  (create_cooling_fields self fi).1 = Ok true →
  ∃ m interp,
    recs !! 10 = Some (DoubleVec m) ∧
    fields (create_cooling_fields self fi).2 !! ("gas", "mu") =
      Some {| function := _func ("gas", "mu") interp (Some "dimensionless");
              sampling_type := cell;
              field_units := Some (UStr "dimensionless") |} ∧
    Interp.x_bins interp = lognH ∧ Interp.y_bins interp = logT ∧
    Interp.x_name interp = "lognH" ∧ Interp.y_name interp = "logT" ∧
    Interp.truncate interp = true ∧
    ∀ i j, i < Z.to_nat n1 → j < Z.to_nat n2 →
      Interp.at_ (Interp.table interp) i j = nth (i + Z.to_nat n1 * j) m 0%R.
Proof.
  intros Hname Hfile Hn1 Hn2 Htrue.
  destruct (create_cooling_fields_True_inv _ _ Htrue)
    as (path' & fd & avals & tvals & Hname' & Hfile' & Hload).
  rewrite Hname in Hname'. injection Hname' as <-.
  rewrite Hfile in Hfile'. injection Hfile' as <-.
  rewrite (create_cooling_fields_loaded _ _ _ _ _ _ Hname Hfile Hload)
    in Htrue |- *.
  apply register_cooling_fields_needs_mu in Htrue as [mu Hmu].
  revert Hload. unfold load_cooling_tables, _cool_axes.
  cbn [read_vector_i mbind result_bind]. rewrite load_axes_two.
  cbn [mbind result_bind].
  destruct (load_arrs _ _ _ _ _ _) as [[tv|]|e] eqn:Harrs; try discriminate.
  intros [= <- ->].
  destruct (load_arrs_entry "mu" _cool_arrs ltac:(not_listed)
              ltac:(apply (bool_decide_unpack _); vm_compute; exact I)
              _ _ _ _ _ _ mu Harrs eq_refl Hmu)
    as (j & m & u & shape & Hj & Hm & Hshape & ->).
  assert (j = 10) as ->.
  { do 12 (destruct j as [|j]; [try discriminate Hj; try reflexivity|]).
    discriminate Hj. }
  apply (resolve_shape_plain _ _ _ _ Hn1 Hn2) in Hshape as ->.
  eexists m, _. split; [exact Hm|]. split.
  { apply (register_cooling_fields_mu _ _ _ _ _ Hmu). reflexivity. }
  do 5 (split; [reflexivity|]).
  intros i j Hi Hj'. cbn [Interp.table Interp.make fst].
  by rewrite at_table_F.
Qed.

End Tables.

(** ** Concrete instances *)

Lemma X9_witness :
  fields empty_container !! ("gas", "magnetic_field_x_left") = None ∧
  "magnetic_field_divergence" ∈ magnetic_names ∧
  fields (setup_fluid_fields (H := example_externals) example_env
            empty_container).2 !! ("gas", "magnetic_field_divergence")
  = fields empty_container !! ("gas", "magnetic_field_divergence").
Proof.
  assert (Hin : "magnetic_field_divergence" ∈ magnetic_names)
    by (do 3 right; left).
  split; [reflexivity|]. split; [exact Hin|].
  exact (without_face_field_no_magnetic_field (H := example_externals)
           example_env empty_container "magnetic_field_divergence"
           eq_refl Hin).
Defined.

Lemma X10_witness :
  fields empty_container !! ("gravity", "Potential") = None ∧
  fields (setup_fluid_fields (H := example_externals) example_env
            empty_container).2 !! ("gas", "potential_energy")
  = fields empty_container !! ("gas", "potential_energy").
Proof.
  split; [reflexivity|].
  exact (without_potential_no_potential_energy (H := example_externals)
           example_env empty_container eq_refl).
Defined.

Lemma X11_witness :
  is_Some (fields example_gravity_container !! ("gravity", "Potential")) ∧
  (setup_fluid_fields (H := example_externals) example_env
     example_gravity_container).1 = Ok tt ∧
  ∃ fd,
    fields (setup_fluid_fields (H := example_externals) example_env
              example_gravity_container).2 !! ("gas", "potential_energy")
      = Some fd ∧
    function fd
      {| data_ds := example_ds; is_FieldDetector := false;
         data_fields := {[ ("gas", "potential") := [(-3)%R];
                           ("gas", "cell_mass") := [2%R] ]} |}
    = ([], Ok [(-3 * 2)%R]).
Proof.
  assert (Hpot : is_Some (fields example_gravity_container
                            !! ("gravity", "Potential")))
    by (eexists; reflexivity).
  assert (Hok : (setup_fluid_fields (H := example_externals) example_env
                   example_gravity_container).1 = Ok tt)
    by (vm_compute; reflexivity).
  split; [exact Hpot|]. split; [exact Hok|].
  destruct (with_potential_potential_energy (H := example_externals)
              example_env example_gravity_container Hpot Hok)
    as [Hreg Hcells].
  eexists. split; [exact Hreg|].
  apply (Hcells _ [(-3)%R] [2%R]); reflexivity.
Defined.

Lemma X8_witness :
  rt_any_exist example_env = false ∧
  fluid_types (setup_fluid_fields (H := example_externals) example_env
                 empty_container).2 = fluid_types empty_container ∧
  fields (setup_fluid_fields (H := example_externals) example_env
            empty_container).2 !! ("rt", "photon_density_1")
  = fields empty_container !! ("rt", "photon_density_1").
Proof.
  split; [reflexivity|].
  exact (without_rt_files_no_rt_field (H := example_externals) example_env
           empty_container ("rt", "photon_density_1") eq_refl
           (or_introl eq_refl)).
Defined.

Lemma X6_witness :
  (setup_fluid_fields (H := example_externals) example_env
     example_species_container).1 = Ok tt ∧
  "H_p1" ∈ species_names
             (setup_fluid_fields (H := example_externals) example_env
                example_species_container).2 ∧
  length (species_names
            (setup_fluid_fields (H := example_externals) example_env
               example_species_container).2) ≤ 3.
Proof.
  assert (Hok : (setup_fluid_fields (H := example_externals) example_env
                   example_species_container).1 = Ok tt)
    by (vm_compute; reflexivity).
  split; [exact Hok|].
  destruct (species_names_of_field_list (H := example_externals)
              example_env example_species_container Hok) as [Hiff Hlen].
  split; [|exact Hlen].
  apply Hiff. exists "ramses", "HII".
  split; [right; left | right; left].
Defined.

Lemma X4_witness :
  (create_cooling_fields (H := example_externals) example_unnumbered_env
     example_species_container).1 = Raise IndexError ∧
  (setup_fluid_fields (H := example_externals) example_unnumbered_env
     example_species_container).1 = Raise IndexError ∧
  species_names
    (setup_fluid_fields (H := example_externals) example_unnumbered_env
       example_species_container).2 = [].
Proof.
  split; [reflexivity|].
  destruct (cooling_error_aborts_setup (H := example_externals)
              example_unnumbered_env example_species_container IndexError
              eq_refl) as (Hraise & _ & Hsp & _).
  split; [exact Hraise|exact Hsp].
Defined.

Lemma X12_witness :
  (create_cooling_fields (H := example_externals) example_env
     empty_container).1 = Ok false ∧
  fields (create_cooling_fields (H := example_externals) example_env
            empty_container).2 = fields empty_container ∧
  ∃ msg,
    mylog (create_cooling_fields (H := example_externals) example_env
             empty_container).2 = mylog empty_container ++ [msg].
Proof.
  split; [reflexivity|].
  destruct (create_cooling_fields_False_only (H := example_externals)
              example_env empty_container eq_refl) as (_ & Hf & Hlog).
  split; [exact Hf|exact Hlog].
Defined.

Lemma X5_witness :
  ("ramses", "Density").1 ≠ "rt" ∧
  fields (setup_fluid_fields (H := example_externals) example_cooling_env
            example_mhd_container).2 !! ("ramses", "Density")
  = fields example_mhd_container !! ("ramses", "Density").
Proof.
  assert (Hrt : ("ramses", "Density").1 ≠ "rt") by discriminate.
  split; [exact Hrt|].
  apply (setup_fluid_fields_touches_only (H := example_externals)
           example_cooling_env example_mhd_container ("ramses", "Density")
           Hrt).
  intros Hgas. discriminate Hgas.
Defined.

Lemma X7_witness :
  (create_cooling_fields (H := example_externals) example_rt_env
     empty_container).1 = Ok false ∧
  fluid_types (setup_fluid_fields (H := example_externals) example_rt_env
                 empty_container).2 = ["rt"].
Proof.
  split; [reflexivity|].
  exact (setup_fluid_fields_fluid_types (H := example_externals)
           example_rt_env empty_container false eq_refl).
Defined.

Lemma X15_witness :
  (create_cooling_fields (H := example_externals) example_cooling_env
     empty_container).1 = Ok true ∧
  ∃ fd,
    fields (setup_fluid_fields (H := example_externals) example_cooling_env
              empty_container).2 !! ("gas", "number_density") = Some fd ∧
    function fd
      {| data_ds := example_ds; is_FieldDetector := false;
         data_fields := {[ ("gas", "density") := [3%R];
                           ("gas", "mu") := [1.2%R] ]} |}
    = ([], Ok [(3 / 1.67262192369e-24 / 1.2)%R]).
Proof.
  split; [exact example_cooling_file_is_read|].
  destruct (cooling_derived_fields (H := example_externals)
              example_cooling_env empty_container
              example_cooling_file_is_read)
    as ((Hnd & _) & Hcells & _).
  eexists. split; [exact Hnd|].
  apply (Hcells _ [3%R] [1.2%R]); reflexivity.
Defined.

Lemma X13_witness :
  (create_cooling_fields (H := example_externals) example_cooling_env
     empty_container).1 = Ok true ∧
  ∃ vs rest,
    files example_cooling_env !! "/data/output_00080/cooling_00080.out" =
      Some (IntVec [2; 2]%Z :: DoubleVec [0; 1]%R :: DoubleVec [4; 5]%R
              :: (DoubleVec <$> vs) ++ rest) ∧
    length vs = 12.
Proof.
  split; [exact example_cooling_file_is_read|].
  destruct (cooling_file_layout (H := example_externals)
              example_cooling_env empty_container
              example_cooling_file_is_read)
    as (path & n1 & n2 & lognH & logT & vs & rest & Hname & Hfile & Hlen
        & _).
  injection Hname as <-.
  assert (Hhead : n1 = 2%Z ∧ n2 = 2%Z ∧ lognH = [0; 1]%R ∧ logT = [4; 5]%R).
  { revert Hfile. intros [= <- <- <- <- _]. by repeat split. }
  destruct Hhead as (-> & -> & -> & ->).
  exists vs, rest. split; [exact Hfile|exact Hlen].
Defined.

Lemma X14_witness :
  cooling_filename (ds example_cooling_env)
    = Ok "/data/output_00080/cooling_00080.out" ∧
  (create_cooling_fields (H := example_externals) example_cooling_env
     empty_container).1 = Ok true ∧
  ∃ m interp,
    (replicate 10 (DoubleVec [-23; -22; -23; -22]%R)
       ++ [ DoubleVec [1.0; 1.2; 1.0; 1.2]%R;
            DoubleVec (replicate 24 (-3)%R) ]) !! 10 = Some (DoubleVec m) ∧
    fields (create_cooling_fields (H := example_externals)
              example_cooling_env empty_container).2 !! ("gas", "mu") =
      Some {| function :=
                _func (H := example_externals) ("gas", "mu") interp
                  (Some "dimensionless");
              sampling_type := cell;
              field_units := Some (UStr "dimensionless") |} ∧
    Interp.at_ (Interp.table interp) 1 0 = nth (1 + 2 * 0) m 0%R.
Proof.
  split; [reflexivity|]. split; [exact example_cooling_file_is_read|].
  destruct (mu_table_from_file (H := example_externals) example_cooling_env
              empty_container "/data/output_00080/cooling_00080.out"
              2 2 [0; 1]%R [4; 5]%R
              (replicate 10 (DoubleVec [-23; -22; -23; -22]%R)
                 ++ [ DoubleVec [1.0; 1.2; 1.0; 1.2]%R;
                      DoubleVec (replicate 24 (-3)%R) ])
              eq_refl eq_refl ltac:(discriminate) ltac:(discriminate)
              example_cooling_file_is_read)
    as (m & interp & Hm & Hreg & _ & _ & _ & _ & _ & Hat).
  exists m, interp. split; [exact Hm|]. split; [exact Hreg|].
  apply Hat; repeat constructor.
Defined.

Lemma X16_witness :
  basename example_ds = "info" +:+ "_" +:+ format_05 80 +:+ "." +:+ "txt" ∧
  all_chars (λ c, c ≠ "."%char ∧ c ≠ "_"%char) "info" ∧
  cooling_filename example_ds = Ok "/data/output_00080/cooling_00080.out".
Proof.
  assert (Hpre : all_chars (λ c, c ≠ "."%char ∧ c ≠ "_"%char) "info")
    by (repeat split; discriminate).
  split; [reflexivity|]. split; [exact Hpre|].
  exact (cooling_filename_of_output example_ds "info" "txt" 80 eq_refl
           Hpre).
Defined.

Lemma example_shielded_density_positive :
  Forall (λ x, 0 < x)%R
    (zip_with (λ z r, (1 - 0.24) * (1 - z) * r / mh (Externals := example_externals))%R
       [0%R] [1%R]).
Proof.
  constructor; [|constructor]. cbv [mh example_externals]. lra.
Qed.

Lemma X17_witness :
  data_fields example_shielded_data !! ("gas", "temperature_over_mu")
    = Some [10000%R] ∧
  data_fields example_shielded_data !! ("gas", "metallicity") = Some [0%R] ∧
  data_fields example_shielded_data !! ("gas", "density") = Some [1%R] ∧
  self_shielding (data_ds example_shielded_data) = true ∧
  ∃ lognH,
    _func_coordinates (H := example_externals) example_shielded_data =
      ([], Ok (1, [ ("lognH", lognH); ("logT", map log10_R [10000%R]) ])) ∧
    Forall2 (λ l x, log10_R x <= l <= log10_R x + 20)%R lognH
      (zip_with (λ z r, (1 - 0.24) * (1 - z) * r / 1.6735575e-24)%R
         [0%R] [1%R]).
Proof.
  do 4 (split; [reflexivity|]).
  exact (self_shielding_lognH_bounds (H := example_externals)
           example_shielded_data [10000%R] [0%R] [1%R]
           eq_refl eq_refl eq_refl eq_refl eq_refl
           example_shielded_density_positive).
Defined.

Lemma example_rt_division :
  py_div (PFloat 2) (PFloat 4) = Ok (2 / 4)%R.
Proof.
  unfold py_div. cbn [num_of mbind result_bind].
  destruct (Req_dec_T 4 0) as [E|_]; [lra|reflexivity].
Qed.

Lemma example_rt_env_completes :
  (create_rt_fields (H := example_externals) example_rt_env
     empty_container).1 = Ok tt.
Proof.
  apply (create_rt_fields_registers (H := example_externals) example_rt_env
           empty_container 3 [0.01; 0.01; 0.01; 0.01]%R
           (PFloat 2) (PFloat 4) (2 / 4)%R (PFloat 1)
           (rdiv 1 (div_scalar
                      (scale [0.01; 0.01; 0.01; 0.01]%R
                         (speed_of_light (Externals := example_externals)))
                      (2 / 4))) (PFloat 8));
    first [ reflexivity | exact example_rt_division ].
Qed.

Lemma X18_witness :
  (create_rt_fields (H := example_externals) example_rt_env
     empty_container).1 = Ok tt ∧
  (is_Some (parameters (ds example_rt_env) !! "unit_pf")
   ∨ is_Some (rt_parameters example_rt_env !! "unit_pf")).
Proof.
  split; [exact example_rt_env_completes|].
  apply (create_rt_fields_requires (H := example_externals)
           example_rt_env empty_container example_rt_env_completes).
  do 5 right. left.
Defined.

Lemma X19_witness :
  (create_rt_fields (H := example_externals) example_rt_env
     empty_container).1 = Ok tt ∧
  ∃ fd,
    fields (create_rt_fields (H := example_externals) example_rt_env
              empty_container).2 !! ("gas", "He_p1_density") = Some fd ∧
    function fd
      {| data_ds := example_ds; is_FieldDetector := false;
         data_fields := {[ ("gas", "He_p1_fraction") := [0.25%R];
                           ("gas", "density") := [8%R] ]} |}
    = ([], Ok [(0.25 * 8)%R]).
Proof.
  split; [exact example_rt_env_completes|].
  destruct (rt_gas_fields (H := example_externals) example_rt_env
              empty_container example_rt_env_completes)
    as ((_ & Hsp) & _ & Hdens & _).
  destruct (Hsp "He_p1" ltac:(right; left)) as [Hreg _].
  eexists. split; [exact Hreg|].
  apply (Hdens "He_p1" _ [0.25%R] [8%R]); reflexivity.
Defined.

Lemma X20_witness :
  (create_rt_fields (H := example_externals) example_rt_env
     empty_container).1 = Ok tt ∧
  ∃ fd,
    fields (create_rt_fields (H := example_externals) example_rt_env
              empty_container).2 !! ("rt", "photon_flux_y_3") = Some fd ∧
    function fd
      {| data_ds := example_ds; is_FieldDetector := false;
         data_fields := {[ ("ramses-rt", "Photon_flux_y_3") := [5%R] ]} |}
    = ([], Ok [(5 * 8)%R]).
Proof.
  destruct (rt_photon_fields (H := example_externals) example_rt_env
              empty_container 3 [0.01; 0.01; 0.01; 0.01]%R
              (PFloat 2) (PFloat 4) (2 / 4)%R 1%R 8%R 2
              eq_refl eq_refl eq_refl eq_refl example_rt_division
              eq_refl eq_refl ltac:(split; [discriminate|reflexivity]))
    as (Hok & _ & Hflux).
  split; [exact Hok|].
  destruct (Hflux "y" ltac:(right; left)) as (fd & Hreg & _ & _ & Hval).
  exists fd. split; [exact Hreg|].
  apply (Hval _ [5%R]). reflexivity.
Defined.

Lemma X21_witness :
  (parameters (ds example_rt_env_no_pf) ∪ rt_parameters example_rt_env_no_pf)
    !! "unit_pf" = None ∧
  (create_rt_fields (H := example_externals) example_rt_env_no_pf
     empty_container).1 = Raise (KeyError "unit_pf") ∧
  is_Some (fields (create_rt_fields (H := example_externals)
                     example_rt_env_no_pf empty_container).2
             !! ("rt", "photon_density_1")) ∧
  fields (create_rt_fields (H := example_externals) example_rt_env_no_pf
            empty_container).2 !! ("rt", "photon_flux_x_1") = None.
Proof.
  split; [reflexivity|].
  destruct (rt_missing_unit_pf (H := example_externals) example_rt_env_no_pf
              empty_container 3 [0.01; 0.01; 0.01; 0.01]%R
              (PFloat 2) (PFloat 4) (2 / 4)%R 1%R
              eq_refl eq_refl eq_refl eq_refl example_rt_division
              eq_refl eq_refl)
    as (Hraise & _ & Hpd & Hflux).
  split; [exact Hraise|]. split.
  - eexists. exact (Hpd 0%Z ltac:(split; [discriminate|reflexivity])).
  - exact (Hflux "x" 1%Z).
Defined.

Lemma X22_witness :
  (∀ ax, ax ∈ axis_order (data_ds example_uniform_data) →
     faces example_uniform_data 1 ax
       (match ax with ax_x => [2%R] | ax_y => [5%R] | ax_z => [0%R] end)
       (match ax with ax_x => [2%R] | ax_y => [5%R] | ax_z => [0%R] end)) ∧
  data_fields example_uniform_data !! ("gas", "dx") = Some [0.5%R] ∧
  Forall (λ d, d ≠ 0%R) [0.5%R] ∧
  _divB example_uniform_data = ([], Ok [0%R]) ∧
  _mag_field ax_y example_uniform_data
    = ([], Ok [5%R]).
Proof.
  assert (Hfaces : ∀ ax, ax ∈ axis_order (data_ds example_uniform_data) →
            faces example_uniform_data 1 ax
              (match ax with
               | ax_x => [2%R] | ax_y => [5%R] | ax_z => [0%R] end)
              (match ax with
               | ax_x => [2%R] | ax_y => [5%R] | ax_z => [0%R] end))
    by (intros [] _; repeat split; reflexivity).
  assert (Hdx : Forall (λ d, d ≠ 0%R) [0.5%R])
    by (constructor; [lra|constructor]).
  split; [exact Hfaces|]. split; [reflexivity|]. split; [exact Hdx|].
  destruct (equal_faces_no_divergence example_uniform_data 1
              (λ ax, match ax with
                     | ax_x => [2%R] | ax_y => [5%R] | ax_z => [0%R] end)
              [0.5%R] Hfaces (Hfaces ax_x ltac:(left)) eq_refl eq_refl Hdx)
    as [Hdiv Hmag].
  split; [exact Hdiv|]. exact (Hmag ax_y ltac:(right; left)).
Defined.

Lemma example_hubble_rate_nonzero :
  (hubble_constant (data_ds example_star_data) * 100
   * (km_s_Mpc (Externals := example_externals)
      * Gyr (Externals := example_externals)) ≠ 0)%R.
Proof.
  cbv [hubble_constant data_ds example_star_data example_ds km_s_Mpc Gyr
       example_externals]. lra.
Qed.

Lemma example_Gyr_nonzero : (Gyr (Externals := example_externals) ≠ 0)%R.
Proof. cbv [Gyr example_externals]. lra. Qed.

Lemma X24_witness :
  data_fields example_star_data !! ("io", "conformal_birth_time")
    = Some [(-1)%R] ∧
  star_age_from_physical_cosmo (H := example_externals) "io"
    example_star_data =
  ([], Ok [(10 - 3.15576e16
                 * (0 + -1 / (0.7 * 100 * (3.24077929e-20 * 3.15576e16))))%R]).
Proof.
  split; [reflexivity|].
  exact (star_age_from_physical_cosmo_simplified (H := example_externals)
           "io" example_star_data [(-1)%R] eq_refl
           example_hubble_rate_nonzero example_Gyr_nonzero).
Defined.

